(** * The ASGI tracing middleware: a shallow embedding and its properties

    The development follows
    [opentelemetry/instrumentation/asgi/__init__.py]: the header accessor
    ([ASGIGetter], [ASGISetter]), the request attribute collector, the
    status helper and [OpenTelemetryMiddleware.__call__] with its two
    wrappers [otel_receive] and [otel_send].

    Python values are embedded as data, exceptions as an error result, and
    the stateful part (spans, metric instruments, the context stack, the
    middleware instance, the closure variables of one invocation) as a
    state-and-exception monad over an explicit [state]. *)

From Stdlib Require Import ZArith QArith Qround Lia Bool List Ascii String DecimalString.
From Stdlib Require DecimalPos DecimalZ.
From Stdlib Require Import Qabs Lqa.
From Stdlib Require Import Floats.SpecFloat.
From stdpp Require Import base tactics option list strings.

Local Open Scope string_scope.
Local Open Scope Z_scope.

(** ** Python runtime *)

Module Py.

(** Exceptions that the modelled code can see.  [Failure] stands for any
    exception raised by code the middleware does not own (the wrapped
    application, the transport, a hook), distinguished by a tag. *)
Inductive exn : Type :=
| UnicodeDecodeError
| ValueError
| TypeError
| OverflowError
| KeyError (key : string)
| Failure (tag : nat).

(** [except ValueError] also catches [UnicodeDecodeError], its subclass. *)
Definition is_ValueError (e : exn) : bool :=
  match e with
  | ValueError | UnicodeDecodeError => true
  | _ => false
  end.

Inductive outcome (A : Type) : Type :=
| Ok (a : A)
| Raise (e : exn).
Arguments Ok {A} a.
Arguments Raise {A} e.

Definition obind {A B} (r : outcome A) (k : A -> outcome B) : outcome B :=
  match r with
  | Ok a => k a
  | Raise e => Raise e
  end.

(** Values.  [VStr] holds a text by its UTF-8 encoding, so that [+] is
    concatenation and [==] is equality; [VBytes] holds raw bytes. *)
Inductive pyval : Type :=
| VNone
| VBool (b : bool)
| VInt (z : Z)
| VStr (s : string)
| VBytes (b : string).

Definition nonempty (s : string) : bool :=
  match s with
  | EmptyString => false
  | String _ _ => true
  end.

(** Truth value of an object, as [if x:] and [not x] read it. *)
Definition truthy (v : pyval) : bool :=
  match v with
  | VNone => false
  | VBool b => b
  | VInt z => negb (z =? 0)
  | VStr s => nonempty s
  | VBytes b => nonempty b
  end.

Definition byte (c : ascii) : N := N_of_ascii c.

Definition between (lo hi : N) (c : ascii) : bool :=
  ((lo <=? byte c) && (byte c <=? hi))%N.

Definition is_cont : ascii -> bool := between 128 191.

(** The second byte a lead byte admits, and how many bytes follow the lead;
    [None] for a byte that cannot start a sequence. *)
Definition lead (c : ascii) : option (nat * N * N) :=
  let b := byte c in
  if (b <? 194)%N then None
  else if (b <=? 223)%N then Some (1%nat, 128, 191)%N
  else if (b =? 224)%N then Some (2%nat, 160, 191)%N
  else if (b =? 237)%N then Some (2%nat, 128, 159)%N
  else if (b <=? 239)%N then Some (2%nat, 128, 191)%N
  else if (b =? 240)%N then Some (3%nat, 144, 191)%N
  else if (b <=? 243)%N then Some (3%nat, 128, 191)%N
  else if (b =? 244)%N then Some (3%nat, 128, 143)%N
  else None.

(** U+FFFD, the replacement character. *)
Definition replacement : string :=
  String (ascii_of_N 239) (String (ascii_of_N 191) (String (ascii_of_N 189) "")).

(** [bytes.decode("utf8", errors)]: with [replace = false] the strict
    decoder ([None] is [UnicodeDecodeError]); with [replace = true] every
    maximal ill-formed part becomes U+FFFD. *)
Fixpoint utf8 (replace : bool) (s : string) : option string :=
  let bad (rest : option string) : option string :=
    if replace then option_map (append replacement) rest else None in
  let cons1 c (rest : option string) := option_map (String c) rest in
  match s with
  | "" => Some ""
  | String c0 r0 =>
    if (byte c0 <? 128)%N then cons1 c0 (utf8 replace r0)
    else
      match lead c0 with
      | None => bad (utf8 replace r0)
      | Some (n, lo, hi) =>
        match r0 with
        | "" => bad (Some "")
        | String c1 r1 =>
          if negb (between lo hi c1) then bad (utf8 replace r0)
          else
            match n with
            | 1%nat => cons1 c0 (cons1 c1 (utf8 replace r1))
            | _ =>
              match r1 with
              | "" => bad (Some "")
              | String c2 r2 =>
                if negb (is_cont c2) then bad (utf8 replace r1)
                else
                  match n with
                  | 2%nat => cons1 c0 (cons1 c1 (cons1 c2 (utf8 replace r2)))
                  | _ =>
                    match r2 with
                    | "" => bad (Some "")
                    | String c3 r3 =>
                      if negb (is_cont c3) then bad (utf8 replace r2)
                      else cons1 c0 (cons1 c1 (cons1 c2 (cons1 c3 (utf8 replace r3))))
                    end
                  end
              end
            end
        end
      end
  end.

(** [b.decode("utf8")] and [b.decode()]. *)
Definition decode (b : string) : outcome string :=
  match utf8 false b with
  | Some s => Ok s
  | None => Raise UnicodeDecodeError
  end.

(** [str.lower()] on the ASCII letters; other code points are left as they
    are, which is what Python does for every text made of ASCII characters. *)
Definition lower_ascii (c : ascii) : ascii :=
  if between 65 90 c then ascii_of_N (byte c + 32) else c.

Fixpoint lower (s : string) : string :=
  match s with
  | "" => ""
  | String c r => String (lower_ascii c) (lower r)
  end.

(** ASCII white space: tab, line feed, vertical tab, form feed, carriage
    return, the four separators and space. *)
Definition is_space (c : ascii) : bool :=
  between 9 13 c || between 28 32 c.

Fixpoint lstrip (s : string) : string :=
  match s with
  | "" => ""
  | String c r => if is_space c then lstrip r else s
  end.

Fixpoint rstrip (s : string) : string :=
  match s with
  | "" => ""
  | String c r =>
    let r' := rstrip r in
    if is_space c && negb (nonempty r') then "" else String c r'
  end.

(** [str.strip()]. *)
Definition strip (s : string) : string := rstrip (lstrip s).

(** [str(n)] for an integer. *)
Definition str_of_int (z : Z) : string := NilZero.string_of_int (Z.to_int z).

(** Decimal digits with single underscores between them. *)
Fixpoint digits (acc : Z) (after_digit : bool) (s : string) : option Z :=
  match s with
  | "" => if after_digit then Some acc else None
  | String c r =>
    if between 48 57 c then digits (acc * 10 + Z.of_N (byte c - 48)) true r
    else if (byte c =? 95)%N && after_digit then digits acc false r
    else None
  end.

(** The white space [int] skips around a literal: tab, line feed, vertical
    tab, form feed, carriage return and space, and not the four separators
    that [str.strip] removes as well. *)
Definition is_literal_space (c : ascii) : bool :=
  between 9 13 c || (byte c =? 32)%N.

Fixpoint skip_left (s : string) : string :=
  match s with
  | "" => ""
  | String c r => if is_literal_space c then skip_left r else s
  end.

Fixpoint skip_right (s : string) : string :=
  match s with
  | "" => ""
  | String c r =>
    let r' := skip_right r in
    if is_literal_space c && negb (nonempty r') then "" else String c r'
  end.

Fixpoint count_digits (s : string) : nat :=
  match s with
  | "" => 0
  | String c r => ((if between 48 57 c then 1 else 0) + count_digits r)%nat
  end.

(** [sys.int_info.default_max_str_digits]: a literal with more digits is
    refused with [ValueError]. *)
Definition max_str_digits : nat := 4300.

(** [int(text)] in base ten: white space around the literal, an optional
    sign, then the digits.  This is [int] on a byte string and on a text of
    ASCII characters; in a text [int] also takes the white space and the
    decimal digits outside ASCII, which are not modelled. *)
Definition int_of_text (s : string) : option Z :=
  let literal := skip_right (skip_left s) in
  if (max_str_digits <? count_digits literal)%nat then None
  else
    match literal with
    | String "-" r => option_map Z.opp (digits 0 false r)
    | String "+" r => digits 0 false r
    | r => digits 0 false r
    end.

(** [int(x)]. *)
Definition int (v : pyval) : outcome Z :=
  match v with
  | VInt z => Ok z
  | VBool b => Ok (if b then 1 else 0)
  | VStr s | VBytes s =>
    match int_of_text s with
    | Some z => Ok z
    | None => Raise ValueError
    end
  | VNone => Raise TypeError
  end.

Definition hex_digit (n : N) : ascii :=
  ascii_of_N (if (n <? 10)%N then 48 + n else 87 + n).

(** One character inside a [repr] literal quoted with [q]; in the literal
    of a byte string every byte outside ASCII is escaped as well. *)
Definition repr_char (bytes : bool) (q : ascii) (c : ascii) : string :=
  let b := byte c in
  if (b =? 92)%N then "\\"
  else if Ascii.eqb c q then String "\" (String q "")
  else if (b =? 10)%N then "\n"
  else if (b =? 13)%N then "\r"
  else if (b =? 9)%N then "\t"
  else if (b <? 32)%N || (b =? 127)%N || (bytes && (128 <=? b)%N)
       then "\x" ++ String (hex_digit (b / 16)) (String (hex_digit (b mod 16)) "")
  else String c "".

Fixpoint repr_chars (bytes : bool) (q : ascii) (s : string) : string :=
  match s with
  | "" => ""
  | String c r => repr_char bytes q c ++ repr_chars bytes q r
  end.

Fixpoint mem_char (c : ascii) (s : string) : bool :=
  match s with
  | "" => false
  | String d r => Ascii.eqb c d || mem_char c r
  end.

Definition double_quote : ascii := ascii_of_N 34.

Definition repr_text (bytes : bool) (s : string) : string :=
  let q := if mem_char "'" s && negb (mem_char double_quote s)
           then double_quote else "'"%char in
  String q (repr_chars bytes q s ++ String q "").

(** [repr(x)].  For a text this is [repr] when the text is made of ASCII
    characters; outside ASCII [repr] escapes the code points that are not
    printable, which are not modelled. *)
Definition repr (v : pyval) : string :=
  match v with
  | VNone => "None"
  | VBool true => "True"
  | VBool false => "False"
  | VInt z => str_of_int z
  | VStr s => repr_text false s
  | VBytes b => "b" ++ repr_text true b
  end.

(** [sep.join(parts)]. *)
Fixpoint join (sep : string) (parts : list string) : string :=
  match parts with
  | [] => ""
  | [p] => p
  | p :: r => p ++ sep ++ join sep r
  end.

Definition hex_value (c : ascii) : option N :=
  if between 48 57 c then Some (byte c - 48)%N
  else if between 97 102 c then Some (byte c - 87)%N
  else if between 65 70 c then Some (byte c - 55)%N
  else None.

(** [urllib.parse.unquote_to_bytes]: each [%XX] with two hexadecimal digits
    becomes the byte it names; any other [%] stays. *)
Fixpoint unquote_to_bytes (s : string) : string :=
  match s with
  | "" => ""
  | String c r =>
    match r with
    | String h (String l r2) =>
      match hex_value h, hex_value l with
      | Some a, Some b =>
        if Ascii.eqb c "%" then String (ascii_of_N (a * 16 + b)) (unquote_to_bytes r2)
        else String c (unquote_to_bytes r)
      | _, _ => String c (unquote_to_bytes r)
      end
    | _ => String c (unquote_to_bytes r)
    end
  end.

(** [urllib.parse.unquote(text)]: a text without [%] is returned as it is;
    otherwise the escapes are replaced and the bytes read as UTF-8 with
    ill-formed parts replaced. *)
Definition unquote (s : string) : string :=
  if mem_char "%" s
  then default s (utf8 true (unquote_to_bytes s))
  else s.

(** The integer nearest to a rational number, a tie going to the even
    one. *)
Definition nearest_even (x : Q) : Z :=
  let f := Qfloor x in
  match Qcompare (x - inject_Z f) (1 # 2) with
  | Lt => f
  | Gt => f + 1
  | Eq => if Z.even f then f else f + 1
  end.

(** A [float] is an IEEE 754 binary64 number, with the subtraction and the
    multiplication of the format, rounded to nearest, a tie to even. *)
Definition float : Type := spec_float.

Definition fsub : float -> float -> float := SFsub 53 1024.

Definition fmul : float -> float -> float := SFmul 53 1024.

(** [1000.0], which is [float(1000)]: the mantissa is [1000 * 2 ^ 43]. *)
Definition thousand : float := S754_finite false 8796093022208000 (-43).

(** The number a float stands for; zero for what is not a number. *)
Definition float_value (x : float) : Q :=
  match x with
  | S754_finite s m e => (inject_Z (cond_Zopp s (Zpos m)) * 2 ^ e)%Q
  | _ => 0%Q
  end.

(** [round(x)] of a float: the nearest integer, a tie going to the even
    one; an infinity and a NaN have none. *)
Definition round (x : float) : outcome Z :=
  match x with
  | S754_infinity _ => Raise OverflowError
  | S754_nan => Raise ValueError
  | _ => Ok (nearest_even (float_value x))
  end.

End Py.
Import Py.

(** ** Data model *)

(** A [dict] with text keys, in insertion order and without repeated keys. *)
Definition dict (V : Type) : Type := list (string * V).

Fixpoint dict_get {V} (k : string) (d : dict V) : option V :=
  match d with
  | [] => None
  | (k', v) :: r => if String.eqb k' k then Some v else dict_get k r
  end.

(** [d[k] = v]. *)
Fixpoint dict_set {V} (k : string) (v : V) (d : dict V) : dict V :=
  match d with
  | [] => [(k, v)]
  | (k', v') :: r => if String.eqb k' k then (k, v) :: r else (k', v') :: dict_set k v r
  end.

(** [d.update(other)]. *)
Definition dict_update {V} (d other : dict V) : dict V :=
  fold_left (fun acc kv => dict_set kv.1 kv.2 acc) other d.

(** Header lists: pairs of byte strings, in the order received. *)
Definition headers : Type := list (string * string).

(** The ASGI connection scope, with the keys this module reads.  A key that
    is missing, or present with the value [None], is [None] here. *)
Record scope : Type := {
  sc_type : string;
  sc_scheme : option string;
  sc_server : option (string * option Z);
  sc_root_path : option string;
  sc_path : option string;
  sc_query_string : option pyval;
  sc_http_version : option string;
  sc_method : option string;
  sc_headers : option headers;
  sc_client : option (string * Z);
  (** [getattr(scope.get("route"), "path_format", None)] *)
  sc_route_path_format : option string
}.

(** An ASGI event passed to [send] or returned by [receive]. *)
Record message : Type := {
  msg_type : string;
  msg_status : option pyval;
  msg_headers : option headers;
  msg_trailers : option pyval;
  msg_more_body : option pyval;
  msg_more_trailers : option pyval
}.

Inductive SpanKind : Type := SERVER | INTERNAL.
Inductive StatusCode : Type := UNSET | OK | ERROR.

Inductive instrument : Type :=
| duration_histogram
| server_response_size_histogram
| server_request_size_histogram.

(** Context tokens: the one obtained when the extracted request context is
    attached, and the ones [use_span] holds while a span is current. *)
Inductive token : Type :=
| TokCarrier (sid : nat)
| TokSpan (sid : nat).

Inductive hook_name : Type := ServerRequest | ClientRequest | ClientResponse.

(** What the middleware does to its collaborators, one event per call. *)
Inductive event : Type :=
| EvStartSpan (sid : nat) (name : string) (kind : SpanKind) (attributes : dict pyval)
              (recording : bool)
| EvEndSpan (sid : nat) (recording : bool)
| EvSetAttribute (sid : nat) (key : string) (value : pyval)
| EvSetAttributes (sid : nat) (attributes : dict string)
| EvSetStatus (sid : nat) (code : StatusCode) (description : option string)
| EvRecordException (sid : nat) (e : exn)
| EvAttach (t : token)
| EvDetach (t : token)
| EvCounterAdd (amount : Z) (attributes : dict pyval)
| EvRecord (i : instrument) (value : Z) (attributes : dict pyval)
| EvHook (h : hook_name)
| EvReceive
| EvSend (m : message).

(** What the middleware reads back from a span. *)
Record span : Type := {
  sp_kind : SpanKind;
  sp_sampled : bool;
  sp_ended : bool
}.

Definition is_recording (sp : span) : bool := sp_sampled sp && negb (sp_ended sp).

(** The mutable state: the collaborators' side ([log], newest event first,
    and [spans], indexed by span id), the middleware instance
    ([content_length_header]) and the closure variables of the invocation
    in progress ([expecting_trailers], [duration_attrs]). *)
Record state : Type := {
  log : list event;
  spans : list span;
  content_length_header : option Z;
  expecting_trailers : pyval;
  duration_attrs : dict pyval
}.

(** ** The state-and-exception monad *)

Definition M (A : Type) : Type := state -> state * outcome A.

Definition ret {A} (a : A) : M A := fun st => (st, Ok a).

Definition raise {A} (e : exn) : M A := fun st => (st, Raise e).

Definition bind {A B} (m : M A) (k : A -> M B) : M B :=
  fun st =>
    match m st with
    | (st', Ok a) => k a st'
    | (st', Raise e) => (st', Raise e)
    end.

Definition lift {A} (r : outcome A) : M A := fun st => (st, r).

Notation "'let!' x := c 'in' k" := (bind c (fun x => k))
  (at level 10, x pattern, c at level 100, k at level 200, only parsing).

Notation "'let?' x := c 'in' k" := (obind c (fun x => k))
  (at level 10, x pattern, c at level 100, k at level 200, only parsing).

Definition when (b : bool) (m : M unit) : M unit := if b then m else ret tt.

(** [try: body finally: cleanup].  The cleanup always runs; an exception it
    raises replaces the outcome of the body. *)
Definition try_finally {A} (body : M A) (cleanup : M unit) : M A :=
  fun st =>
    match body st with
    | (st1, r) =>
      match cleanup st1 with
      | (st2, Ok _) => (st2, r)
      | (st2, Raise e) => (st2, Raise e)
      end
    end.

(** [try: body except BaseException as e: handler(e); raise]. *)
Definition on_exception {A} (body : M A) (handler : exn -> M unit) : M A :=
  fun st =>
    match body st with
    | (st1, Ok a) => (st1, Ok a)
    | (st1, Raise e) =>
      match handler e st1 with
      | (st2, Ok _) => (st2, Raise e)
      | (st2, Raise e') => (st2, Raise e')
      end
    end.

Definition emit (e : event) : M unit :=
  fun st =>
    ({| log := e :: log st; spans := spans st;
        content_length_header := content_length_header st;
        expecting_trailers := expecting_trailers st;
        duration_attrs := duration_attrs st |}, Ok tt).

Definition set_spans (l : list span) (st : state) : state :=
  {| log := log st; spans := l;
     content_length_header := content_length_header st;
     expecting_trailers := expecting_trailers st;
     duration_attrs := duration_attrs st |}.

Definition set_content_length_header (v : option Z) : M unit :=
  fun st =>
    ({| log := log st; spans := spans st;
        content_length_header := v;
        expecting_trailers := expecting_trailers st;
        duration_attrs := duration_attrs st |}, Ok tt).

Definition set_expecting_trailers (v : pyval) : M unit :=
  fun st =>
    ({| log := log st; spans := spans st;
        content_length_header := content_length_header st;
        expecting_trailers := v;
        duration_attrs := duration_attrs st |}, Ok tt).

Definition set_duration_attrs (d : dict pyval) : M unit :=
  fun st =>
    ({| log := log st; spans := spans st;
        content_length_header := content_length_header st;
        expecting_trailers := expecting_trailers st;
        duration_attrs := d |}, Ok tt).

Definition read {A} (f : state -> A) : M A := fun st => (st, Ok (f st)).

(** *** Spans, as the tracing library keeps them *)

Definition recording_at (sid : nat) (st : state) : bool :=
  match spans st !! sid with
  | Some sp => is_recording sp
  | None => false
  end.

Definition kind_at (sid : nat) (st : state) : SpanKind :=
  match spans st !! sid with
  | Some sp => sp_kind sp
  | None => INTERNAL
  end.

(** [tracer.start_span]: the new span's id is its index in [spans]. *)
Definition start_span (name : string) (kind : SpanKind) (attributes : dict pyval)
    (sampled : bool) : M nat :=
  fun st =>
    let sid := length (spans st) in
    let sp := {| sp_kind := kind; sp_sampled := sampled; sp_ended := false |} in
    (fst (emit (EvStartSpan sid name kind attributes sampled)
               (set_spans (spans st ++ [sp])%list st)), Ok sid).

(** [span.end()].  The event records whether the span was still recording,
    that is, whether this call is the one that ends it. *)
Definition span_end (sid : nat) : M unit :=
  fun st =>
    let ended sp := {| sp_kind := sp_kind sp; sp_sampled := sp_sampled sp;
                       sp_ended := true |} in
    emit (EvEndSpan sid (recording_at sid st))
         (set_spans (alter ended sid (spans st)) st).

(** *** Clock readings *)

(** What [default_timer()] may return: a float of the format that is zero
    or finite, and below [2 ^ 1000] in magnitude.  A clock gives seconds
    counted from some start; the bound leaves out only readings so large
    that the elapsed milliseconds could overflow to an infinity, which
    [round] does not take. *)
Definition is_reading (x : float) : bool :=
  match x with
  | S754_zero _ => true
  | S754_finite _ m e => bounded 53 1024 m e && (Zpos (digits2_pos m) + e <=? 1000)
  | _ => false
  end.

Record reading : Type := {
  seconds : float;
  reading_ok : is_reading seconds = true
}.

(** The reading [0.0]. *)
Definition epoch : reading := {| seconds := S754_zero false; reading_ok := eq_refl |}.

(** A float as a reading; one that no clock returns counts as [0.0]. *)
Definition as_reading (x : float) : reading :=
  match is_reading x as b return is_reading x = b -> reading with
  | true => fun H => {| seconds := x; reading_ok := H |}
  | false => fun _ => epoch
  end eq_refl.

(** ** Collaborators *)

(** Helpers of [opentelemetry.util.http] and
    [opentelemetry.instrumentation.utils] whose code is outside this module.
    Nothing is assumed about them. *)
Record util : Type := {
  remove_url_credentials : string -> string;
  http_status_to_status_code : Z -> StatusCode;
  _parse_duration_attrs : dict pyval -> dict pyval;
  _parse_active_request_count_attrs : dict pyval -> dict pyval;
  (** whether a header name matches a pattern, case-insensitively *)
  re_match : string -> string -> bool
}.

(** The arguments of [OpenTelemetryMiddleware.__init__].  A hook is modelled
    by whether it returns or raises; a header list that is [None] is the
    empty list. *)
Record config : Type := {
  excluded_urls : option (string -> bool);
  default_span_details : scope -> string * dict pyval;
  server_request_hook : option (scope -> option exn);
  client_request_hook : option (scope -> option exn);
  client_response_hook : option (message -> option exn);
  http_capture_headers_server_request : list string;
  http_capture_headers_server_response : list string;
  http_capture_headers_sanitize_fields : list string
}.

(** What the surroundings decide during one invocation. *)
Record env : Type := {
  (** [trace.get_current_span()] is a valid span on entry *)
  ambient_span : bool;
  (** header names the global propagator reads when extracting *)
  extract_fields : list string;
  (** the sampler's decision for the span with a given id *)
  sampled : nat -> bool;
  (** the global response propagator: the fields it injects for a server span *)
  response_propagator : option (nat -> list (string * string));
  (** [default_timer()], in seconds, by the number of events so far *)
  timer : nat -> reading;
  (** the transport's [send] and [receive], by the number of events so far *)
  transport_send : nat -> message -> option exn;
  transport_receive : nat -> outcome message
}.

(** The wrapped application, as the calls it makes on the [receive] and
    [send] it was given; it sees how each call ends and may handle a failure. *)
Inductive app : Type :=
| AppReturn
| AppRaise (e : exn)
| AppSend (m : message) (k : outcome unit -> app)
| AppReceive (k : outcome message -> app).

(** ** Header accessor *)

Module ASGIGetter.

(** The list comprehension of [get]: the decoded values of the headers whose
    decoded, lower-cased name is [key]. *)
Fixpoint decoded (key : string) (hs : headers) : outcome (list string) :=
  match hs with
  | [] => Ok []
  | (_key, _value) :: rest =>
    let? name := decode _key in
    if String.eqb (lower name) key
    then let? value := decode _value in
         let? more := decoded key rest in
         Ok (value :: more)
    else decoded key rest
  end.

Definition get (carrier_headers : option headers) (key : string)
  : outcome (option (list string)) :=
  match carrier_headers with
  | None | Some [] => Ok None
  | Some hs =>
    let? values := decoded (lower key) hs in
    Ok (match values with [] => None | _ => Some values end)
  end.

Fixpoint decode_all (hs : headers) : outcome (list string) :=
  match hs with
  | [] => Ok []
  | (_key, _) :: rest =>
    let? name := decode _key in
    let? more := decode_all rest in
    Ok (name :: more)
  end.

Definition keys (carrier_headers : option headers) : outcome (list string) :=
  decode_all (default [] carrier_headers).

End ASGIGetter.

Module ASGISetter.

Definition set (carrier : message) (key value : string) : message :=
  let hs := default [] (msg_headers carrier) in
  {| msg_type := msg_type carrier; msg_status := msg_status carrier;
     msg_headers := Some (hs ++ [(lower key, value)])%list;
     msg_trailers := msg_trailers carrier; msg_more_body := msg_more_body carrier;
     msg_more_trailers := msg_more_trailers carrier |}.

End ASGISetter.

(** ** Request attribute collector *)

Definition of_text (o : option string) : pyval :=
  match o with
  | Some s => VStr s
  | None => VNone
  end.

Definition of_port (o : option Z) : pyval :=
  match o with
  | Some z => VInt z
  | None => VNone
  end.

(** [str(port)]. *)
Definition str_of_port (port : option Z) : string :=
  match port with
  | Some z => str_of_int z
  | None => "None"
  end.

(** Returns (host, port, full_url) tuple. *)
Definition get_host_port_url_tuple (sc : scope) : string * option Z * string :=
  let server := default ("0.0.0.0", Some 80) (sc_server sc) in
  let port := server.2 in
  let server_host :=
    server.1 ++ (if negb (String.eqb (str_of_port port) "80")
                 then ":" ++ str_of_port port else "") in
  let full_path := default "" (sc_root_path sc) ++ default "" (sc_path sc) in
  let http_url := default "http" (sc_scheme sc) ++ "://" ++ server_host ++ full_path in
  (server_host, port, http_url).

(** The URL [collect_request_attributes] derives: the one of
    [get_host_port_url_tuple], with the query string when there is one. *)
Definition request_url (sc : scope) : outcome string :=
  let '(_, _, http_url) := get_host_port_url_tuple sc in
  match sc_query_string sc with
  | Some query_string =>
    if truthy query_string && nonempty http_url
    then
      let? query_string :=
        match query_string with
        | VBytes b => decode b
        | VStr s => Ok s
        | _ => Raise TypeError
        end in
      Ok (http_url ++ "?" ++ unquote query_string)
    else Ok http_url
  | None => Ok http_url
  end.

Definition remove_none (d : dict pyval) : dict pyval :=
  List.filter (fun kv => match kv.2 with VNone => false | _ => true end) d.

Section Collectors.
Context (U : util).

(** Collects HTTP request attributes from the ASGI scope. *)
Definition collect_request_attributes (sc : scope) : outcome (dict pyval) :=
  let '(server_host, port, _) := get_host_port_url_tuple sc in
  let? http_url := request_url sc in
  let result :=
    [ ("http.scheme", of_text (sc_scheme sc));
      ("http.host", VStr server_host);
      ("net.host.port", of_port port);
      ("http.flavor", of_text (sc_http_version sc));
      ("http.target", of_text (sc_path sc));
      ("http.url", VStr (remove_url_credentials U http_url)) ] in
  let result :=
    match sc_method sc with
    | Some http_method =>
      if nonempty http_method then dict_set "http.method" (VStr http_method) result
      else result
    | None => result
    end in
  let? http_host_value_list := ASGIGetter.get (sc_headers sc) "host" in
  let result :=
    match http_host_value_list with
    | Some l => dict_set "http.server_name" (VStr (join "," l)) result
    | None => result
    end in
  let? http_user_agent := ASGIGetter.get (sc_headers sc) "user-agent" in
  let result :=
    match http_user_agent with
    | Some (first :: _) => dict_set "http.user_agent" (VStr first) result
    | _ => result
    end in
  let result :=
    match sc_client sc with
    | Some (ip, peer_port) =>
      dict_set "net.peer.port" (VInt peer_port)
        (dict_set "net.peer.ip" (VStr ip) result)
    | None => result
    end in
  Ok (remove_none result).

(** The decode-and-join pass of [collect_custom_headers_attributes]: one
    entry per lower-cased name, repeated headers joined with a comma. *)
Fixpoint decode_and_join (raw_headers : headers) (hs : dict string)
  : outcome (dict string) :=
  match raw_headers with
  | [] => Ok hs
  | (_key, _value) :: rest =>
    let? key := decode _key in
    let key := lower key in
    let? value := decode _value in
    decode_and_join rest
      (match dict_get key hs with
       | Some joined => dict_set key (joined ++ "," ++ value) hs
       | None => dict_set key value hs
       end)
  end.

(** Modelled from the spec: [SanitizeValue.sanitize_header_values], whose
    code is not in this module.  It keeps the names matching one of the
    allowed patterns, replaces the value by the redaction marker when the
    name matches one of the sanitize patterns, renames each key that is left,
    and returns the empty map when there is no allowed pattern. *)
Definition sanitize_header_values (sanitize_fields : list string)
    (hs : dict string) (header_regexes : list string)
    (normalize_names : string -> string) : dict string :=
  match header_regexes with
  | [] => []
  | _ =>
    map (fun kv =>
           (normalize_names kv.1,
            if existsb (fun p => re_match U p kv.1) sanitize_fields
            then "[REDACTED]" else kv.2))
        (List.filter (fun kv => existsb (fun p => re_match U p kv.1) header_regexes) hs)
  end.

(** Returns custom HTTP request or response headers to be added into SERVER
    span as span attributes. *)
Definition collect_custom_headers_attributes (raw_headers : option headers)
    (sanitize : list string) (header_regexes : list string)
    (normalize_names : string -> string) : outcome (dict string) :=
  let? hs :=
    match raw_headers with
    | None | Some [] => Ok []
    | Some raw => decode_and_join raw []
    end in
  Ok (sanitize_header_values sanitize hs header_regexes normalize_names).

Fixpoint replace_char (a b : ascii) (s : string) : string :=
  match s with
  | "" => ""
  | String c r => String (if Ascii.eqb c a then b else c) (replace_char a b r)
  end.

(** Modelled from the spec: the two name normalisers, which lower-case the
    name, turn [-] into [_] and add the request or response prefix. *)
Definition normalise_request_header_name (name : string) : string :=
  "http.request.header." ++ replace_char "-" "_" (lower name).

Definition normalise_response_header_name (name : string) : string :=
  "http.response.header." ++ replace_char "-" "_" (lower name).

(** Default span name is the HTTP method and URL path, or just the method. *)
Definition get_default_span_details (sc : scope) : string * dict pyval :=
  let path := strip (default "" (sc_path sc)) in
  let method := strip (default "" (sc_method sc)) in
  if nonempty method && nonempty path then (method ++ " " ++ path, [])
  else if nonempty path then (path, [])
  else (method, []).

(** Returns the target path as defined by the Semantic Conventions. *)
Definition _collect_target_attribute (sc : scope) : option string :=
  let root_path := default "" (sc_root_path sc) in
  match sc_route_path_format sc with
  | Some path_format =>
    if nonempty path_format then Some (root_path ++ path_format) else None
  | None => None
  end.

(** Adds HTTP response attributes to span using the status_code argument. *)
Definition set_status_code (sp : nat) (status_code : pyval) : M unit :=
  let! recording := read (recording_at sp) in
  if negb recording then ret tt
  else
    match int status_code with
    | Raise e =>
      if is_ValueError e
      then emit (EvSetStatus sp ERROR
                   (Some ("Non-integer HTTP status: " ++ repr status_code)))
      else raise e
    | Ok code =>
      let! _ := emit (EvSetAttribute sp "http.status_code" (VInt code)) in
      emit (EvSetStatus sp (http_status_to_status_code U code) None)
    end.

End Collectors.

(** ** Tracing API *)

(** The text [use_span] gives the status of a span an exception went
    through: the exception's class name. *)
Definition exn_name (e : exn) : string :=
  match e with
  | UnicodeDecodeError => "UnicodeDecodeError"
  | ValueError => "ValueError"
  | TypeError => "TypeError"
  | OverflowError => "OverflowError"
  | KeyError _ => "KeyError"
  | Failure _ => "Exception"
  end.

(** [with trace.use_span(span, end_on_exit)]: the span is made current for
    the body; an exception leaving the body is recorded on a span that is
    still recording and raised again; the span is ended on exit when asked. *)
Definition use_span {A} (sp : nat) (end_on_exit : bool) (body : M A) : M A :=
  try_finally
    (on_exception
       (let! _ := emit (EvAttach (TokSpan sp)) in
        try_finally body (emit (EvDetach (TokSpan sp))))
       (fun e =>
          let! recording := read (recording_at sp) in
          when recording
            (let! _ := emit (EvRecordException sp e) in
             emit (EvSetStatus sp ERROR (Some (exn_name e))))))
    (when end_on_exit (span_end sp)).

Section Middleware.
Context (U : util) (self : config) (E : env).

(** [tracer.start_as_current_span(name)]: a new INTERNAL span, current for
    the body and ended on exit. *)
Definition start_child (name : string) : M nat :=
  let! sampled := read (fun st => sampled E (length (spans st))) in
  start_span name INTERNAL [] sampled.

Definition start_as_current_span {A} (name : string) (body : nat -> M A) : M A :=
  let! sp := start_child name in
  use_span sp true (body sp).

Fixpoint extract (fields : list string) (carrier : option headers) : outcome unit :=
  match fields with
  | [] => Ok tt
  | f :: rest =>
    let? _ := ASGIGetter.get carrier f in
    extract rest carrier
  end.

(** Modelled from the spec: [_start_internal_or_server_span], whose code is
    not in this module.  Without an active span the request context is
    extracted from the carrier and attached, which yields the token, and the
    span is of kind SERVER; under an active span the span is INTERNAL and
    there is no token. *)
Definition _start_internal_or_server_span (span_name : string)
    (context_carrier : scope) (attributes : dict pyval)
  : M (nat * option token) :=
  let! sp := read (fun st => length (spans st)) in
  let! sampled := read (fun _ => sampled E sp) in
  if ambient_span E
  then
    let! sp := start_span span_name INTERNAL attributes sampled in
    ret (sp, None)
  else
    let! _ := lift (extract (extract_fields E) (sc_headers context_carrier)) in
    let! _ := emit (EvAttach (TokCarrier sp)) in
    let! sp := start_span span_name SERVER attributes sampled in
    ret (sp, Some (TokCarrier sp)).

(** The transport's own [receive] and [send]. *)
Definition receive : M message :=
  let! n := read (fun st => length (log st)) in
  let! _ := emit EvReceive in
  lift (transport_receive E n).

Definition send (m : message) : M unit :=
  let! n := read (fun st => length (log st)) in
  let! _ := emit (EvSend m) in
  match transport_send E n m with
  | None => ret tt
  | Some e => raise e
  end.

(** [if callable(hook): hook(span, x)]. *)
Definition call_hook {X} (name : hook_name) (hook : option (X -> option exn)) (x : X)
  : M unit :=
  match hook with
  | None => ret tt
  | Some f =>
    let! _ := emit (EvHook name) in
    match f x with
    | None => ret tt
    | Some e => raise e
    end
  end.

(** [message.get(key, False)]. *)
Definition get_flag (field : option pyval) : pyval := default (VBool false) field.

(** [propagator.inject(message, context, setter=asgi_setter)]. *)
Definition inject (fields : list (string * string)) (m : message) : message :=
  fold_left (fun carrier kv => ASGISetter.set carrier kv.1 kv.2) fields m.

(** The [try: int(values[0]) except ValueError: pass else: use(...)] of the
    two content-length readers. *)
Definition with_content_length (values : option (list string)) (use : Z -> M unit)
  : M unit :=
  match values with
  | Some (first :: _) =>
    match int (VStr first) with
    | Ok n => use n
    | Raise e => if is_ValueError e then ret tt else raise e
    end
  | _ => ret tt
  end.

Definition otel_receive (server_span_name : string) (sc : scope)
    (receive : M message) : M message :=
  start_as_current_span (join " " [server_span_name; sc_type sc; "receive"])
    (fun receive_span =>
       let! _ := call_hook ClientRequest (client_request_hook self) sc in
       let! message := receive in
       let! recording := read (recording_at receive_span) in
       let! _ :=
         when recording
           (let! _ := when (String.eqb (msg_type message) "websocket.receive")
                        (set_status_code U receive_span (VInt 200)) in
            emit (EvSetAttribute receive_span "asgi.event.type"
                    (VStr (msg_type message)))) in
       ret message).

(** [collect_custom_headers_attributes(...) if patterns else {}], the
    expression at both places that capture headers. *)
Definition capture (raw_headers : option headers) (patterns : list string)
    (normalize_names : string -> string) : M (dict string) :=
  match patterns with
  | [] => ret []
  | _ =>
    lift (collect_custom_headers_attributes U raw_headers
            (http_capture_headers_sanitize_fields self) patterns normalize_names)
  end.

(** The termination test of [otel_send], on the flag as it stands after the
    message was inspected. *)
Definition is_final (expecting_trailers : pyval) (m : message) : bool :=
  (negb (truthy expecting_trailers)
   && String.eqb (msg_type m) "http.response.body"
   && negb (truthy (get_flag (msg_more_body m))))
  || (truthy expecting_trailers
      && String.eqb (msg_type m) "http.response.trailers"
      && negb (truthy (get_flag (msg_more_trailers m)))).

(** The inspection of the outgoing message under a recording send span. *)
Definition inspect (server_span send_span : nat) (message : message) : M unit :=
  let! _ :=
    if String.eqb (msg_type message) "http.response.start"
    then
      let! status_code :=
        match msg_status message with
        | Some v => ret v
        | None => raise (KeyError "status")
        end in
      let! attrs := read duration_attrs in
      let! _ := set_duration_attrs (dict_set "http.status_code" status_code attrs) in
      let! _ := set_status_code U server_span status_code in
      let! _ := set_status_code U send_span status_code in
      set_expecting_trailers (get_flag (msg_trailers message))
    else if String.eqb (msg_type message) "websocket.send"
    then
      let! _ := set_status_code U server_span (VInt 200) in
      set_status_code U send_span (VInt 200)
    else ret tt in
  let! _ := emit (EvSetAttribute send_span "asgi.event.type" (VStr (msg_type message))) in
  let! server_recording := read (recording_at server_span) in
  let! server_kind := read (kind_at server_span) in
  match server_recording, server_kind, msg_headers message with
  | true, SERVER, Some _ =>
    let! custom_response_attributes :=
      capture (msg_headers message) (http_capture_headers_server_response self)
        normalise_response_header_name in
    match custom_response_attributes with
    | [] => ret tt
    | _ => emit (EvSetAttributes server_span custom_response_attributes)
    end
  | _, _, _ => ret tt
  end.

(** The message as the response propagator leaves it. *)
Definition propagated (server_span : nat) (m : message) : message :=
  match response_propagator E with
  | Some fields => inject (fields server_span) m
  | None => m
  end.

(** What [otel_send] does while its send span is current; the result is the
    message as it was passed on. *)
Definition otel_send_block (server_span : nat) (send : message -> M unit)
    (m : message) (send_span : nat) : M message :=
  let! _ := call_hook ClientResponse (client_response_hook self) m in
  let! recording := read (recording_at send_span) in
  let! _ := when recording (inspect server_span send_span m) in
  let message := propagated server_span m in
  let! content_length :=
    lift (ASGIGetter.get (msg_headers message) "content-length") in
  let! _ :=
    with_content_length content_length
      (fun n => set_content_length_header (Some n)) in
  let! _ := send message in
  ret message.

Definition otel_send (server_span : nat) (server_span_name : string) (sc : scope)
    (send : message -> M unit) (message : message) : M unit :=
  let! message :=
    start_as_current_span (join " " [server_span_name; sc_type sc; "send"])
      (otel_send_block server_span send message) in
  let! expecting_trailers := read expecting_trailers in
  when (is_final expecting_trailers message) (span_end server_span).

(** [_get_otel_send]: a fresh [expecting_trailers] for the wrapper it
    returns. *)
Definition _get_otel_send (server_span : nat) (server_span_name : string)
    (sc : scope) (send : message -> M unit) : M (message -> M unit) :=
  let! _ := set_expecting_trailers (VBool false) in
  ret (otel_send server_span server_span_name sc send).

Definition _get_otel_receive (server_span_name : string) (sc : scope)
    (receive : M message) : M message :=
  otel_receive server_span_name sc receive.

(** [await self.app(scope, receive, send)]. *)
Fixpoint run_app (a : app) (receive : M message) (send : message -> M unit)
  : M unit :=
  match a with
  | AppReturn => ret tt
  | AppRaise e => raise e
  | AppSend m k =>
    fun st => let '(st', r) := send m st in run_app (k r) receive send st'
  | AppReceive k =>
    fun st => let '(st', r) := receive st in run_app (k r) receive send st'
  end.

Definition supported (sc : scope) : bool :=
  String.eqb (sc_type sc) "http" || String.eqb (sc_type sc) "websocket".

Definition is_http (sc : scope) : bool := String.eqb (sc_type sc) "http".

Definition url_disabled (sc : scope) : bool :=
  match excluded_urls self with
  | Some disabled => disabled (get_host_port_url_tuple sc).2
  | None => false
  end.

(** What [__call__] holds once the server span exists. *)
Record request : Type := {
  rq_start : reading;
  rq_span_name : string;
  rq_attributes : dict pyval;
  rq_span : nat;
  rq_token : option token;
  rq_active_requests_count_attrs : dict pyval
}.

(** [__call__] from the span name to the increment of the active-request
    counter (the statements before [try]). *)
Definition enter (start : reading) (sc : scope) : M request :=
  let '(span_name, additional_attributes) := default_span_details self sc in
  let! attributes := lift (collect_request_attributes U sc) in
  let attributes := dict_update attributes additional_attributes in
  let! (sp, tok) := _start_internal_or_server_span span_name sc attributes in
  let active_requests_count_attrs := _parse_active_request_count_attrs U attributes in
  let! _ := set_duration_attrs (_parse_duration_attrs U attributes) in
  let! _ := when (is_http sc) (emit (EvCounterAdd 1 active_requests_count_attrs)) in
  ret {| rq_start := start; rq_span_name := span_name; rq_attributes := attributes;
         rq_span := sp; rq_token := tok;
         rq_active_requests_count_attrs := active_requests_count_attrs |}.

Fixpoint set_each (sp : nat) (attributes : dict pyval) : M unit :=
  match attributes with
  | [] => ret tt
  | (key, value) :: rest =>
    let! _ := emit (EvSetAttribute sp key value) in
    set_each sp rest
  end.

(** The body of [try]: the server span is current while the application
    runs on the wrapped [receive] and [send]. *)
Definition serve (rq : request) (sc : scope) (a : app) : M unit :=
  let current_span := rq_span rq in
  use_span current_span false
    (let! recording := read (recording_at current_span) in
     let! _ :=
       when recording
         (let! _ := set_each current_span (rq_attributes rq) in
          let! kind := read (kind_at current_span) in
          match kind with
          | SERVER =>
            let! custom_attributes :=
              capture (sc_headers sc) (http_capture_headers_server_request self)
                normalise_request_header_name in
            match custom_attributes with
            | [] => ret tt
            | _ => emit (EvSetAttributes current_span custom_attributes)
            end
          | INTERNAL => ret tt
          end) in
     let! _ := call_hook ServerRequest (server_request_hook self) sc in
     let otel_receive := _get_otel_receive (rq_span_name rq) sc receive in
     let! otel_send := _get_otel_send current_span (rq_span_name rq) sc send in
     run_app a otel_receive otel_send).

(** [max(round((stop - start) * 1000), 0)], for the readings [start] and
    [stop] of the timer. *)
Definition duration (start stop : reading) : outcome Z :=
  let? elapsed := round (fmul (fsub (seconds stop) (seconds start)) thousand) in
  Ok (Z.max elapsed 0).

(** The metrics of the [finally] block, recorded for an [http] scope. *)
Definition record_metrics (rq : request) (sc : scope) : M unit :=
  let! _ :=
    match _collect_target_attribute sc with
    | Some target =>
      let! attrs := read duration_attrs in
      set_duration_attrs (dict_set "http.target" (VStr target) attrs)
    | None => ret tt
    end in
  let! stop := read (fun st => timer E (length (log st))) in
  let! duration := lift (duration (rq_start rq) stop) in
  let! attrs := read duration_attrs in
  let! _ := emit (EvRecord duration_histogram duration attrs) in
  let! _ := emit (EvCounterAdd (-1) (rq_active_requests_count_attrs rq)) in
  let! cached := read content_length_header in
  let! _ :=
    match cached with
    | Some n =>
      when (truthy (VInt n)) (emit (EvRecord server_response_size_histogram n attrs))
    | None => ret tt
    end in
  let! request_size := lift (ASGIGetter.get (sc_headers sc) "content-length") in
  with_content_length request_size
    (fun request_size_amount =>
       emit (EvRecord server_request_size_histogram request_size_amount attrs)).

(** The end of the [finally] block: the context is detached, and the span
    is ended if it still records. *)
Definition release (rq : request) : M unit :=
  let! _ :=
    match rq_token rq with
    | Some tok => emit (EvDetach tok)
    | None => ret tt
    end in
  let! recording := read (recording_at (rq_span rq)) in
  when recording (span_end (rq_span rq)).

(** The [finally] block of [__call__]. *)
Definition cleanup (rq : request) (sc : scope) : M unit :=
  let! _ := when (is_http sc) (record_metrics rq sc) in
  release rq.

(** [OpenTelemetryMiddleware.__call__(scope, receive, send)] around the
    application [a]. *)
Definition __call__ (sc : scope) (a : app) : M unit :=
  let! start := read (fun st => timer E (length (log st))) in
  if negb (supported sc) then run_app a receive send
  else if url_disabled sc then run_app a receive send
  else
    let! rq := enter start sc in
    try_finally (serve rq sc a) (cleanup rq sc).

End Middleware.

(** ** Concrete collaborators, for running the model *)

Module Sample.

Definition keep (names : list string) (d : dict pyval) : dict pyval :=
  List.filter (fun kv => existsb (String.eqb kv.1) names) d.

(** The helpers as the package has them today, with patterns read as
    literal names. *)
Definition U : util :=
  {| remove_url_credentials := fun url => url;
     http_status_to_status_code := fun code =>
       if (code <? 100) then ERROR
       else if (code <=? 499) then UNSET
       else ERROR;
     _parse_duration_attrs :=
       keep ["http.method"; "http.host"; "http.scheme"; "http.status_code";
             "http.flavor"; "http.server_name"; "net.host.name"; "net.host.port"];
     _parse_active_request_count_attrs :=
       keep ["http.method"; "http.host"; "http.scheme"; "http.flavor";
             "http.server_name"];
     re_match := fun pattern name => String.eqb (lower pattern) (lower name) |}.

(** A middleware built with [OpenTelemetryMiddleware(app)]. *)
Definition self : config :=
  {| excluded_urls := None;
     default_span_details := get_default_span_details;
     server_request_hook := None;
     client_request_hook := None;
     client_response_hook := None;
     http_capture_headers_server_request := [];
     http_capture_headers_server_response := [];
     http_capture_headers_sanitize_fields := [] |}.

Definition body_event : message :=
  {| msg_type := "http.response.body"; msg_status := None; msg_headers := None;
     msg_trailers := None; msg_more_body := None; msg_more_trailers := None |}.

Definition start_event (status : pyval) (hs : headers) (trailers : option pyval)
  : message :=
  {| msg_type := "http.response.start"; msg_status := Some status;
     msg_headers := Some hs; msg_trailers := trailers;
     msg_more_body := None; msg_more_trailers := None |}.

Definition trailers_event : message :=
  {| msg_type := "http.response.trailers"; msg_status := None;
     msg_headers := Some []; msg_trailers := None; msg_more_body := None;
     msg_more_trailers := None |}.

Definition request_event : message :=
  {| msg_type := "http.request"; msg_status := None; msg_headers := None;
     msg_trailers := None; msg_more_body := None; msg_more_trailers := None |}.

(** A clock that advances by [2 ^ -10] second, a little less than a
    millisecond, per event. *)
Definition ticks (n : nat) : reading :=
  as_reading (binary_normalize 53 1024 (Z.of_nat n) (-10) false).

(** No active span on entry, every span sampled, no response propagator, a
    clock that advances with every event, a transport that never fails. *)
Definition E : env :=
  {| ambient_span := false;
     extract_fields := ["traceparent"; "tracestate"];
     sampled := fun _ => true;
     response_propagator := None;
     timer := ticks;
     transport_send := fun _ _ => None;
     transport_receive := fun _ => Ok request_event |}.

(** The same surroundings under another sampler. *)
Definition E_sampling (decide : nat -> bool) : env :=
  {| ambient_span := false;
     extract_fields := ["traceparent"; "tracestate"];
     sampled := decide;
     response_propagator := None;
     timer := ticks;
     transport_send := fun _ _ => None;
     transport_receive := fun _ => Ok request_event |}.

(** The same middleware with every URL excluded. *)
Definition self_excluding : config :=
  {| excluded_urls := Some (fun _ => true);
     default_span_details := get_default_span_details;
     server_request_hook := None;
     client_request_hook := None;
     client_response_hook := None;
     http_capture_headers_server_request := [];
     http_capture_headers_server_response := [];
     http_capture_headers_sanitize_fields := [] |}.

Definition websocket_scope (path : string) : scope :=
  {| sc_type := "websocket"; sc_scheme := Some "ws";
     sc_server := Some ("example.com", Some 80);
     sc_root_path := None; sc_path := Some path; sc_query_string := None;
     sc_http_version := Some "1.1"; sc_method := None;
     sc_headers := Some []; sc_client := None; sc_route_path_format := None |}.

Definition http_scope (path : string) (hs : headers) : scope :=
  {| sc_type := "http"; sc_scheme := Some "http";
     sc_server := Some ("example.com", Some 80);
     sc_root_path := None; sc_path := Some path; sc_query_string := None;
     sc_http_version := Some "1.1"; sc_method := Some "GET";
     sc_headers := Some hs; sc_client := None; sc_route_path_format := None |}.

(** A fresh process: nothing recorded, a new middleware instance. *)
Definition initial : state :=
  {| log := []; spans := []; content_length_header := None;
     expecting_trailers := VBool false; duration_attrs := [] |}.

(** An application that answers 200 with one body chunk. *)
Definition plain_app (hs : headers) : app :=
  AppSend (start_event (VInt 200) hs None) (fun _ =>
  AppSend body_event (fun _ => AppReturn)).

(** An application that sends a last body chunk twice. *)
Definition repeating_app : app :=
  AppSend (start_event (VInt 200) [] None) (fun _ =>
  AppSend body_event (fun _ =>
  AppSend body_event (fun _ => AppReturn))).

(** An application that announces trailers, then sends one body chunk. *)
Definition announcing_app : app :=
  AppSend (start_event (VInt 200) [] (Some (VBool true))) (fun _ =>
  AppSend body_event (fun _ => AppReturn)).

End Sample.

(** ** Observations on a run *)

(** How many events of a log pass a test. *)
Definition count (q : event -> bool) (l : list event) : nat :=
  length (List.filter q l).

(** A call of [end()] on the span [sp]. *)
Definition is_end (sp : nat) (e : event) : bool :=
  match e with
  | EvEndSpan s _ => Nat.eqb s sp
  | _ => false
  end.

(** A call of [end()] that ends [sp]: the span was still recording. *)
Definition is_effective_end (sp : nat) (e : event) : bool :=
  match e with
  | EvEndSpan s true => Nat.eqb s sp
  | _ => false
  end.

(** A call of [end()] on [sp] once it no longer records. *)
Definition is_idle_end (sp : nat) (e : event) : bool :=
  match e with
  | EvEndSpan s false => Nat.eqb s sp
  | _ => false
  end.

Definition is_start (sp : nat) (e : event) : bool :=
  match e with
  | EvStartSpan s _ _ _ _ => Nat.eqb s sp
  | _ => false
  end.

Definition is_any_start (e : event) : bool :=
  match e with
  | EvStartSpan _ _ _ _ _ => true
  | _ => false
  end.

Definition is_duration_record (e : event) : bool :=
  match e with
  | EvRecord duration_histogram _ _ => true
  | _ => false
  end.

Definition is_response_size_record (e : event) : bool :=
  match e with
  | EvRecord server_response_size_histogram _ _ => true
  | _ => false
  end.

Definition is_increment (e : event) : bool :=
  match e with
  | EvCounterAdd amount _ => amount =? 1
  | _ => false
  end.

Definition is_decrement (e : event) : bool :=
  match e with
  | EvCounterAdd amount _ => amount =? -1
  | _ => false
  end.

(** The request context is detached. *)
Definition is_carrier_detach (e : event) : bool :=
  match e with
  | EvDetach (TokCarrier _) => true
  | _ => false
  end.

(** Calls on the transport. *)
Definition is_transport (e : event) : bool :=
  match e with
  | EvReceive | EvSend _ => true
  | _ => false
  end.

(** Calls on a metric instrument or on the request context: what only
    [__call__] itself does, before and after the application runs. *)
Definition is_outer (e : event) : bool :=
  match e with
  | EvCounterAdd _ _ | EvRecord _ _ _ => true
  | EvAttach (TokCarrier _) | EvDetach (TokCarrier _) => true
  | _ => false
  end.

(** What the wrappers and the tracing API do to a span's attributes and
    status, to the current-span stack, to the hooks and to the transport. *)
Definition is_inner (e : event) : bool :=
  match e with
  | EvSetAttribute _ _ _ | EvSetAttributes _ _ | EvSetStatus _ _ _
  | EvRecordException _ _ | EvHook _ | EvReceive | EvSend _ => true
  | EvAttach (TokSpan _) | EvDetach (TokSpan _) => true
  | _ => false
  end.

(** The state with more events logged, newest first. *)
Definition logged (new : list event) (st : state) : state :=
  {| log := (new ++ log st)%list; spans := spans st;
     content_length_header := content_length_header st;
     expecting_trailers := expecting_trailers st;
     duration_attrs := duration_attrs st |}.

(** The values [decode_and_join] folds into one entry. *)
Definition joined (values : list string) : option string :=
  match values with
  | [] => None
  | _ => Some (join "," values)
  end.

(** A byte string that is not UTF-8. *)
Definition not_utf8 : string := String (ascii_of_N 255) "".

(** The scope of the URL example. *)
Definition url_example : scope :=
  {| sc_type := "http"; sc_scheme := Some "http";
     sc_server := Some ("example.com", Some 80);
     sc_root_path := None; sc_path := Some "/a";
     sc_query_string := Some (VBytes "x=1");
     sc_http_version := None; sc_method := None; sc_headers := None;
     sc_client := None; sc_route_path_format := None |}.

(** A state whose only span, with id 0, is recording. *)
Definition one_recording_span : state :=
  {| log := [];
     spans := [{| sp_kind := SERVER; sp_sampled := true; sp_ended := false |}];
     content_length_header := None;
     expecting_trailers := VBool false; duration_attrs := [] |}.

(** ** Relations between the states of a run *)

(** Calls on metric instruments. *)
Definition is_metric (e : event) : bool :=
  match e with
  | EvCounterAdd _ _ | EvRecord _ _ _ => true
  | _ => false
  end.

(** A classifier that no event of the list passes. *)
Definition misses (q : event -> bool) (l : list event) : Prop :=
  Forall (fun e => q e = false) l.

(** Folding one more value into an entry, as the loop body does. *)
Definition fold_value (entry : option string) (value : string) : option string :=
  Some (match entry with
        | Some j => j ++ "," ++ value
        | None => value
        end).

(** [respects G R m]: from a state in [G], the run of [m] ends in [G], in a
    state related to the first by [R], however it ends. *)
Definition respects {A} (G : state -> Prop) (R : state -> state -> Prop) (m : M A)
  : Prop :=
  forall st, G st -> G (m st).1 /\ R st (m st).1.

(** [yields P m]: a value [m] returns satisfies [P]. *)
Definition yields {A} (P : A -> Prop) (m : M A) : Prop :=
  forall st st' a, m st = (st', Ok a) -> P a.

(** What a relation must satisfy for the wrappers and the whole body of
    [try] to respect it. *)
Record rely (E : env) (G : state -> Prop) (R : state -> state -> Prop) : Prop := {
  rely_refl : forall st, R st st;
  rely_trans : forall a b c, R a b -> R b c -> R a c;
  rely_emit : forall e, is_inner e = true -> respects G R (emit e);
  rely_content_length : forall v, respects G R (set_content_length_header v);
  rely_duration_attrs : forall d, respects G R (set_duration_attrs d);
  rely_flag : forall v, respects G R (set_expecting_trailers v);
  rely_start : forall name, respects G R (start_child E name);
  rely_end : forall st0, G st0 -> forall sid, (length (spans st0) <= sid)%nat ->
             respects G R (span_end sid)
}.

(** The span [sp] was started. *)
Definition exists_span (sp : nat) (st : state) : Prop := (sp < length (spans st))%nat.

(** No call of [end()] on [sp], and [sp] as it was. *)
Definition left_alone (sp : nat) (st st' : state) : Prop :=
  count (is_end sp) (log st') = count (is_end sp) (log st)
  /\ spans st' !! sp = spans st !! sp.

(** While the application runs: no metric is touched, the request context
    stays attached, no second span gets the server span's id, and the server
    span is ended by at most one call, after which it no longer records. *)
Definition served (sp : nat) (st st' : state) : Prop :=
  exists new,
    log st' = (new ++ log st)%list
    /\ Forall (fun e => is_outer e = false /\ is_start sp e = false) new
    /\ (count (is_effective_end sp) new + Nat.b2n (recording_at sp st')
        = Nat.b2n (recording_at sp st))%nat.

(** The span with id [c], if there is one, carries the sampler's decision. *)
Definition sampled_as_decided (E : env) (c : nat) (st : state) : Prop :=
  forall s, spans st !! c = Some s -> sp_sampled s = sampled E c.

(** The flag is as it was, or it was set from the message [m], a start of
    response inspected under a recording span [c]. *)
Definition flag_step (E : env) (c : nat) (m : message) (st st' : state) : Prop :=
  expecting_trailers st' = expecting_trailers st
  \/ (sampled E c = true /\ msg_type m = "http.response.start"
      /\ expecting_trailers st' = get_flag (msg_trailers m)).

(** Only calls on the transport were logged, and nothing else changed. *)
Definition only_transport (st st' : state) : Prop :=
  (exists new, log st' = (new ++ log st)%list
               /\ Forall (fun e => is_transport e = true) new)
  /\ spans st' = spans st
  /\ content_length_header st' = content_length_header st
  /\ expecting_trailers st' = expecting_trailers st
  /\ duration_attrs st' = duration_attrs st.

(** The request of an [enter] that returned. *)
Definition entered (r : outcome request) : request :=
  match r with
  | Ok rq => rq
  | Raise _ =>
    {| rq_start := epoch; rq_span_name := ""; rq_attributes := []; rq_span := 0;
       rq_token := None; rq_active_requests_count_attrs := [] |}
  end.

(** An application that starts a response and then fails. *)
Definition failing_app : app :=
  AppSend (Sample.start_event (VInt 500) [] None) (fun _ => AppRaise (Failure 7)).

(** A middleware instance serves two requests in turn.  The first response
    carries [content-length: 42]; the second carries no content length. *)
Definition after_first_request : state :=
  (__call__ Sample.U Sample.self Sample.E (Sample.http_scope "/a" [])
     (Sample.plain_app [("content-length", "42")]) Sample.initial).1.

(** The second request, served from a given state. *)
Definition second_request (st : state) : state :=
  (__call__ Sample.U Sample.self Sample.E (Sample.http_scope "/b" [])
     (Sample.plain_app []) st).1.

(** A float that is zero or finite, and below [2 ^ T] in magnitude. *)
Definition below (x : float) (T : Z) : Prop :=
  match x with
  | S754_zero _ => True
  | S754_finite _ m e => Zpos (digits2_pos m) + e <= T /\ e <= 971
  | _ => False
  end.

(** The duration recorded for the readings [start] and [stop]. *)
Definition duration_ms (start stop : reading) : Z :=
  match duration start stop with
  | Ok d => d
  | Raise _ => 0
  end.

(** The events a run added to the log, oldest first. *)
Definition added (before after : state) : list event :=
  rev (firstn (length (log after) - length (log before)) (log after)).

(** The events in front of [base] in a log that was built on it. *)
Ltac new_events :=
  lazymatch goal with
  | |- exists new, ?l = (new ++ ?base)%list /\ _ =>
    let rec front l :=
      lazymatch l with
      | base => constr:(@nil event)
      | ?e :: ?r => let p := front r in constr:(e :: p)
      end in
    let p := front l in exists p; split; [reflexivity|]
  end.

(** An implication between two classifiers, by cases on the event. *)
Ltac by_event :=
  let e := fresh "e" in
  intros e; destruct e as [| | | | | | [|] | [|] | | | | |]; simpl; intros;
  first [discriminate | reflexivity].

(** ** Further observations *)

(** A text of ASCII characters only. *)
Fixpoint ascii_text (s : string) : bool :=
  match s with
  | "" => true
  | String c r => (byte c <? 128)%N && ascii_text r
  end.

(** A byte string that is well-formed UTF-8. *)
Definition valid_text (s : string) : bool :=
  match utf8 false s with
  | Some _ => true
  | None => false
  end.

(** Whether a header is the one a key names, ASCII case apart. *)
Definition named (key : string) (kv : string * string) : bool :=
  String.eqb (lower kv.1) (lower key).

(** The values of the headers that a key names, in their order. *)
Definition values_of (key : string) (hs : headers) : list string :=
  map snd (List.filter (named key) hs).

(** A header list as a server hands it over: ASCII names, UTF-8 values. *)
Definition well_formed (hs : headers) : Prop :=
  Forall (fun kv => ascii_text kv.1 = true /\ valid_text kv.2 = true) hs.

(** The attribute names [collect_request_attributes] may produce. *)
Definition request_attribute_names : list string :=
  ["http.scheme"; "http.host"; "net.host.port"; "http.flavor"; "http.target";
   "http.url"; "http.method"; "http.server_name"; "http.user_agent";
   "net.peer.ip"; "net.peer.port"].

(** A scope one of whose headers has a name that is not UTF-8. *)
Definition bad_name_scope : scope :=
  Sample.http_scope "/a" [("host", "example.com"); (not_utf8, "x")].

(** A scope with two [Host] and two [User-Agent] headers. *)
Definition agent_scope : scope :=
  Sample.http_scope "/a"
    [("host", "example.com"); ("Host", "alias"); ("user-agent", "curl");
     ("user-agent", "other")].

(** Through the optional steps of a dictionary under construction. *)
Ltac keeps_sets tac :=
  repeat first
    [ tac
    | match goal with
      | |- context [match ?x with _ => _ end] => destruct x
      | |- context [if ?x then _ else _] => destruct x
      end ].

(** A text that does not start with white space. *)
Definition no_leading_space (s : string) : bool :=
  match s with
  | "" => true
  | String c _ => negb (is_space c)
  end.

(** A middleware whose span details name every span [request] and give the
    host attribute a value of their own. *)
Definition self_renaming : config :=
  {| excluded_urls := None;
     default_span_details := fun _ => ("request", [("http.host", VStr "internal")]);
     server_request_hook := None;
     client_request_hook := None;
     client_response_hook := None;
     http_capture_headers_server_request := [];
     http_capture_headers_server_response := [];
     http_capture_headers_sanitize_fields := [] |}.

(** A call of the transport's [send]. *)
Definition is_send (e : event) : bool :=
  match e with
  | EvSend _ => true
  | _ => false
  end.

(** A call of the transport's [receive]. *)
Definition is_receive (e : event) : bool :=
  match e with
  | EvReceive => true
  | _ => false
  end.

(** What is done to a span that exists, to the current-span stack and to
    the hooks: the inner events other than the calls on the transport. *)
Definition is_annotation (e : event) : bool :=
  is_inner e && negb (is_transport e).

(** How a block run under [start_as_current_span] is left: the span [c] is
    made not current, an exception is recorded on it when it records, and
    it is ended. *)
Definition leave_span {A} (c : nat) (st : state) (r : outcome A) : state :=
  let st := (emit (EvDetach (TokSpan c)) st).1 in
  let st :=
    match r with
    | Ok _ => st
    | Raise e =>
      if recording_at c st
      then (emit (EvSetStatus c ERROR (Some (exn_name e)))
              (emit (EvRecordException c e) st).1).1
      else st
    end in
  (span_end c st).1.

(** The state in which a block under [start_as_current_span] starts. *)
Definition enter_span (E : env) (name : string) (st : state) : state :=
  (emit (EvAttach (TokSpan (length (spans st)))) (start_child E name st).1).1.

(** What the receive wrapper does while its receive span is current. *)
Definition receive_block (U : util) (self : config) (sc : scope) (rcv : M message)
    (receive_span : nat) : M message :=
  let! _ := call_hook ClientRequest (client_request_hook self) sc in
  let! message := rcv in
  let! recording := read (recording_at receive_span) in
  let! _ :=
    when recording
      (let! _ := when (String.eqb (msg_type message) "websocket.receive")
                   (set_status_code U receive_span (VInt 200)) in
       emit (EvSetAttribute receive_span "asgi.event.type"
               (VStr (msg_type message)))) in
  ret message.

(** The first value of a header, read as a content length. *)
Definition content_length_of (values : option (list string)) : option Z :=
  match values with
  | Some (first :: _) => int_of_text first
  | _ => None
  end.

(** An [http.response.start] without a status. *)
Definition statusless_start : message :=
  {| msg_type := "http.response.start"; msg_status := None; msg_headers := Some [];
     msg_trailers := None; msg_more_body := None; msg_more_trailers := None |}.

Section Wrappers.
Context (U : util) (self : config) (E : env).

(** The first part of the send block: the hook, then the inspection of the
    message when the send span records. *)
Definition inspected (server_span : nat) (m : message) (send_span : nat) : M unit :=
  let! _ := call_hook ClientResponse (client_response_hook self) m in
  let! recording := read (recording_at send_span) in
  when recording (inspect U self server_span send_span m).

(** The second part of the send block: the message goes through the
    response propagator, its content length is cached and it is passed on. *)
Definition forwarded (server_span : nat) (send : message -> M unit) (m : message)
  : M message :=
  let message := propagated E server_span m in
  let! content_length :=
    lift (ASGIGetter.get (msg_headers message) "content-length") in
  let! _ :=
    with_content_length content_length
      (fun n => set_content_length_header (Some n)) in
  let! _ := send message in
  ret message.

(** Whether the client response hook, if there is one, returns. *)
Definition hook_returns (m : message) : bool :=
  match client_response_hook self with
  | Some f => match f m with None => true | Some _ => false end
  | None => true
  end.

End Wrappers.

(** Only annotations were logged, and the spans and the cached content
    length are as they were. *)
Definition annotated (st st' : state) : Prop :=
  (exists new, log st' = (new ++ log st)%list
               /\ Forall (fun e => is_annotation e = true) new)
  /\ spans st' = spans st
  /\ content_length_header st' = content_length_header st.

(** Only inner events were logged, and the spans are as they were. *)
Definition inner_only (st st' : state) : Prop :=
  (exists new, log st' = (new ++ log st)%list
               /\ Forall (fun e => is_inner e = true) new)
  /\ spans st' = spans st.

(** The attributes of the duration metric are as they were. *)
Definition same_attrs (st st' : state) : Prop :=
  duration_attrs st' = duration_attrs st.

(** No condition on the state. *)
Definition always (st : state) : Prop := True.

(** What leaving a span logs. *)
Definition is_exit (e : event) : bool :=
  match e with
  | EvDetach (TokSpan _) | EvSetStatus _ _ _ | EvRecordException _ _
  | EvEndSpan _ _ => true
  | _ => false
  end.

(** A classifier that excludes another, by cases on the event. *)
Ltac no_events :=
  let e := fresh "e" in
  intros e; destruct e as [| | | | | | [|] | [|] | | | | |]; simpl;
  intros; first [discriminate | reflexivity].

(** What the wrappers leave of the request: the cached content length, the
    trailers flag and the attributes of the duration metric. *)
Definition same_request (st st' : state) : Prop :=
  content_length_header st' = content_length_header st
  /\ expecting_trailers st' = expecting_trailers st
  /\ duration_attrs st' = duration_attrs st.

(** Nothing of the request changed, and nothing was done to a metric
    instrument or to the request context. *)
Definition request_kept (st st' : state) : Prop :=
  same_request st st' /\ count is_outer (log st') = count is_outer (log st).

(** A record of the size of the request. *)
Definition is_request_size_record (e : event) : bool :=
  match e with
  | EvRecord server_request_size_histogram _ _ => true
  | _ => false
  end.

(** The attributes the [finally] block records with: those of the duration
    metric, with the target when the route has a path format. *)
Definition metric_attrs (sc : scope) (st : state) : dict pyval :=
  match _collect_target_attribute sc with
  | Some target => dict_set "http.target" (VStr target) (duration_attrs st)
  | None => duration_attrs st
  end.

(** The middleware of the samples with a request hook that raises. *)
Definition self_failing_hook : config :=
  {| excluded_urls := None;
     default_span_details := get_default_span_details;
     server_request_hook := Some (fun _ => Some (Failure 3));
     client_request_hook := None;
     client_response_hook := None;
     http_capture_headers_server_request := [];
     http_capture_headers_server_response := [];
     http_capture_headers_sanitize_fields := [] |}.

(** The body of [try] up to the call of the application: when the server
    span records, its attributes and the captured request headers are set;
    the server request hook is called; the send wrapper is made, with its
    flag false. *)
Definition prepare (U : util) (self : config) (rq : request) (sc : scope) : M unit :=
  let current_span := rq_span rq in
  let! recording := read (recording_at current_span) in
  let! _ :=
    when recording
      (let! _ := set_each current_span (rq_attributes rq) in
       let! kind := read (kind_at current_span) in
       match kind with
       | SERVER =>
         let! custom_attributes :=
           capture U self (sc_headers sc) (http_capture_headers_server_request self)
             normalise_request_header_name in
         match custom_attributes with
         | [] => ret tt
         | _ => emit (EvSetAttributes current_span custom_attributes)
         end
       | INTERNAL => ret tt
       end) in
  let! _ := call_hook ServerRequest (server_request_hook self) sc in
  set_expecting_trailers (VBool false).

(** A value that is not a text with characters outside ASCII. *)
Definition ascii_value (v : pyval) : bool :=
  match v with
  | VStr s => ascii_text s
  | _ => true
  end.

(** The scope of the URL example with an escaped query string. *)
Definition escaped_query (query : string) : scope :=
  {| sc_type := "http"; sc_scheme := Some "http";
     sc_server := Some ("example.com", Some 80);
     sc_root_path := None; sc_path := Some "/a";
     sc_query_string := Some (VBytes query);
     sc_http_version := None; sc_method := None; sc_headers := None;
     sc_client := None; sc_route_path_format := None |}.

(** The surroundings of the samples with a response propagator that injects
    one field. *)
Definition E_propagating : env :=
  {| ambient_span := false;
     extract_fields := ["traceparent"; "tracestate"];
     sampled := fun _ => true;
     response_propagator := Some (fun _ => [("Server-Timing", "trace")]);
     timer := Sample.ticks;
     transport_send := fun _ _ => None;
     transport_receive := fun _ => Ok Sample.request_event |}.

(** * Properties *)

(** ** Texts and dictionaries *)

Lemma append_assoc (a b c : string) : (a ++ b) ++ c = a ++ b ++ c.
Proof.
  induction a as [|x a IH]; [reflexivity|].
  change (String x ((a ++ b) ++ c) = String x (a ++ b ++ c)).
  now rewrite IH.
Qed.

Lemma str_of_int_inj (a b : Z) : str_of_int a = str_of_int b -> a = b.
Proof.
  unfold str_of_int. intros H.
  assert (nonnil : forall z, Z.to_int z <> Decimal.Pos Decimal.Nil
                             /\ Z.to_int z <> Decimal.Neg Decimal.Nil).
  { intros [|p|p]; simpl; split; try discriminate;
      intros [= Hp]; now apply (DecimalPos.Unsigned.to_uint_nonnil p). }
  apply DecimalZ.to_int_inj.
  assert (Some (Z.to_int a) = Some (Z.to_int b)) as [= ->]; [|reflexivity].
  rewrite <- (NilZero.isi (Z.to_int a)), <- (NilZero.isi (Z.to_int b)), H;
    try apply nonnil.
  reflexivity.
Qed.

Lemma str_of_port_80 (port : option Z) : str_of_port port = "80" <-> port = Some 80.
Proof.
  split; [|now intros ->].
  destruct port as [z|]; [|discriminate]. simpl. intros H.
  f_equal. now apply str_of_int_inj.
Qed.

Lemma dict_get_set_eq {V} (k : string) (v : V) (d : dict V) :
  dict_get k (dict_set k v d) = Some v.
Proof.
  induction d as [|[k' v'] d IH]; simpl.
  - now rewrite String.eqb_refl.
  - destruct (String.eqb k' k) eqn:Heq; simpl.
    + now rewrite String.eqb_refl.
    + now rewrite Heq.
Qed.

Lemma dict_get_set_ne {V} (k k' : string) (v : V) (d : dict V) :
  k <> k' -> dict_get k' (dict_set k v d) = dict_get k' d.
Proof.
  intros Hne. induction d as [|[k0 v0] d IH]; simpl.
  - apply String.eqb_neq in Hne. now rewrite Hne.
  - destruct (String.eqb k0 k) eqn:Heq; simpl.
    + apply String.eqb_eq in Heq. subst k0.
      apply String.eqb_neq in Hne. now rewrite Hne.
    + destruct (String.eqb k0 k'); [reflexivity | exact IH].
Qed.

Lemma join_cons (sep first : string) (rest : list string) :
  rest <> [] -> join sep (first :: rest) = first ++ sep ++ join sep rest.
Proof. destruct rest; [congruence | reflexivity]. Qed.

Lemma fold_value_join (j : string) (values : list string) :
  fold_left fold_value values (Some j) = Some (join "," (j :: values)).
Proof.
  revert j. induction values as [|v values IH]; intros j; [reflexivity|].
  change (fold_left fold_value (v :: values) (Some j))
    with (fold_left fold_value values (Some (j ++ "," ++ v))).
  rewrite IH.
  destruct values as [|w values]; [reflexivity|].
  f_equal. rewrite (join_cons "," j) by discriminate.
  rewrite (join_cons "," v) by discriminate.
  rewrite (join_cons "," (j ++ "," ++ v)) by discriminate.
  now rewrite !append_assoc.
Qed.

Lemma fold_value_joined (values : list string) :
  fold_left fold_value values None = joined values.
Proof.
  destruct values as [|v values]; [reflexivity|].
  simpl. apply fold_value_join.
Qed.

(** ** Request attribute collector *)

(** Bytes that are ASCII decode to themselves, whatever is done to
    ill-formed parts. *)
Lemma utf8_ascii_any (replace : bool) (s : string) :
  ascii_text s = true -> utf8 replace s = Some s.
Proof.
  induction s as [|c r IH]; [reflexivity|].
  simpl. intros [Hc Hr]%andb_true_iff. rewrite Hc, (IH Hr). reflexivity.
Qed.

Lemma unquote_to_bytes_escape (h l : ascii) (a b : N) (rest : string) :
  hex_value h = Some a -> hex_value l = Some b ->
  unquote_to_bytes (String "%" (String h (String l rest)))
  = String (ascii_of_N (a * 16 + b)) (unquote_to_bytes rest).
Proof. intros Hh Hl. simpl. now rewrite Hh, Hl. Qed.

Lemma unquote_to_bytes_other (c : ascii) (rest : string) :
  c <> "%"%char ->
  unquote_to_bytes (String c rest) = String c (unquote_to_bytes rest).
Proof.
  intros Hc. apply Ascii.eqb_neq in Hc. simpl.
  destruct rest as [|h [|l r2]]; try reflexivity.
  rewrite Hc. now destruct (hex_value h), (hex_value l).
Qed.

Lemma unquote_to_bytes_bare (c : ascii) (rest : string) :
  match rest with
  | String h (String l _) => hex_value h = None \/ hex_value l = None
  | _ => True
  end ->
  unquote_to_bytes (String c rest) = String c (unquote_to_bytes rest).
Proof.
  destruct rest as [|h [|l r2]]; try reflexivity.
  simpl. destruct (hex_value h), (hex_value l); intros [H|H]; congruence.
Qed.

Lemma unquote_to_bytes_plain (s : string) :
  mem_char "%" s = false -> unquote_to_bytes s = s.
Proof.
  induction s as [|c r IH]; [reflexivity|].
  change (mem_char "%" (String c r)) with (Ascii.eqb "%" c || mem_char "%" r).
  intros [Hc Hr]%orb_false_iff.
  rewrite unquote_to_bytes_other, (IH Hr); [reflexivity|].
  apply Ascii.eqb_neq in Hc. congruence.
Qed.

Lemma unquote_ascii (text : string) :
  ascii_text (unquote_to_bytes text) = true -> unquote text = unquote_to_bytes text.
Proof.
  intros Ha. unfold unquote. destruct (mem_char "%" text) eqn:Hm.
  - now rewrite (utf8_ascii_any true _ Ha).
  - now rewrite unquote_to_bytes_plain.
Qed.

(** C8.  The URL derived from a scope is [scheme://host] with [:port] after
    the host unless the port is 80, followed by the root path and the path;
    the query string, percent-decoded, is appended after [?] when it is not
    empty (the URL never is).  A query string that is not UTF-8 makes the
    derivation fail with the decoding error.  Percent-decoding leaves a text
    without [%] as it is; it replaces each [%] followed by two hexadecimal
    digits by the byte they name and leaves every other character, a [%]
    that is not followed by two such digits included; the bytes are the text
    when they are ASCII, and are read as UTF-8 otherwise, an ill-formed part
    becoming U+FFFD.  For the scope of the example the URL is
    [http://example.com/a?x=1]. *)
Theorem derived_url (sc : scope) :
  let server := default ("0.0.0.0", Some 80) (sc_server sc) in
  let port := server.2 in
  let suffix := if decide (port = Some 80) then "" else ":" ++ str_of_port port in
  let url := default "http" (sc_scheme sc) ++ "://" ++ server.1 ++ suffix
             ++ default "" (sc_root_path sc) ++ default "" (sc_path sc) in
  get_host_port_url_tuple sc = (server.1 ++ suffix, port, url)
  /\ nonempty url = true
  /\ (match sc_query_string sc with
      | None => request_url sc = Ok url
      | Some q =>
        (truthy q = false -> request_url sc = Ok url)
        /\ (forall b text, q = VBytes b -> nonempty b = true -> decode b = Ok text ->
              request_url sc = Ok (url ++ "?" ++ unquote text))
        /\ (forall b e, q = VBytes b -> nonempty b = true -> decode b = Raise e ->
              request_url sc = Raise e)
        /\ (forall text, q = VStr text -> nonempty text = true ->
              request_url sc = Ok (url ++ "?" ++ unquote text))
      end)
  /\ (forall text, mem_char "%" text = false -> unquote text = text)
  /\ (forall text, ascii_text (unquote_to_bytes text) = true ->
        unquote text = unquote_to_bytes text)
  /\ (forall h l a b rest, hex_value h = Some a -> hex_value l = Some b ->
        unquote_to_bytes (String "%" (String h (String l rest)))
        = String (ascii_of_N (a * 16 + b)) (unquote_to_bytes rest))
  /\ (forall c rest,
        c <> "%"%char
        \/ match rest with
           | String h (String l _) => hex_value h = None \/ hex_value l = None
           | _ => True
           end ->
        unquote_to_bytes (String c rest) = String c (unquote_to_bytes rest))
  /\ request_url url_example = Ok "http://example.com/a?x=1"
  /\ request_url (escaped_query "q=a%20b%2Fc&r=100%") = Ok "http://example.com/a?q=a b/c&r=100%"
  /\ request_url (escaped_query "caf%C3%A9")
     = Ok ("http://example.com/a?caf"
           ++ String (ascii_of_N 195) (String (ascii_of_N 169) ""))
  /\ request_url (escaped_query "x=%FF") = Ok ("http://example.com/a?x=" ++ replacement)
  /\ request_url (escaped_query "x=%zz%4") = Ok "http://example.com/a?x=%zz%4".
Proof.
  intros server port suffix url.
  assert (Htuple : get_host_port_url_tuple sc = (server.1 ++ suffix, port, url)).
  { unfold get_host_port_url_tuple. fold server. fold port.
    assert (Hs : (if negb (String.eqb (str_of_port port) "80")
                  then ":" ++ str_of_port port else "") = suffix).
    { unfold suffix. destruct (decide (port = Some 80)) as [->|Hne].
      - reflexivity.
      - destruct (String.eqb_spec (str_of_port port) "80") as [Heq|_]; [|reflexivity].
        now apply str_of_port_80 in Heq. }
    rewrite Hs. unfold url. now rewrite !append_assoc. }
  assert (Hurl : nonempty url = true).
  { unfold url. destruct (default "http" (sc_scheme sc)); reflexivity. }
  split; [exact Htuple|]. split; [exact Hurl|]. split.
  { unfold request_url. rewrite Htuple.
    destruct (sc_query_string sc) as [q|]; [|reflexivity].
    rewrite Hurl, andb_true_r.
    repeat split.
    - now intros ->.
    - intros b text -> Hb Hd. simpl. now rewrite Hb, Hd.
    - intros b e -> Hb Hd. simpl. now rewrite Hb, Hd.
    - intros text -> Ht. simpl. now rewrite Ht. }
  split; [intros text Hm; unfold unquote; now rewrite Hm|].
  split; [exact unquote_ascii|].
  split; [exact unquote_to_bytes_escape|].
  split.
  { intros c rest [Hc|Hrest];
      [now apply unquote_to_bytes_other | now apply unquote_to_bytes_bare]. }
  repeat split.
Qed.

(** ** Status helper *)

(** C6, as the code has it.  On a span that is not recording
    [set_status_code] does nothing.  On a recording span an argument that
    [int] converts sets the numeric attribute and the status the mapping
    gives; an argument whose conversion fails with [ValueError] sets the
    status ERROR with a message naming the argument, and nothing is raised;
    a conversion that fails otherwise raises that error, and nothing is set
    on the span.  The conversion fails with [ValueError] for a text or a byte
    string that is not an integer literal, and otherwise only for [None],
    with [TypeError].  The argument is any value but a text with characters
    outside ASCII. *)
Theorem set_status_code_cases (U : util) (sp : nat) (status_code : pyval) (st : state) :
  ascii_value status_code = true ->
  set_status_code U sp status_code st
  = (if recording_at sp st then
       match int status_code with
       | Ok code =>
         (logged [EvSetStatus sp (http_status_to_status_code U code) None;
                  EvSetAttribute sp "http.status_code" (VInt code)] st, Ok tt)
       | Raise e =>
         if is_ValueError e
         then (logged [EvSetStatus sp ERROR
                         (Some ("Non-integer HTTP status: " ++ repr status_code))] st,
               Ok tt)
         else (st, Raise e)
       end
     else (st, Ok tt))
  /\ (forall e, int status_code = Raise e ->
        (e = ValueError
         /\ exists s, (status_code = VStr s \/ status_code = VBytes s)
                      /\ int_of_text s = None)
        \/ (e = TypeError /\ status_code = VNone))
  /\ (forall code, int status_code = Ok code ->
        status_code = VInt code
        \/ status_code = VBool (negb (code =? 0))
        \/ exists s, (status_code = VStr s \/ status_code = VBytes s)
                     /\ int_of_text s = Some code).
Proof.
  intros _. split; [|split].
  - unfold set_status_code, bind, read.
    destruct (recording_at sp st); simpl; [|reflexivity].
    destruct (int status_code) as [code|e]; [reflexivity|].
    destruct (is_ValueError e); reflexivity.
  - intros e. destruct status_code as [|b|z|s|s]; simpl; try discriminate.
    + intros [= <-]. now right.
    + destruct (int_of_text s) eqn:Hs; [discriminate|]. intros [= <-].
      left. split; [reflexivity|]. exists s. split; [now left | exact Hs].
    + destruct (int_of_text s) eqn:Hs; [discriminate|]. intros [= <-].
      left. split; [reflexivity|]. exists s. split; [now right | exact Hs].
  - intros code. destruct status_code as [|b|z|s|s]; simpl; try discriminate.
    + intros [= <-]. right. left. now destruct b.
    + intros [= <-]. now left.
    + destruct (int_of_text s) eqn:Hs; [|discriminate]. intros [= <-].
      right. right. exists s. split; [now left | exact Hs].
    + destruct (int_of_text s) eqn:Hs; [|discriminate]. intros [= <-].
      right. right. exists s. split; [now right | exact Hs].
Qed.

(** The status [abc] on a recording span: the status ERROR is set and
    nothing is raised. *)
Lemma set_status_code_cases_witness :
  set_status_code Sample.U 0 (VStr "abc") one_recording_span
  = (logged [EvSetStatus 0 ERROR (Some "Non-integer HTTP status: 'abc'")]
       one_recording_span, Ok tt).
Proof.
  exact (proj1 (set_status_code_cases Sample.U 0 (VStr "abc") one_recording_span eq_refl)).
Defined.

(** What [int] takes for an integer literal: white space around it, but not
    the separators U+001C to U+001F; a sign; single underscores between
    digits; at most 4300 digits. *)
Example int_examples :
  int (VStr " 42 ") = Ok 42
  /\ int (VStr "+1_000") = Ok 1000
  /\ int (VBytes "-7") = Ok (-7)
  /\ int (VStr (String (ascii_of_N 28) "42")) = Raise ValueError
  /\ int (VStr "4 2") = Raise ValueError
  /\ int (VStr "1__0") = Raise ValueError
  /\ int (VStr "") = Raise ValueError
  /\ int (VBool true) = Ok 1
  /\ int VNone = Raise TypeError.
Proof. repeat split. Qed.

(** [repr] of a text and of a byte string. *)
Example repr_examples :
  repr (VStr "abc") = "'abc'"
  /\ repr (VStr "it's") = String double_quote ("it's" ++ String double_quote "")
  /\ repr (VBytes (String (ascii_of_N 255) "x")) = "b'\xffx'"
  /\ repr (VStr (String (ascii_of_N 10) "")) = "'\n'"
  /\ repr (VInt (-3)) = "-3"
  /\ repr VNone = "None".
Proof. repeat split. Qed.

(** The claim C6 fails for an argument such as [None]: on a recording span
    the conversion raises [TypeError], which [set_status_code] lets through,
    and no status is set. *)
Lemma set_status_code_None_raises :
  recording_at 0 one_recording_span = true
  /\ int VNone = Raise TypeError
  /\ set_status_code Sample.U 0 VNone one_recording_span
     = (one_recording_span, Raise TypeError).
Proof. repeat split. Qed.

(** ** Captured headers *)

Lemma decode_and_join_entries (raw : headers) :
  forall (acc hs : dict string),
    decode_and_join raw acc = Ok hs ->
    forall key, exists values,
      ASGIGetter.decoded key raw = Ok values
      /\ dict_get key hs = fold_left fold_value values (dict_get key acc).
Proof.
  induction raw as [|[_key _value] rest IH]; intros acc hs Hrun key.
  - injection Hrun as <-. now exists [].
  - simpl in Hrun. simpl.
    destruct (decode _key) as [name|]; [|discriminate].
    destruct (decode _value) as [value|]; [|discriminate].
    simpl in Hrun |- *.
    destruct (IH _ _ Hrun key) as (values & Hdec & Hget).
    destruct (String.eqb_spec (lower name) key) as [Heq|Hne].
    + exists (value :: values). rewrite Hdec. split; [reflexivity|].
      rewrite Hget. simpl. f_equal. subst key.
      destruct (dict_get (lower name) acc); now rewrite dict_get_set_eq.
    + exists values. split; [exact Hdec|].
      rewrite Hget. f_equal.
      destruct (dict_get (lower name) acc); now apply dict_get_set_ne.
Qed.

(** The claim C9 fails for the function itself: with no pattern and a header
    whose name is not UTF-8 the decode pass runs and raises, and no empty
    map is returned. *)
Lemma empty_patterns_still_decode :
  collect_custom_headers_attributes Sample.U (Some [(not_utf8, "a")]) [] []
    normalise_request_header_name
  = Raise UnicodeDecodeError.
Proof. reflexivity. Qed.

(** The header example of the specification: [x-foo] twice and a content
    type, captured under the pattern [x-foo]. *)
Example captured_example :
  collect_custom_headers_attributes Sample.U
    (Some [("content-type", "text/plain"); ("x-foo", "a"); ("x-foo", "b")])
    [] ["x-foo"] normalise_request_header_name
  = Ok [("http.request.header.x_foo", "a,b")].
Proof. reflexivity. Qed.

(** ** Reasoning about runs *)

Lemma bind_ext {A B} (m : M A) (k k' : A -> M B) (st : state) :
  (forall a s, k a s = k' a s) -> bind m k st = bind m k' st.
Proof.
  intros Hk. unfold bind. destruct (m st) as [st1 [a|e]]; [apply Hk | reflexivity].
Qed.

Lemma use_span_ext {A} (sp : nat) (end_on_exit : bool) (body body' : M A) (st : state) :
  (forall s, body s = body' s) ->
  use_span sp end_on_exit body st = use_span sp end_on_exit body' st.
Proof.
  intros Hbody. unfold use_span, try_finally, on_exception, bind. simpl.
  now rewrite Hbody.
Qed.

Lemma bind_assoc {A B C} (m : M A) (k : A -> M B) (k' : B -> M C) (st : state) :
  bind (bind m k) k' st = bind m (fun x => bind (k x) k') st.
Proof. unfold bind. now destruct (m st) as [s [a|e]]. Qed.

Section Yields.
Context {A : Type} (P : A -> Prop).

Lemma yields_ret (a : A) : P a -> yields P (ret a).
Proof. intros Ha st st' b [= _ <-]. exact Ha. Qed.

Lemma yields_raise (e : exn) : yields P (raise e).
Proof. intros st st' b [=]. Qed.

Lemma yields_bind {B} (m : M B) (k : B -> M A) :
  (forall b, yields P (k b)) -> yields P (bind m k).
Proof.
  intros Hk st st' a. unfold bind.
  destruct (m st) as [st1 [b|e]]; [apply Hk | discriminate].
Qed.

Lemma yields_try_finally (body : M A) (cleanup : M unit) :
  yields P body -> yields P (try_finally body cleanup).
Proof.
  intros Hb st st' a. unfold try_finally.
  destruct (body st) as [st1 r] eqn:Hbody.
  destruct (cleanup st1) as [st2 [[]|e]]; [|discriminate].
  intros [= _ ->]. exact (Hb _ _ _ Hbody).
Qed.

Lemma yields_on_exception (body : M A) (handler : exn -> M unit) :
  yields P body -> yields P (on_exception body handler).
Proof.
  intros Hb st st' a. unfold on_exception.
  destruct (body st) as [st1 [b|e]] eqn:Hbody.
  - intros [= _ <-]. exact (Hb _ _ _ Hbody).
  - destruct (handler e st1) as [st2 [[]|e']]; discriminate.
Qed.

Lemma yields_use_span (sp : nat) (end_on_exit : bool) (body : M A) :
  yields P body -> yields P (use_span sp end_on_exit body).
Proof.
  intros Hb. unfold use_span.
  apply yields_try_finally, yields_on_exception, yields_bind. intros _.
  now apply yields_try_finally.
Qed.

Lemma yields_start_as_current_span (E : env) (name : string) (body : nat -> M A) :
  (forall sp, yields P (body sp)) -> yields P (start_as_current_span E name body).
Proof.
  intros Hb. unfold start_as_current_span. apply yields_bind. intros sp.
  now apply yields_use_span.
Qed.

End Yields.

(** The send block returns the message as the propagator left it. *)
Lemma otel_send_block_yields (U : util) (self : config) (E : env) (sp : nat)
    (real_send : message -> M unit) (m : message) (child : nat) :
  yields (fun m' => m' = propagated E sp m)
         (otel_send_block U self E sp real_send m child).
Proof.
  unfold otel_send_block.
  repeat (apply yields_bind; intros ?).
  now apply yields_ret.
Qed.

Section Respects.
Context (U : util) (self : config) (E : env).
Context (G : state -> Prop) (R : state -> state -> Prop).
Hypothesis R_refl : forall st, R st st.
Hypothesis R_trans : forall a b c, R a b -> R b c -> R a c.

Local Abbreviation respects := (respects G R).

Lemma respects_ret {A} (a : A) : respects (ret a).
Proof. intros st HG. split; [exact HG | apply R_refl]. Qed.

Lemma respects_raise {A} (e : exn) : respects (@raise A e).
Proof. intros st HG. split; [exact HG | apply R_refl]. Qed.

Lemma respects_lift {A} (r : outcome A) : respects (lift r).
Proof. intros st HG. split; [exact HG | apply R_refl]. Qed.

Lemma respects_read {A} (f : state -> A) : respects (read f).
Proof. intros st HG. split; [exact HG | apply R_refl]. Qed.

Lemma respects_bind {A B} (m : M A) (k : A -> M B) :
  respects m -> (forall a, respects (k a)) -> respects (bind m k).
Proof.
  intros Hm Hk st HG. unfold bind.
  destruct (Hm st HG) as [HG1 HR1].
  destruct (m st) as [st1 [a|e]]; simpl in *.
  - destruct (Hk a st1 HG1) as [HG2 HR2]. split; [exact HG2 | eauto].
  - split; assumption.
Qed.

Lemma respects_bind_yields {A B} (P : A -> Prop) (m : M A) (k : A -> M B) :
  respects m -> yields P m -> (forall a, P a -> respects (k a)) ->
  respects (bind m k).
Proof.
  intros Hm Hy Hk st HG. unfold bind.
  destruct (Hm st HG) as [HG1 HR1].
  destruct (m st) as [st1 [a|e]] eqn:Hrun; simpl in *.
  - destruct (Hk a (Hy _ _ _ Hrun) st1 HG1) as [HG2 HR2].
    split; [exact HG2 | eauto].
  - split; assumption.
Qed.

Lemma respects_when (b : bool) (m : M unit) : respects m -> respects (when b m).
Proof. destruct b; [trivial | intros _; apply respects_ret]. Qed.

(** [let! b := read f in let! _ := when b body in rest]: the body is only
    run from a state where [f] is true. *)
Lemma respects_guarded {A} (f : state -> bool) (body : M unit) (rest : M A) :
  (forall st, G st -> f st = true -> G (body st).1 /\ R st (body st).1) ->
  respects rest ->
  respects (bind (read f) (fun b => bind (when b body) (fun _ => rest))).
Proof.
  intros Hbody Hrest st HG. unfold bind, read. simpl.
  destruct (f st) eqn:Hf; simpl.
  - destruct (Hbody st HG Hf) as [HG1 HR1].
    destruct (body st) as [st1 [[]|e]]; simpl in *.
    + destruct (Hrest st1 HG1) as [HG2 HR2]. split; [exact HG2 | eauto].
    + split; assumption.
  - apply Hrest, HG.
Qed.

Lemma respects_try_finally {A} (body : M A) (cleanup : M unit) :
  respects body -> respects cleanup -> respects (try_finally body cleanup).
Proof.
  intros Hb Hc st HG. unfold try_finally.
  destruct (Hb st HG) as [HG1 HR1].
  destruct (body st) as [st1 r]; simpl in *.
  destruct (Hc st1 HG1) as [HG2 HR2].
  destruct (cleanup st1) as [st2 [[]|e]]; simpl in *; split; eauto.
Qed.

Lemma respects_on_exception {A} (body : M A) (handler : exn -> M unit) :
  respects body -> (forall e, respects (handler e)) ->
  respects (on_exception body handler).
Proof.
  intros Hb Hh st HG. unfold on_exception.
  destruct (Hb st HG) as [HG1 HR1].
  destruct (body st) as [st1 [a|e]]; simpl in *; [split; assumption|].
  destruct (Hh e st1 HG1) as [HG2 HR2].
  destruct (handler e st1) as [st2 [[]|e']]; simpl in *; split; eauto.
Qed.

Hypothesis H_emit : forall e, is_inner e = true -> respects (emit e).
Hypothesis H_content_length : forall v, respects (set_content_length_header v).
Hypothesis H_duration_attrs : forall d, respects (set_duration_attrs d).

Lemma respects_call_hook {X} (name : hook_name) (hook : option (X -> option exn))
    (x : X) :
  respects (call_hook name hook x).
Proof.
  unfold call_hook. destruct hook as [f|]; [|apply respects_ret].
  apply respects_bind; [now apply H_emit|]. intros _.
  destruct (f x); [apply respects_raise | apply respects_ret].
Qed.

Lemma respects_set_status_code (sp : nat) (status_code : pyval) :
  respects (set_status_code U sp status_code).
Proof.
  unfold set_status_code. apply respects_bind; [apply respects_read|].
  intros recording. destruct (negb recording); [apply respects_ret|].
  destruct (int status_code) as [code|e].
  - apply respects_bind; [now apply H_emit|]. intros _. now apply H_emit.
  - destruct (is_ValueError e); [now apply H_emit | apply respects_raise].
Qed.

Lemma respects_send (m : message) : respects (send E m).
Proof.
  unfold send. apply respects_bind; [apply respects_read|]. intros n.
  apply respects_bind; [now apply H_emit|]. intros _.
  destruct (transport_send E n m); [apply respects_raise | apply respects_ret].
Qed.

Lemma respects_receive : respects (receive E).
Proof.
  unfold receive. apply respects_bind; [apply respects_read|]. intros n.
  apply respects_bind; [now apply H_emit|]. intros _. apply respects_lift.
Qed.

Lemma respects_with_content_length (values : option (list string))
    (use : Z -> M unit) :
  (forall n, respects (use n)) -> respects (with_content_length values use).
Proof.
  intros Huse. unfold with_content_length.
  destruct values as [[|value rest]|]; try apply respects_ret.
  destruct (int (VStr value)) as [n|e]; [apply Huse|].
  destruct (is_ValueError e); [apply respects_ret | apply respects_raise].
Qed.

Lemma respects_capture (raw : option headers) (patterns : list string)
    (normalize_names : string -> string) :
  respects (capture U self raw patterns normalize_names).
Proof.
  unfold capture. destruct patterns; [apply respects_ret | apply respects_lift].
Qed.

Lemma respects_set_each (sp : nat) (attributes : dict pyval) :
  respects (set_each sp attributes).
Proof.
  induction attributes as [|[key value] rest IH]; simpl; [apply respects_ret|].
  apply respects_bind; [now apply H_emit | intros _; exact IH].
Qed.

(** The inspection of an outgoing message, given that the flag may be set
    when the message starts a response. *)
Lemma respects_inspect (sp child : nat) (m : message) :
  (msg_type m = "http.response.start" ->
   respects (set_expecting_trailers (get_flag (msg_trailers m)))) ->
  respects (inspect U self sp child m).
Proof.
  intros Hflag. unfold inspect.
  apply respects_bind.
  - destruct (String.eqb_spec (msg_type m) "http.response.start") as [Hstart|_].
    + apply respects_bind.
      { destruct (msg_status m); [apply respects_ret | apply respects_raise]. }
      intros status_code.
      apply respects_bind; [apply respects_read|]. intros attrs.
      apply respects_bind; [apply H_duration_attrs|]. intros _.
      apply respects_bind; [apply respects_set_status_code|]. intros _.
      apply respects_bind; [apply respects_set_status_code|]. intros _.
      now apply Hflag.
    + destruct (String.eqb (msg_type m) "websocket.send"); [|apply respects_ret].
      apply respects_bind; [apply respects_set_status_code|]. intros _.
      apply respects_set_status_code.
  - intros _. apply respects_bind; [now apply H_emit|]. intros _.
    apply respects_bind; [apply respects_read|]. intros server_recording.
    apply respects_bind; [apply respects_read|]. intros server_kind.
    destruct server_recording, server_kind, (msg_headers m); try apply respects_ret.
    apply respects_bind; [apply respects_capture|]. intros attrs.
    destruct attrs; [apply respects_ret | now apply H_emit].
Qed.

Lemma respects_otel_send_block (sp child : nat) (m : message) :
  (forall st, G st -> recording_at child st = true ->
     msg_type m = "http.response.start" ->
     respects (set_expecting_trailers (get_flag (msg_trailers m)))) ->
  respects (otel_send_block U self E sp (send E) m child).
Proof.
  intros Hflag. unfold otel_send_block.
  apply respects_bind; [apply respects_call_hook|]. intros _.
  apply respects_guarded.
  - intros st HG Hrec.
    apply (respects_inspect sp child m); [|exact HG].
    intros Hstart. exact (Hflag st HG Hrec Hstart).
  - apply respects_bind; [apply respects_lift|]. intros content_length.
    apply respects_bind.
    { apply respects_with_content_length. intros n. apply H_content_length. }
    intros _. apply respects_bind; [apply respects_send|]. intros _.
    apply respects_ret.
Qed.

(** [use_span] around a body, given what ending the span does. *)
Lemma respects_use_span {A} (sp : nat) (end_on_exit : bool) (body : M A) :
  (end_on_exit = true -> respects (span_end sp)) ->
  respects body -> respects (use_span sp end_on_exit body).
Proof.
  intros Hend Hbody. unfold use_span.
  apply respects_try_finally.
  - apply respects_on_exception.
    + apply respects_bind; [now apply H_emit|]. intros _.
      apply respects_try_finally; [exact Hbody | now apply H_emit].
    + intros e. apply respects_bind; [apply respects_read|]. intros recording.
      apply respects_when.
      apply respects_bind; [now apply H_emit|]. intros _. now apply H_emit.
  - destruct end_on_exit; [now apply Hend | apply respects_ret].
Qed.

Hypothesis H_start : forall name, respects (start_child E name).
Hypothesis H_end :
  forall st0, G st0 -> forall sid, (length (spans st0) <= sid)%nat ->
  respects (span_end sid).

Lemma start_child_result (name : string) (st : state) :
  (start_child E name st).2 = Ok (length (spans st)).
Proof. reflexivity. Qed.

(** A block run under a fresh span, given that the block respects the
    relation whatever the new span's id, at least the number of spans there
    were. *)
Lemma respects_start_as_current_span {A} (name : string) (body : nat -> M A) :
  (forall st0, G st0 -> forall child, (length (spans st0) <= child)%nat ->
     respects (body child)) ->
  respects (start_as_current_span E name body).
Proof.
  intros Hbody st HG. unfold start_as_current_span, bind.
  destruct (H_start name st HG) as [HG1 HR1].
  pose proof (start_child_result name st) as Hres.
  destruct (start_child E name st) as [st1 r]. simpl in *. subst r.
  assert (Hchild : (length (spans st) <= length (spans st))%nat) by lia.
  destruct (respects_use_span (length (spans st)) true (body (length (spans st)))
              (fun _ => H_end st HG _ Hchild) (Hbody st HG _ Hchild) st1 HG1)
    as [HG2 HR2].
  split; [exact HG2 | eauto].
Qed.

Lemma respects_otel_receive (name : string) (sc : scope) :
  respects (otel_receive U self E name sc (receive E)).
Proof.
  unfold otel_receive. apply respects_start_as_current_span.
  intros st0 HG0 child Hchild.
  apply respects_bind; [apply respects_call_hook|]. intros _.
  apply respects_bind; [apply respects_receive|]. intros m.
  apply respects_guarded; [|apply respects_ret].
  intros st HG _.
  apply (respects_bind
           (when (String.eqb (msg_type m) "websocket.receive")
                 (set_status_code U child (VInt 200)))); [| |exact HG].
  - apply respects_when, respects_set_status_code.
  - intros _. now apply H_emit.
Qed.

Hypothesis H_flag : forall v, respects (set_expecting_trailers v).

(** The send wrapper, given what ending the server span does. *)
Lemma respects_otel_send (sp : nat) (name : string) (sc : scope) (m : message) :
  respects (span_end sp) ->
  respects (otel_send U self E sp name sc (send E) m).
Proof.
  intros Hend. unfold otel_send.
  apply respects_bind.
  - apply respects_start_as_current_span. intros st0 HG0 child Hchild.
    apply respects_otel_send_block. intros; apply H_flag.
  - intros message. apply respects_bind; [apply respects_read|]. intros flag.
    now apply respects_when.
Qed.

(** The application on the two wrappers. *)
Lemma respects_run_app (a : app) (wrapped_receive : M message)
    (wrapped_send : message -> M unit) :
  respects wrapped_receive -> (forall m, respects (wrapped_send m)) ->
  respects (run_app a wrapped_receive wrapped_send).
Proof.
  intros Hreceive Hsend.
  induction a as [| e | m k IH | k IH]; simpl.
  - apply respects_ret.
  - apply respects_raise.
  - intros st HG. destruct (Hsend m st HG) as [HG1 HR1].
    destruct (wrapped_send m st) as [st1 r]. simpl in *.
    destruct (IH r st1 HG1) as [HG2 HR2]. split; [exact HG2 | eauto].
  - intros st HG. destruct (Hreceive st HG) as [HG1 HR1].
    destruct wrapped_receive as [st1 r]. simpl in *.
    destruct (IH r st1 HG1) as [HG2 HR2]. split; [exact HG2 | eauto].
Qed.

(** The body of [try] in [__call__]. *)
Lemma respects_serve (rq : request) (sc : scope) (a : app) :
  respects (span_end (rq_span rq)) ->
  respects (serve U self E rq sc a).
Proof.
  intros Hend. unfold serve.
  apply respects_use_span; [discriminate|].
  apply respects_guarded.
  - intros st HG _.
    apply (respects_bind (set_each (rq_span rq) (rq_attributes rq)));
      [apply respects_set_each | | exact HG].
    intros _. apply respects_bind; [apply respects_read|]. intros kind.
    destruct kind; [|apply respects_ret].
    apply respects_bind; [apply respects_capture|]. intros attrs.
    destruct attrs; [apply respects_ret | now apply H_emit].
  - apply respects_bind; [apply respects_call_hook|]. intros _.
    unfold _get_otel_send.
    apply (respects_bind_yields
             (fun f => f = otel_send U self E (rq_span rq) (rq_span_name rq) sc (send E))).
    { apply respects_bind; [apply H_flag|]. intros _. apply respects_ret. }
    { apply yields_bind. intros _. now apply yields_ret. }
    intros wrapped ->.
    apply respects_run_app; [apply respects_otel_receive|].
    intros m. now apply respects_otel_send.
Qed.

End Respects.

Section Rely.
Context (U : util) (self : config) (E : env).
Context (G : state -> Prop) (R : state -> state -> Prop) (H : rely E G R).

Lemma rely_otel_receive (name : string) (sc : scope) :
  respects G R (otel_receive U self E name sc (receive E)).
Proof. destruct H. now apply respects_otel_receive. Qed.

Lemma rely_send_block (sp : nat) (name : string) (m : message) :
  respects G R
    (start_as_current_span E name (otel_send_block U self E sp (send E) m)).
Proof.
  destruct H. apply respects_start_as_current_span; try assumption.
  intros st0 HG0 child Hchild.
  apply respects_otel_send_block; try assumption. intros; apply rely_flag0.
Qed.

Lemma rely_otel_send (sp : nat) (name : string) (sc : scope) (m : message) :
  respects G R (span_end sp) ->
  respects G R (otel_send U self E sp name sc (send E) m).
Proof. destruct H. now apply respects_otel_send. Qed.

Lemma rely_serve (rq : request) (sc : scope) (a : app) :
  respects G R (span_end (rq_span rq)) ->
  respects G R (serve U self E rq sc a).
Proof. destruct H. now apply respects_serve. Qed.

End Rely.

(** ** Counting events *)

Lemma count_cons (q : event -> bool) (e : event) (l : list event) :
  count q (e :: l) = (Nat.b2n (q e) + count q l)%nat.
Proof. unfold count. simpl. now destruct (q e). Qed.

Lemma count_app (q : event -> bool) (l1 l2 : list event) :
  count q (l1 ++ l2)%list = (count q l1 + count q l2)%nat.
Proof. unfold count. now rewrite List.filter_app, length_app. Qed.

Lemma count_none (q : event -> bool) (l : list event) :
  Forall (fun e => q e = false) l -> count q l = 0%nat.
Proof.
  induction 1 as [|e l He _ IH]; [reflexivity|].
  now rewrite count_cons, He, IH.
Qed.

(** ** Spans *)

Lemma recording_at_start_child (E : env) (name : string) (sp : nat) (st : state) :
  (sp < length (spans st))%nat ->
  spans (start_child E name st).1 !! sp = spans st !! sp.
Proof. intros Hlt. simpl. now apply lookup_app_l. Qed.

Lemma length_start_child (E : env) (name : string) (st : state) :
  length (spans (start_child E name st).1) = S (length (spans st)).
Proof. simpl. rewrite length_app. simpl. lia. Qed.

Lemma length_span_end (sid : nat) (st : state) :
  length (spans (span_end sid st).1) = length (spans st).
Proof. simpl. apply length_alter. Qed.

Lemma lookup_span_end_ne (sid sp : nat) (st : state) :
  sid <> sp -> spans (span_end sid st).1 !! sp = spans st !! sp.
Proof. intros Hne. simpl. now apply list_lookup_alter_ne. Qed.

Lemma recording_at_span_end (sp : nat) (st : state) :
  recording_at sp (span_end sp st).1 = false.
Proof.
  unfold recording_at. simpl. rewrite list_lookup_alter_eq.
  destruct (spans st !! sp) as [s|]; simpl; [|reflexivity].
  unfold is_recording. simpl. apply andb_false_r.
Qed.

Lemma recording_at_lookup (sp : nat) (st st' : state) :
  spans st' !! sp = spans st !! sp -> recording_at sp st' = recording_at sp st.
Proof. unfold recording_at. now intros ->. Qed.

(** ** The send block leaves the server span alone *)

Section Alone.
Context (E : env) (sp : nat).

Lemma left_alone_rely : rely E (exists_span sp) (left_alone sp).
Proof.
  unfold exists_span, left_alone. split.
  - now intros st.
  - intros a b c [H1 H2] [H3 H4]. split; congruence.
  - intros e He st HG. simpl. split; [exact HG|]. split; [|reflexivity].
    rewrite count_cons. now destruct e.
  - intros v st HG. now simpl.
  - intros d st HG. now simpl.
  - intros v st HG. now simpl.
  - intros name st HG. split; [rewrite length_start_child; lia|].
    split; [reflexivity | now apply recording_at_start_child].
  - intros st0 HG0 sid Hsid st HG. split; [now rewrite length_span_end|].
    assert (Hne : sid <> sp) by lia. split.
    + simpl. rewrite count_cons. simpl.
      apply Nat.eqb_neq in Hne. now rewrite Hne.
    + now apply lookup_span_end_ne.
Qed.

End Alone.

(** ** The body of [try] and the server span *)

Section Serving.
Context (E : env) (sp : nat).

Lemma served_refl (st : state) : served sp st st.
Proof. exists []. repeat split. constructor. Qed.

Lemma served_trans (a b c : state) :
  served sp a b -> served sp b c -> served sp a c.
Proof.
  intros (n1 & L1 & F1 & C1) (n2 & L2 & F2 & C2).
  exists (n2 ++ n1)%list. split; [|split].
  - rewrite L2, L1. now rewrite app_assoc.
  - now apply Forall_app.
  - rewrite count_app. lia.
Qed.

Lemma served_emit (e : event) (st : state) :
  is_effective_end sp e = false -> is_outer e = false -> is_start sp e = false ->
  served sp st (emit e st).1.
Proof.
  intros He Ho Hs. exists [e]. split; [reflexivity|]. split.
  - now repeat constructor.
  - rewrite count_cons, He. reflexivity.
Qed.

Lemma served_span_end (sid : nat) :
  respects (exists_span sp) (served sp) (span_end sid).
Proof.
  intros st HG. split; [unfold exists_span; now rewrite length_span_end|].
  exists [EvEndSpan sid (recording_at sid st)]. split; [reflexivity|]. split.
  - now repeat constructor.
  - rewrite count_cons. unfold count, is_effective_end.
    destruct (Nat.eqb_spec sid sp) as [->|Hne].
    + rewrite recording_at_span_end. destruct (recording_at sp st); reflexivity.
    + rewrite (recording_at_lookup sp st _ (lookup_span_end_ne sid sp st Hne)).
      destruct (recording_at sid st); reflexivity.
Qed.

Lemma served_silent (st st' : state) :
  log st' = log st -> spans st' = spans st -> served sp st st'.
Proof.
  intros Hlog Hspans. exists []. split; [exact Hlog|]. split; [constructor|].
  unfold recording_at. now rewrite Hspans.
Qed.

Lemma served_rely : rely E (exists_span sp) (served sp).
Proof.
  unfold exists_span. split.
  - apply served_refl.
  - apply served_trans.
  - intros e He st HG. split; [exact HG|].
    apply served_emit; try reflexivity; now destruct e as [| | | | | | [] | [] | | | | |].
  - intros v st HG. split; [exact HG | now apply served_silent].
  - intros d st HG. split; [exact HG | now apply served_silent].
  - intros v st HG. split; [exact HG | now apply served_silent].
  - intros name st HG. split; [rewrite length_start_child; lia|].
    exists [EvStartSpan (length (spans st)) name INTERNAL []
              (sampled E (length (spans st)))].
    split; [reflexivity|]. split.
    + repeat constructor. simpl. apply Nat.eqb_neq. lia.
    + rewrite (recording_at_lookup sp st _ (recording_at_start_child E name sp st HG)).
      reflexivity.
  - intros st0 HG0 sid Hsid. apply served_span_end.
Qed.

End Serving.

(** ** The trailers flag *)

Section Flag.
Context (U : util) (self : config) (E : env) (c : nat) (m : message).

Lemma flag_step_refl (st : state) : flag_step E c m st st.
Proof. now left. Qed.

Lemma flag_step_trans (x y z : state) :
  flag_step E c m x y -> flag_step E c m y z -> flag_step E c m x z.
Proof.
  unfold flag_step. intros [H1|(S1 & T1 & F1)] [H2|(S2 & T2 & F2)].
  - left. congruence.
  - right. auto.
  - right. repeat split; congruence.
  - right. auto.
Qed.

Lemma flag_step_same {A} (f : M A) :
  (forall st, spans (f st).1 = spans st
              /\ expecting_trailers (f st).1 = expecting_trailers st) ->
  respects (sampled_as_decided E c) (flag_step E c m) f.
Proof.
  intros Hf st HG. destruct (Hf st) as [Hs He]. split.
  - unfold sampled_as_decided. now rewrite Hs.
  - now left.
Qed.

Lemma flag_send_span (sp : nat) :
  respects (sampled_as_decided E c) (flag_step E c m)
    (use_span c true (otel_send_block U self E sp (send E) m c)).
Proof.
  apply respects_use_span.
  - apply flag_step_refl.
  - apply flag_step_trans.
  - intros e _. now apply flag_step_same.
  - intros _ st HG. split; [|now left].
    intros s. simpl. rewrite list_lookup_alter_eq.
    destruct (spans st !! c) as [s0|] eqn:Hs0; [|discriminate].
    intros [= <-]. simpl. now apply HG.
  - apply respects_otel_send_block.
    + apply flag_step_refl.
    + apply flag_step_trans.
    + intros e _. now apply flag_step_same.
    + intros v. now apply flag_step_same.
    + intros d. now apply flag_step_same.
    + intros st HG Hrec Hstart st' HG'. split; [exact HG'|].
      right. repeat split; [|exact Hstart].
      unfold recording_at in Hrec.
      destruct (spans st !! c) as [s|] eqn:Hs; [|discriminate].
      rewrite <- (HG s Hs). unfold is_recording in Hrec.
      now apply andb_true_iff in Hrec.
Qed.

End Flag.

Lemma inject_keeps (fields : list (string * string)) (m : message) :
  msg_type (inject fields m) = msg_type m
  /\ msg_more_body (inject fields m) = msg_more_body m
  /\ msg_more_trailers (inject fields m) = msg_more_trailers m.
Proof.
  revert m. induction fields as [|kv fields IH]; intros m; [now repeat split|].
  unfold inject in *. simpl. destruct (IH (ASGISetter.set m kv.1 kv.2)) as (H1 & H2 & H3).
  now rewrite H1, H2, H3.
Qed.

Lemma is_final_propagated (E : env) (sp : nat) (flag : pyval) (m : message) :
  is_final flag (propagated E sp m) = is_final flag m.
Proof.
  unfold propagated. destruct (response_propagator E) as [fields|]; [|reflexivity].
  unfold is_final. destruct (inject_keeps (fields sp) m) as (H1 & H2 & H3).
  now rewrite H1, H2, H3.
Qed.

Lemma is_final_start (flag : pyval) (m : message) :
  msg_type m = "http.response.start" -> is_final flag m = false.
Proof.
  intros Hstart. unfold is_final. rewrite Hstart. simpl.
  now rewrite !andb_false_r.
Qed.

(** One call of the send wrapper: the server span is still there; [end()]
    is called on it once when the call returns and the message is final for
    the flag as it was before the call, and not at all otherwise; the flag
    changes only as [flag_step] allows. *)
Lemma otel_send_step (U : util) (self : config) (E : env) (sp : nat) (name : string)
    (sc : scope) (m : message) (st : state) :
  (sp < length (spans st))%nat ->
  let run := otel_send U self E sp name sc (send E) m st in
  (sp < length (spans run.1))%nat
  /\ count (is_end sp) (log run.1)
     = (count (is_end sp) (log st)
        + match run.2 with
          | Ok _ => Nat.b2n (is_final (expecting_trailers st) m)
          | Raise _ => 0
          end)%nat
  /\ flag_step E (length (spans st)) m st run.1.
Proof.
  intros Hsp run. subst run. unfold otel_send, bind.
  set (block := start_as_current_span E _ _).
  destruct (rely_send_block U self E _ _ (left_alone_rely E sp) sp
              (join " " [name; sc_type sc; "send"]) m st Hsp) as [HG1 [Hcount _]].
  fold block in HG1, Hcount.
  pose proof (yields_start_as_current_span _ E (join " " [name; sc_type sc; "send"]) _
                (otel_send_block_yields U self E sp (send E) m) st) as Hyield.
  fold block in Hyield.
  assert (Hflag : flag_step E (length (spans st)) m st (block st).1).
  { subst block. unfold start_as_current_span, bind.
    change (start_child E (join " " [name; sc_type sc; "send"]) st)
      with ((start_child E (join " " [name; sc_type sc; "send"]) st).1,
            @Ok nat (length (spans st))).
    cbv beta iota.
    set (st0 := (start_child E _ st).1).
    destruct (flag_send_span U self E (length (spans st)) m sp st0) as [_ Hstep].
    - intros s. subst st0. simpl. rewrite list_lookup_middle by reflexivity.
      now intros [= <-].
    - exact Hstep. }
  destruct (block st) as [st1 [m'|e]]; simpl in *.
  - rewrite (Hyield st1 m' eq_refl), is_final_propagated.
    assert (Hsame : is_final (expecting_trailers st1) m
                    = is_final (expecting_trailers st) m).
    { destruct Hflag as [->|(_ & Hstart & _)]; [reflexivity|].
      now rewrite !is_final_start. }
    rewrite Hsame. unfold read. simpl.
    destruct (is_final (expecting_trailers st) m); simpl.
    + split; [now rewrite length_alter|]. split; [|exact Hflag].
      rewrite count_cons. simpl. rewrite Nat.eqb_refl, Hcount. simpl. lia.
    + split; [exact HG1|]. split; [|exact Hflag]. rewrite Hcount. lia.
  - split; [exact HG1|]. split; [|exact Hflag]. rewrite Hcount. lia.
Qed.

(** ** The send wrapper and the end of the server span *)

(** The response with trailers of the specification, under recording send
    spans: the server span (id 0) is not ended by the body chunk, and it is
    ended by the trailers. *)
Example trailers_example :
  let step m st := (otel_send Sample.U Sample.self Sample.E 0 "GET /a"
                      (Sample.http_scope "/a" []) (send Sample.E) m st).1 in
  let st1 := step (Sample.start_event (VInt 200) [] (Some (VBool true)))
                  one_recording_span in
  let st2 := step Sample.body_event st1 in
  let st3 := step Sample.trailers_event st2 in
  expecting_trailers st1 = VBool true
  /\ count (is_end 0) (log st2) = 0%nat
  /\ recording_at 0 st2 = true
  /\ count (is_end 0) (log st3) = 1%nat
  /\ recording_at 0 st3 = false.
Proof. vm_compute. repeat split. Qed.

(** With no recording span after the server span, the flag stays false
    while the application runs on the wrappers. *)
Lemma flag_stays_false (U : util) (self : config) (E : env) (sp : nat)
    (name : string) (sc : scope) :
  (forall n, (sp < n)%nat -> sampled E n = false) ->
  forall (a : app) (st : state),
    (sp < length (spans st))%nat ->
    expecting_trailers st = VBool false ->
    expecting_trailers
      (run_app a (otel_receive U self E name sc (receive E))
         (otel_send U self E sp name sc (send E)) st).1
    = VBool false.
Proof.
  intros Hdrop.
  assert (Hreceive : respects (exists_span sp)
            (fun a b => expecting_trailers b = expecting_trailers a)
            (otel_receive U self E name sc (receive E))).
  { apply respects_otel_receive.
    - reflexivity.
    - intros x y z H1 H2. congruence.
    - intros e _ s Hs. now split.
    - intros n s Hs. split; [|reflexivity].
      unfold exists_span in *. rewrite length_start_child. lia.
    - intros s0 _ sid _ s Hs. split; [|reflexivity].
      unfold exists_span in *. now rewrite length_span_end. }
  induction a as [| e | m k IH | k IH]; intros st Hsp Hfalse; simpl.
  - exact Hfalse.
  - exact Hfalse.
  - destruct (otel_send_step U self E sp name sc m st Hsp) as (Hsp1 & _ & Hflag).
    destruct (otel_send U self E sp name sc (send E) m st) as [st1 r]. simpl in *.
    apply IH; [exact Hsp1|].
    destruct Hflag as [->|(Hyes & _)]; [exact Hfalse|].
    rewrite (Hdrop _ Hsp) in Hyes. discriminate.
  - destruct (Hreceive st Hsp) as [Hsp1 Hflag].
    destruct (otel_receive U self E name sc (receive E) st) as [st1 r]. simpl in *.
    apply IH; [exact Hsp1 | congruence].
Qed.

(** C10.  The send wrapper changes the trailers flag only when its send
    span is recording and the message is an [http.response.start]; under a
    send span that is not recording the flag stays as it was.  So, when no
    span started after the server span records, the flag is still false
    after the application has run on the wrappers, whatever it sent; and
    with the flag false a body chunk without [more_body] whose send returns
    makes the wrapper end the server span, trailers announced or not. *)
Theorem trailers_flag_needs_recording_send_span (U : util) (self : config) (E : env)
    (sp : nat) (name : string) (sc : scope) (m : message) (st : state) :
  (sp < length (spans st))%nat ->
  let wrapped_send := otel_send U self E sp name sc (send E) in
  let wrapped_receive := otel_receive U self E name sc (receive E) in
  let run := wrapped_send m st in
  let send_span := length (spans st) in
  (expecting_trailers run.1 <> expecting_trailers st ->
   sampled E send_span = true /\ msg_type m = "http.response.start"
   /\ expecting_trailers run.1 = get_flag (msg_trailers m))
  /\ (sampled E send_span = false ->
      expecting_trailers run.1 = expecting_trailers st)
  /\ ((forall n, (sp < n)%nat -> sampled E n = false) ->
      expecting_trailers st = VBool false ->
      forall a : app,
        expecting_trailers (run_app a wrapped_receive wrapped_send st).1 = VBool false)
  /\ (expecting_trailers st = VBool false ->
      msg_type m = "http.response.body" ->
      truthy (get_flag (msg_more_body m)) = false ->
      run.2 = Ok tt ->
      count (is_end sp) (log run.1) = S (count (is_end sp) (log st))).
Proof.
  intros Hsp wrapped_send wrapped_receive run send_span.
  destruct (otel_send_step U self E sp name sc m st Hsp) as (_ & Hcount & Hflag).
  fold wrapped_send in Hcount, Hflag. fold run in Hcount, Hflag.
  split; [|split; [|split]].
  - intros Hne. destruct Hflag as [Hsame|Hset]; [contradiction | exact Hset].
  - intros Hno. destruct Hflag as [Hsame|(Hyes & _)]; [exact Hsame|].
    subst send_span. congruence.
  - intros Hdrop Hfalse a. now apply flag_stays_false.
  - intros Hfalse Hbody Hmore Hok. rewrite Hcount, Hok.
    unfold is_final. rewrite Hfalse, Hbody, Hmore. simpl. lia.
Qed.

(** A start of response that announces trailers, sent under a sampler that
    keeps the server span and drops every later one: the flag stays false,
    after this message and after a whole response. *)
Lemma trailers_flag_needs_recording_send_span_witness :
  let E := Sample.E_sampling (fun n => Nat.eqb n 0) in
  let sc := Sample.http_scope "/a" [] in
  let wrapped_send := otel_send Sample.U Sample.self E 0 "GET /a" sc (send E) in
  let wrapped_receive := otel_receive Sample.U Sample.self E "GET /a" sc (receive E) in
  expecting_trailers
    (wrapped_send (Sample.start_event (VInt 200) [] (Some (VBool true)))
       one_recording_span).1
  = VBool false
  /\ expecting_trailers
       (run_app Sample.announcing_app wrapped_receive wrapped_send
          one_recording_span).1
     = VBool false.
Proof.
  intros E sc wrapped_send wrapped_receive.
  assert (Hsp : (0 < length (spans one_recording_span))%nat) by (simpl; lia).
  destruct (trailers_flag_needs_recording_send_span Sample.U Sample.self
              E 0 "GET /a" sc
              (Sample.start_event (VInt 200) [] (Some (VBool true)))
              one_recording_span Hsp) as (_ & Hkeep & Hrun & _).
  split; [exact (Hkeep eq_refl)|].
  apply Hrun; [|reflexivity].
  intros [|n] Hn; [lia | reflexivity].
Defined.

(** The claim C1 fails when the send spans are not recording.  The same
    response as in [trailers_example], whose start announces trailers: the
    sends return, trailers do not become expected, and the body chunk
    already ends the server span. *)
Lemma announced_trailers_ignored :
  let E := Sample.E_sampling (fun n => Nat.eqb n 0) in
  let wrapped := otel_send Sample.U Sample.self E 0 "GET /a"
                   (Sample.http_scope "/a" []) (send E) in
  let start := Sample.start_event (VInt 200) [] (Some (VBool true)) in
  let run1 := wrapped start one_recording_span in
  let run2 := wrapped Sample.body_event run1.1 in
  msg_type start = "http.response.start"
  /\ msg_trailers start = Some (VBool true)
  /\ run1.2 = Ok tt
  /\ expecting_trailers run1.1 = VBool false
  /\ count (is_end 0) (log run1.1) = 0%nat
  /\ run2.2 = Ok tt
  /\ count (is_end 0) (log run2.1) = 1%nat
  /\ recording_at 0 run2.1 = false.
Proof. vm_compute. repeat split. Qed.

(** ** Requests that are passed through *)

Lemma only_transport_refl (st : state) : only_transport st st.
Proof. repeat split. exists []. split; [reflexivity | constructor]. Qed.

Lemma only_transport_trans (a b c : state) :
  only_transport a b -> only_transport b c -> only_transport a c.
Proof.
  intros ((n1 & L1 & F1) & S1 & C1 & T1 & D1) ((n2 & L2 & F2) & S2 & C2 & T2 & D2).
  repeat split; try congruence.
  exists (n2 ++ n1)%list. split.
  - rewrite L2, L1. now rewrite app_assoc.
  - now apply Forall_app.
Qed.

Lemma only_transport_emit (e : event) (st : state) :
  is_transport e = true -> only_transport st (emit e st).1.
Proof. intros He. repeat split. exists [e]. split; [reflexivity | now repeat constructor]. Qed.

(** The application on the transport's own [receive] and [send]. *)
Lemma run_app_only_transport (E : env) (a : app) :
  respects (fun _ => True) only_transport (run_app a (receive E) (send E)).
Proof.
  apply respects_run_app.
  - apply only_transport_refl.
  - apply only_transport_trans.
  - intros st _. split; [exact I|]. now apply only_transport_emit.
  - intros m st _. split; [exact I|].
    unfold send, bind, read. simpl.
    destruct (transport_send E (length (log st)) m); now apply only_transport_emit.
Qed.

(** C4.  For a scope whose type is neither [http] nor [websocket], and for
    a scope whose URL is excluded, [__call__] is the application run on the
    receive and send it was given, unwrapped: every event of the run is a
    call on the transport (no span is started or ended, no metric
    instrument is called, nothing is attached or detached), and the spans,
    the cached content length and the closure variables are as before. *)
Theorem unsupported_or_excluded_bypass (U : util) (self : config) (E : env)
    (sc : scope) (a : app) (st : state) :
  supported sc = false \/ url_disabled self sc = true ->
  __call__ U self E sc a st = run_app a (receive E) (send E) st
  /\ only_transport st (__call__ U self E sc a st).1.
Proof.
  intros Hskip.
  assert (Heq : __call__ U self E sc a st = run_app a (receive E) (send E) st).
  { unfold __call__, bind, read. simpl.
    destruct (supported sc); simpl; [|reflexivity].
    destruct Hskip as [Hs | ->]; [discriminate | reflexivity]. }
  split; [exact Heq|]. rewrite Heq.
  now apply run_app_only_transport.
Qed.

(** A [lifespan] scope: the application's two events are the only ones. *)
Lemma unsupported_or_excluded_bypass_witness :
  let sc := {| sc_type := "lifespan"; sc_scheme := None; sc_server := None;
               sc_root_path := None; sc_path := None; sc_query_string := None;
               sc_http_version := None; sc_method := None; sc_headers := None;
               sc_client := None; sc_route_path_format := None |} in
  only_transport Sample.initial
    (__call__ Sample.U Sample.self Sample.E sc (Sample.plain_app []) Sample.initial).1.
Proof.
  intros sc.
  exact (proj2 (unsupported_or_excluded_bypass Sample.U Sample.self Sample.E sc
                  (Sample.plain_app []) Sample.initial (or_introl eq_refl))).
Defined.

(** ** The cached content length *)

(** C5 fails on the code.  The content length cached while the first
    request was served is still on the instance when the second request
    ends, and is recorded as the size of the second response; a new instance
    records no response size for that request. *)
Example content_length_leaks_into_next_request :
  content_length_header after_first_request = Some 42
  /\ List.filter is_response_size_record
       (added after_first_request (second_request after_first_request))
     = [EvRecord server_response_size_histogram 42
          [("http.scheme", VStr "http"); ("http.host", VStr "example.com");
           ("net.host.port", VInt 80); ("http.flavor", VStr "1.1");
           ("http.method", VStr "GET"); ("http.status_code", VInt 200)]]
  /\ List.filter is_response_size_record
       (added Sample.initial (second_request Sample.initial))
     = [].
Proof. vm_compute. repeat split. Qed.

(** ** Floats and rounding *)

Lemma digits2_size (p : positive) : digits2_pos p = Pos.size p.
Proof. induction p; simpl; now rewrite ?IHp. Qed.

Lemma digits_upper (p : positive) : Zpos p < 2 ^ Zpos (digits2_pos p).
Proof.
  rewrite digits2_size. pose proof (Pos.size_gt p) as H.
  apply Pos2Z.pos_lt_pos in H. now rewrite Pos2Z.inj_pow in H.
Qed.

Lemma Zdigits2_le (z k : Z) : 0 <= z < 2 ^ k -> 0 <= k -> Zdigits2 z <= k.
Proof.
  intros [Hlo Hhi] Hk. destruct z as [|p|p]; simpl; [lia| |lia].
  rewrite digits2_size.
  destruct (Z_lt_le_dec k (Zpos (Pos.size p))) as [Hlt|]; [|lia].
  exfalso. pose proof (Pos.size_le p) as H.
  apply Pos2Z.pos_le_pos in H. rewrite Pos2Z.inj_pow in H.
  change (Zpos p~0) with (2 * Zpos p) in H.
  assert (2 ^ (k + 1) <= 2 ^ Zpos (Pos.size p)) by (apply Z.pow_le_mono_r; lia).
  rewrite Z.pow_add_r in * by lia. lia.
Qed.

Lemma shr_1_half (mrs : shr_record) :
  0 <= shr_m mrs -> shr_m (shr_1 mrs) = shr_m mrs / 2.
Proof.
  destruct mrs as [m r s]. simpl. intros Hm. rewrite <- Z.div2_div.
  destruct m as [|[p|p|]|p]; try reflexivity. lia.
Qed.

Lemma iter_shr_1 (p : positive) :
  forall mrs, 0 <= shr_m mrs ->
    shr_m (SpecFloat.iter_pos shr_1 p mrs) = shr_m mrs / 2 ^ Zpos p.
Proof.
  induction p as [p IH|p IH|]; intros mrs Hm; simpl SpecFloat.iter_pos.
  - assert (H1 : 0 <= shr_m (shr_1 mrs))
      by (rewrite shr_1_half by exact Hm; apply Z.div_pos; lia).
    assert (H2 : 0 <= shr_m (SpecFloat.iter_pos shr_1 p (shr_1 mrs)))
      by (rewrite IH by exact H1; apply Z.div_pos; lia).
    rewrite IH, IH, shr_1_half by assumption.
    rewrite !Z.div_div by lia. f_equal.
    replace (Zpos p~1) with (1 + Zpos p + Zpos p) by lia.
    rewrite !Z.pow_add_r by lia. change (2 ^ 1) with 2. lia.
  - assert (H1 : 0 <= shr_m (SpecFloat.iter_pos shr_1 p mrs))
      by (rewrite IH by exact Hm; apply Z.div_pos; lia).
    rewrite IH, IH by assumption.
    rewrite !Z.div_div by lia. f_equal.
    replace (Zpos p~0) with (Zpos p + Zpos p) by lia.
    rewrite Z.pow_add_r by lia. reflexivity.
  - rewrite shr_1_half by exact Hm. reflexivity.
Qed.

Lemma half_bound (m k n : Z) :
  0 <= m < 2 ^ k -> 0 <= k -> 0 < n -> 0 <= m / 2 ^ n < 2 ^ Z.max (k - n) 0.
Proof.
  intros [Hlo Hhi] Hk Hn.
  assert (Hp : 0 < 2 ^ n) by (apply Z.pow_pos_nonneg; lia).
  split; [apply Z.div_pos; lia|].
  apply Z.div_lt_upper_bound; [exact Hp|].
  rewrite <- Z.pow_add_r by lia.
  eapply Z.lt_le_trans; [exact Hhi|]. apply Z.pow_le_mono_r; lia.
Qed.

(** The first step of rounding: the exponent is raised to the one the
    format gives the number, and the mantissa shifted accordingly. *)
Lemma shr_fexp_bound (m e k : Z) (l : location) :
  0 <= m < 2 ^ k -> 0 <= k ->
  let r := shr_fexp 53 1024 m e l in
  e <= r.2 /\ r.2 <= Z.max e (Z.max (k + e - 53) (-1074))
  /\ 0 <= shr_m r.1 < 2 ^ Z.max (k + e - r.2) 0.
Proof.
  intros Hm Hk r. subst r. unfold shr_fexp, shr.
  pose proof (Zdigits2_le m k Hm Hk) as Hd.
  assert (Hd0 : 0 <= Zdigits2 m) by (destruct m; simpl; lia).
  assert (Hf : fexp 53 1024 (Zdigits2 m + e) = Z.max (Zdigits2 m + e - 53) (-1074))
    by reflexivity.
  assert (Hrec : shr_m (shr_record_of_loc m l) = m) by (now destruct l as [|[]]).
  destruct (fexp 53 1024 (Zdigits2 m + e) - e) as [|n|n] eqn:Hn; simpl.
  - rewrite Hrec. split; [lia|]. split; [lia|].
    replace (Z.max (k + e - e) 0) with k by lia. exact Hm.
  - rewrite iter_shr_1 by (rewrite Hrec; lia). rewrite Hrec.
    split; [lia|]. split; [lia|].
    replace (k + e - (e + Zpos n)) with (k - Zpos n) by lia.
    apply half_bound; lia.
  - rewrite Hrec. split; [lia|]. split; [lia|].
    replace (Z.max (k + e - e) 0) with k by lia. exact Hm.
Qed.

Lemma round_nearest_even_bound (m : Z) (l : location) :
  0 <= m -> m <= round_nearest_even m l <= m + 1.
Proof.
  intros Hm. destruct l as [|[]]; simpl; try lia.
  destruct (Z.even m); lia.
Qed.

Lemma pow2_succ (k : Z) : 0 <= k -> 2 ^ k + 1 <= 2 ^ (k + 1).
Proof.
  intros Hk. rewrite Z.pow_add_r by lia. change (2 ^ 1) with 2.
  assert (0 < 2 ^ k) by (apply Z.pow_pos_nonneg; lia). lia.
Qed.

(** Rounding a number below [2 ^ (k + e)] to the format: the result is
    finite, and below [2 ^ (k + e + 1)]. *)
Lemma round_aux_below (s : bool) (m : positive) (e k : Z) :
  Zpos m < 2 ^ k -> 0 <= k -> e <= 971 -> k + e <= 1023 ->
  below (binary_round_aux 53 1024 s (Zpos m) e loc_Exact) (Z.max (k + e) (-1074) + 1).
Proof.
  intros Hm Hk He Hke. unfold binary_round_aux.
  assert (Hm0 : 0 <= Zpos m < 2 ^ k) by lia.
  destruct (shr_fexp_bound (Zpos m) e k loc_Exact Hm0 Hk) as (Hlo1 & Hhi1 & Hm1).
  destruct (shr_fexp 53 1024 (Zpos m) e loc_Exact) as [mrs1 e1]. simpl in Hlo1, Hhi1, Hm1.
  set (m1 := round_nearest_even (shr_m mrs1) (loc_of_shr_record mrs1)).
  pose proof (round_nearest_even_bound (shr_m mrs1) (loc_of_shr_record mrs1)
                (proj1 Hm1)) as Hr.
  fold m1 in Hr.
  set (k1 := Z.max (k + e - e1) 0 + 1).
  assert (Hm1' : 0 <= m1 < 2 ^ k1).
  { split; [lia|]. subst k1.
    pose proof (pow2_succ (Z.max (k + e - e1) 0)). lia. }
  assert (Hk1 : 0 <= k1) by (subst k1; lia).
  destruct (shr_fexp_bound m1 e1 k1 loc_Exact Hm1' Hk1) as (Hlo2 & Hhi2 & Hm2).
  destruct (shr_fexp 53 1024 m1 e1 loc_Exact) as [mrs2 e2]. simpl in Hlo2, Hhi2, Hm2.
  destruct (shr_m mrs2) as [|p|p] eqn:Hp; [exact I| |lia].
  assert (He2 : e2 <= 971) by (subst k1; lia).
  replace (e2 <=? 1024 - 53) with true by (symmetry; apply Z.leb_le; lia).
  simpl. split; [|exact He2].
  assert (Hpos : 0 <= Z.max (k1 + e1 - e2) 0) by lia.
  pose proof (Zdigits2_le (Zpos p) _ Hm2 Hpos) as Hd. simpl in Hd.
  subst k1. lia.
Qed.

Lemma iter_xO (m d : positive) : Zpos (Pos.iter xO m d) = Zpos m * 2 ^ Zpos d.
Proof.
  induction d as [|d IH] using Pos.peano_ind.
  - simpl. lia.
  - rewrite Pos.iter_succ, Pos2Z.inj_xO, IH, Pos2Z.inj_succ, Z.pow_succ_r by lia. lia.
Qed.

Lemma shl_align_spec (m : positive) (e e' : Z) :
  let r := shl_align m e e' in
  r.2 = Z.min e e' /\ Zpos r.1 = Zpos m * 2 ^ (e - r.2).
Proof.
  unfold shl_align. destruct (e' - e) as [|d|d] eqn:Hd; simpl.
  - split; [lia|]. rewrite Z.sub_diag. simpl. lia.
  - split; [lia|]. rewrite Z.sub_diag. simpl. lia.
  - split; [lia|]. rewrite iter_xO. f_equal. f_equal. lia.
Qed.

Lemma binary_round_below (s : bool) (m : positive) (e k : Z) :
  Zpos m < 2 ^ k -> 0 <= k -> e <= 971 -> k + e <= 1023 ->
  below (binary_round 53 1024 s m e) (Z.max (k + e) (-1074) + 1).
Proof.
  intros Hm Hk He Hke. unfold binary_round.
  destruct (shl_align_spec m e (fexp 53 1024 (Zpos (digits2_pos m) + e))) as [He' Hm'].
  destruct (shl_align m e _) as [mz ez]. simpl in He', Hm'.
  assert (Hez : ez <= e) by lia.
  replace (Z.max (k + e) (-1074)) with (Z.max ((k + (e - ez)) + ez) (-1074)) by (f_equal; lia).
  apply round_aux_below; try lia.
  rewrite Hm', Z.pow_add_r by lia.
  apply Z.mul_lt_mono_pos_r; [apply Z.pow_pos_nonneg; lia | exact Hm].
Qed.

Lemma binary_normalize_below (m e k : Z) :
  Z.abs m < 2 ^ k -> 0 <= k -> e <= 971 -> k + e <= 1023 ->
  below (binary_normalize 53 1024 m e false) (Z.max (k + e) (-1074) + 1).
Proof.
  intros Hm Hk He Hke. destruct m as [|p|p]; simpl; [exact I| |];
    apply binary_round_below; simpl in Hm; lia.
Qed.

(** The difference of two floats below [2 ^ T] is finite and below
    [2 ^ (T + 2)]. *)
Lemma fsub_below (x y : float) (T : Z) :
  below x T -> below y T -> -1074 <= T <= 1021 -> below (fsub x y) (T + 2).
Proof.
  intros Hx Hy HT.
  destruct x as [sx| | |sx mx ex], y as [sy| | |sy my ey]; simpl in Hx, Hy; try contradiction.
  - now destruct sx, sy.
  - simpl. lia.
  - simpl. lia.
  - unfold fsub, SFsub. set (ez := Z.min ex ey).
    destruct (shl_align_spec mx ex ez) as [Hex Hmx].
    destruct (shl_align_spec my ey ez) as [Hey Hmy].
    destruct (shl_align mx ex ez) as [ax ex'], (shl_align my ey ez) as [ay ey'].
    simpl in *.
    assert (Hxz : ex' = ez) by lia. assert (Hyz : ey' = ez) by lia.
    clear Hex Hey. subst ex' ey'.
    pose proof (digits_upper mx) as Hdx. pose proof (digits_upper my) as Hdy.
    assert (Hpx : 0 < 2 ^ (ex - ez)) by (apply Z.pow_pos_nonneg; lia).
    assert (Hpy : 0 < 2 ^ (ey - ez)) by (apply Z.pow_pos_nonneg; lia).
    assert (Hax : Zpos ax < 2 ^ (T - ez)).
    { rewrite Hmx. eapply Z.lt_le_trans.
      - apply Z.mul_lt_mono_pos_r; [exact Hpx | exact Hdx].
      - rewrite <- Z.pow_add_r by lia. apply Z.pow_le_mono_r; lia. }
    assert (Hay : Zpos ay < 2 ^ (T - ez)).
    { rewrite Hmy. eapply Z.lt_le_trans.
      - apply Z.mul_lt_mono_pos_r; [exact Hpy | exact Hdy].
      - rewrite <- Z.pow_add_r by lia. apply Z.pow_le_mono_r; lia. }
    assert (Htop : 0 <= T - ez) by lia.
    replace (T + 2) with (Z.max ((T - ez + 1) + ez) (-1074) + 1) by lia.
    apply binary_normalize_below; try lia.
    rewrite Z.pow_add_r by lia. change (2 ^ 1) with 2.
    destruct sx, sy; simpl; lia.
Qed.

(** A float below [2 ^ T] times 1000 is finite. *)
Lemma fmul_thousand_below (x : float) (T : Z) :
  below x T -> -1074 <= T <= 1013 -> below (fmul x thousand) (T + 11).
Proof.
  intros Hx HT. destruct x as [sx| | |sx mx ex]; simpl in Hx; try contradiction.
  - exact I.
  - unfold fmul, thousand, SFmul.
    pose proof (digits_upper mx) as Hdx.
    set (d := Zpos (digits2_pos mx)) in *.
    assert (Hd : 0 < d) by (subst d; lia).
    replace (T + 11) with (Z.max ((d + 53) + (ex + -43)) (-1074) + (T + 11 - Z.max (d + ex + 10) (-1074)))
      by lia.
    assert (Hprod : Zpos (mx * 8796093022208000) < 2 ^ (d + 53)).
    { rewrite Pos2Z.inj_mul, Z.pow_add_r by lia.
      assert (Zpos 8796093022208000 < 2 ^ 53) by reflexivity.
      apply Z.mul_lt_mono_nonneg; lia. }
    pose proof (round_aux_below (xorb sx false) (mx * 8796093022208000) (ex + -43) (d + 53)
                  Hprod ltac:(lia) ltac:(lia) ltac:(lia)) as Hr.
    destruct (binary_round_aux 53 1024 _ _ _ _) as [| | |s m e]; simpl in *; try tauto.
    lia.
Qed.

Lemma reading_below (r : reading) : below (seconds r) 1000.
Proof.
  destruct r as [x Hx]. simpl. destruct x as [s| | |s m e]; simpl in *; try discriminate.
  - exact I.
  - apply andb_true_iff in Hx as [Hb Ht]. unfold bounded in Hb.
    apply andb_true_iff in Hb as [_ He]. apply Z.leb_le in Ht, He.
    change (1024 - 53) with 971 in He. now split.
Qed.

(** The product whose rounding is the duration is zero or finite. *)
Lemma elapsed_below (start stop : reading) :
  below (fmul (fsub (seconds stop) (seconds start)) thousand) 1013.
Proof.
  apply (fmul_thousand_below _ 1002); [|lia].
  apply (fsub_below _ _ 1000); [apply reading_below | apply reading_below | lia].
Qed.

Lemma round_returns (x : float) (T : Z) :
  below x T -> round x = Ok (nearest_even (float_value x)).
Proof. destruct x; simpl; intros H; first [reflexivity | contradiction]. Qed.

(** The computation of the duration never raises. *)
Lemma duration_returns (start stop : reading) :
  duration start stop = Ok (duration_ms start stop).
Proof.
  unfold duration_ms, duration.
  now rewrite (round_returns _ _ (elapsed_below start stop)).
Qed.

Lemma nearest_even_close (x : Q) : (Qabs (inject_Z (nearest_even x) - x) <= 1 # 2)%Q.
Proof.
  unfold nearest_even.
  pose proof (Qfloor_le x) as Hlo. pose proof (Qlt_floor x) as Hhi.
  rewrite inject_Z_plus in Hhi. change (inject_Z 1) with 1%Q in Hhi.
  apply Qabs_Qle_condition.
  destruct (Qcompare_spec (x - inject_Z (Qfloor x)) (1 # 2)) as [Heq|Hlt|Hgt].
  - destruct (Z.even (Qfloor x));
      [|rewrite inject_Z_plus; change (inject_Z 1) with 1%Q]; split; lra.
  - split; lra.
  - rewrite inject_Z_plus. change (inject_Z 1) with 1%Q. split; lra.
Qed.

(** Halfway between two integers, the even one is taken. *)
Lemma nearest_even_tie (x : Q) :
  (Qabs (inject_Z (nearest_even x) - x) == 1 # 2)%Q -> Z.even (nearest_even x) = true.
Proof.
  unfold nearest_even.
  pose proof (Qfloor_le x) as Hlo. pose proof (Qlt_floor x) as Hhi.
  rewrite inject_Z_plus in Hhi. change (inject_Z 1) with 1%Q in Hhi.
  destruct (Qcompare_spec (x - inject_Z (Qfloor x)) (1 # 2)) as [Heq|Hlt|Hgt].
  - intros _. destruct (Z.even (Qfloor x)) eqn:He; [exact He|].
    rewrite Z.even_add, He. reflexivity.
  - intros Habs. exfalso.
    rewrite Qabs_neg in Habs by lra. lra.
  - intros Habs. exfalso. rewrite inject_Z_plus in Habs.
    change (inject_Z 1) with 1%Q in Habs.
    rewrite Qabs_pos in Habs by lra. lra.
Qed.

(** The duration, from the two readings: the float product of the float
    difference and 1000 is rounded to the nearest integer, a tie to the even
    one, and a negative result is replaced by zero. *)
Lemma duration_ms_spec (start stop : reading) :
  let elapsed := fmul (fsub (seconds stop) (seconds start)) thousand in
  let rounded := nearest_even (float_value elapsed) in
  round elapsed = Ok rounded
  /\ duration start stop = Ok (duration_ms start stop)
  /\ duration_ms start stop = Z.max rounded 0
  /\ 0 <= duration_ms start stop
  /\ (Qabs (inject_Z rounded - float_value elapsed) <= 1 # 2)%Q
  /\ ((Qabs (inject_Z rounded - float_value elapsed) == 1 # 2)%Q ->
      Z.even rounded = true).
Proof.
  intros elapsed rounded.
  pose proof (round_returns _ _ (elapsed_below start stop)) as Hround.
  fold elapsed in Hround. fold rounded in Hround.
  assert (Hms : duration_ms start stop = Z.max rounded 0).
  { unfold duration_ms, duration. fold elapsed. now rewrite Hround. }
  split; [exact Hround|]. split; [apply duration_returns|].
  split; [exact Hms|]. split; [lia|].
  split; [apply nearest_even_close | apply nearest_even_tie].
Qed.

(** Durations for the start reading [0.0]: a stop at 0.0005 s gives 0 (the
    product is 0.5, a tie), at 0.0015 s gives 2, at 0.0025 s gives 2 (the
    product is 2.5, a tie) and at 1.2 s gives 1200; a stop before the start
    gives 0. *)
Example duration_examples :
  let stop (m : positive) (e : Z) := as_reading (S754_finite false m e) in
  seconds (stop 4611686018427388%positive (-63)) = S754_finite false 4611686018427388%positive (-63)
  /\ duration epoch (stop 4611686018427388%positive (-63)) = Ok 0
  /\ duration epoch (stop 6917529027641082%positive (-62)) = Ok 2
  /\ duration epoch (stop 5764607523034235%positive (-61)) = Ok 2
  /\ duration epoch (stop 5404319552844595%positive (-52)) = Ok 1200
  /\ duration (stop 5404319552844595%positive (-52)) epoch = Ok 0.
Proof. vm_compute. repeat split. Qed.

(** ** The phases of [__call__] *)

Lemma misses_count (q : event -> bool) (l : list event) :
  misses q l -> count q l = 0%nat.
Proof. apply count_none. Qed.

Lemma metrics_miss (q : event -> bool) (l : list event) :
  (forall e, is_metric e = true -> q e = false) ->
  Forall (fun e => is_metric e = true) l -> misses q l.
Proof. intros Hq Hl. unfold misses. eapply Forall_impl; [exact Hl | exact Hq]. Qed.

(** A supported request that is not excluded: [__call__] is [enter], then
    [serve] under [cleanup]. *)
Lemma call_phases (U : util) (self : config) (E : env) (sc : scope) (a : app)
    (st st1 : state) (rq : request) :
  supported sc = true -> url_disabled self sc = false ->
  enter U self E (timer E (length (log st))) sc st = (st1, Ok rq) ->
  __call__ U self E sc a st
  = try_finally (serve U self E rq sc a) (cleanup E rq sc) st1.
Proof.
  intros Hsup Hexcl Henter. unfold __call__.
  unfold bind at 1. unfold read. cbv beta iota.
  rewrite Hsup, Hexcl. cbv beta iota delta [negb].
  unfold bind. now rewrite Henter.
Qed.

(** What [enter] leaves when it returns: one new span, the server span,
    with the sampler's decision; the request context attached unless a span
    was active; the active-request counter incremented for [http]. *)
Lemma enter_spec (U : util) (self : config) (E : env) (start : reading) (sc : scope)
    (st st1 : state) (rq : request) :
  enter U self E start sc st = (st1, Ok rq) ->
  let sp := length (spans st) in
  rq_span rq = sp /\ rq_start rq = start
  /\ (sp < length (spans st1))%nat
  /\ recording_at sp st1 = sampled E sp
  /\ rq_token rq = (if ambient_span E then None else Some (TokCarrier sp))
  /\ exists new,
       log st1 = (new ++ log st)%list
       /\ count (is_start sp) new = 1%nat
       /\ count is_increment new = Nat.b2n (is_http sc)
       /\ misses is_decrement new
       /\ misses is_duration_record new
       /\ misses (is_effective_end sp) new
       /\ misses is_carrier_detach new
       /\ count is_any_start new = 1%nat.
Proof.
  unfold enter. destruct (default_span_details self sc) as [span_name additional].
  unfold bind at 1. unfold lift.
  destruct (collect_request_attributes U sc) as [attributes|e]; [|discriminate].
  unfold _start_internal_or_server_span, bind, read, lift, when, ret. simpl.
  assert (Hrec : forall l k s,
            recording_at (length (spans st))
              {| log := l; spans := (spans st ++ [{| sp_kind := k; sp_sampled := s;
                                                     sp_ended := false |}])%list;
                 content_length_header := content_length_header st;
                 expecting_trailers := expecting_trailers st;
                 duration_attrs := _parse_duration_attrs U
                                     (dict_update attributes additional) |} = s).
  { intros l k s. unfold recording_at. simpl.
    rewrite list_lookup_middle by reflexivity. unfold is_recording. simpl.
    apply andb_true_r. }
  assert (Hlen : (length (spans st) < length (spans st ++ [{| sp_kind := SERVER;
                    sp_sampled := sampled E (length (spans st));
                    sp_ended := false |}])%list)%nat)
    by (rewrite length_app; simpl; lia).
  assert (Hlen' : (length (spans st) < length (spans st ++ [{| sp_kind := INTERNAL;
                    sp_sampled := sampled E (length (spans st));
                    sp_ended := false |}])%list)%nat)
    by (rewrite length_app; simpl; lia).
  destruct (ambient_span E); simpl.
  - destruct (is_http sc); simpl; intros [= <- <-]; simpl;
      (split; [reflexivity|]); (split; [reflexivity|]); (split; [exact Hlen'|]);
      (split; [apply Hrec|]); (split; [reflexivity|]).
    + eexists [_; _]. split; [reflexivity|].
      rewrite !count_cons. simpl. rewrite Nat.eqb_refl.
      repeat split; repeat constructor.
    + eexists [_]. split; [reflexivity|].
      rewrite !count_cons. simpl. rewrite Nat.eqb_refl.
      repeat split; repeat constructor.
  - destruct (extract (extract_fields E) (sc_headers sc)) as [[]|e]; [|discriminate].
    simpl.
    destruct (is_http sc); simpl; intros [= <- <-]; simpl;
      (split; [reflexivity|]); (split; [reflexivity|]); (split; [exact Hlen|]);
      (split; [apply Hrec|]); (split; [reflexivity|]).
    + eexists [_; _; _]. split; [reflexivity|].
      rewrite !count_cons. simpl. rewrite Nat.eqb_refl.
      repeat split; repeat constructor.
    + eexists [_; _]. split; [reflexivity|].
      rewrite !count_cons. simpl. rewrite Nat.eqb_refl.
      repeat split; repeat constructor.
Qed.

(** The metrics of the [finally] block: the spans are untouched; the
    duration is recorded once, with the elapsed time since [rq_start], and
    the active-request counter is decremented once, before the request's
    content length is looked up, which is the only step that can fail. *)
Lemma record_metrics_spec (E : env) (rq : request) (sc : scope) (st : state) :
  let run := record_metrics E rq sc st in
  spans run.1 = spans st
  /\ run.2 = (let? _ := ASGIGetter.get (sc_headers sc) "content-length" in Ok tt)
  /\ exists new,
       log run.1 = (new ++ log st)%list
       /\ Forall (fun e => is_metric e = true) new
       /\ (exists attrs,
             List.filter is_duration_record new
             = [EvRecord duration_histogram
                  (duration_ms (rq_start rq) (timer E (length (log st)))) attrs])
       /\ count is_decrement new = 1%nat
       /\ misses is_increment new.
Proof.
  unfold record_metrics, bind, read, lift, when, with_content_length, int, ret.
  destruct (_collect_target_attribute sc) as [target|]; simpl;
    rewrite duration_returns;
    destruct (content_length_header st) as [cached|]; simpl;
    try destruct (cached =? 0); simpl;
    destruct (ASGIGetter.get (sc_headers sc) "content-length")
      as [[[|value rest]|]|e]; simpl;
    try destruct (int_of_text value) as [amount|]; simpl;
    (split; [reflexivity|]); (split; [reflexivity|]);
    new_events; (split; [repeat constructor|]);
    (split; [eexists; reflexivity|]); (split; [reflexivity|]);
    repeat constructor.
Qed.

Lemma digits_ascii (s : string) :
  forall acc after n, digits acc after s = Some n -> ascii_text s = true.
Proof.
  induction s as [|c r IH]; intros acc after n; [reflexivity|].
  simpl. unfold between.
  destruct ((48 <=? byte c)%N && (byte c <=? 57)%N) eqn:Hd.
  - intros H. rewrite (IH _ _ _ H), andb_true_r.
    apply andb_true_iff in Hd as [_ Hd]. apply N.leb_le in Hd. apply N.ltb_lt. lia.
  - destruct ((byte c =? 95)%N && after) eqn:Hu; [|discriminate].
    intros H. rewrite (IH _ _ _ H), andb_true_r.
    apply andb_true_iff in Hu as [Hu _]. apply N.eqb_eq in Hu. apply N.ltb_lt. lia.
Qed.

Lemma literal_space_ascii (c : ascii) : is_literal_space c = true -> (byte c <? 128)%N = true.
Proof.
  unfold is_literal_space, between. intros H. apply N.ltb_lt.
  apply orb_true_iff in H as [H|H].
  - apply andb_true_iff in H as [_ H]. apply N.leb_le in H. lia.
  - apply N.eqb_eq in H. lia.
Qed.

Lemma skip_left_ascii (s : string) :
  ascii_text (skip_left s) = true -> ascii_text s = true.
Proof.
  induction s as [|c r IH]; [reflexivity|]. simpl.
  destruct (is_literal_space c) eqn:Hc; [|exact id].
  intros H. now rewrite (literal_space_ascii c Hc), (IH H).
Qed.

Lemma skip_right_ascii (s : string) :
  ascii_text (skip_right s) = true -> ascii_text s = true.
Proof.
  induction s as [|c r IH]; [reflexivity|]. simpl.
  destruct (is_literal_space c && negb (nonempty (skip_right r))) eqn:Hc.
  - intros _. apply andb_true_iff in Hc as [Hc Hr].
    rewrite (literal_space_ascii c Hc). apply IH.
    now destruct (skip_right r).
  - simpl. intros [H1 H2]%andb_true_iff. now rewrite H1, (IH H2).
Qed.

(** A text that [int_of_text] reads is made of ASCII characters, on which
    the model of [int] is exact. *)
Lemma int_of_text_ascii (s : string) (n : Z) :
  int_of_text s = Some n -> ascii_text s = true.
Proof.
  unfold int_of_text. intros H.
  apply skip_left_ascii, skip_right_ascii.
  destruct (max_str_digits <? count_digits _)%nat; [discriminate|].
  destruct (skip_right (skip_left s)) as [|c r] eqn:Hl; [reflexivity|].
  assert (Hr : forall m, digits 0 false r = Some m ->
                         (byte c <? 128)%N = true -> ascii_text (String c r) = true).
  { intros m Hm Hc. simpl. now rewrite Hc, (digits_ascii r _ _ _ Hm). }
  destruct c as [[] [] [] [] [] [] [] []];
    try (apply (digits_ascii _ _ _ _ H));
    try (destruct (digits 0 false r) as [m|] eqn:Hm; [|discriminate];
         now apply (Hr m)).
Qed.

Lemma with_content_length_run (values : option (list string)) (use : Z -> M unit)
    (st : state) :
  with_content_length values use st
  = match content_length_of values with
    | Some n => use n st
    | None => (st, Ok tt)
    end.
Proof.
  unfold with_content_length, content_length_of, int.
  destruct values as [[|first rest]|]; try reflexivity.
  now destruct (int_of_text first).
Qed.

Lemma record_metrics_records (E : env) (rq : request) (sc : scope) (st : state) :
  let run := record_metrics E rq sc st in
  let attrs := metric_attrs sc st in
  exists new,
    log run.1 = (new ++ log st)%list
    /\ List.filter is_duration_record new
       = [EvRecord duration_histogram
            (duration_ms (rq_start rq) (timer E (length (log st)))) attrs]
    /\ List.filter is_response_size_record new
       = match content_length_header st with
         | Some n => if n =? 0 then []
                     else [EvRecord server_response_size_histogram n attrs]
         | None => []
         end
    /\ (forall values,
          ASGIGetter.get (sc_headers sc) "content-length" = Ok values ->
          run.2 = Ok tt
          /\ List.filter is_request_size_record new
             = match content_length_of values with
               | Some n => [EvRecord server_request_size_histogram n attrs]
               | None => []
               end).
Proof.
  unfold record_metrics, metric_attrs, bind, read, lift, when, ret.
  rewrite ?with_content_length_run.
  destruct (_collect_target_attribute sc) as [target|]; simpl;
    rewrite duration_returns;
    destruct (content_length_header st) as [cached|]; simpl;
    try destruct (cached =? 0); simpl;
    destruct (ASGIGetter.get (sc_headers sc) "content-length") as [values|e]; simpl;
    rewrite ?with_content_length_run;
    try destruct (content_length_of values) as [amount|] eqn:Hamount; simpl;
    new_events; (split; [reflexivity|]); (split; [reflexivity|]);
    intros values' [= <-]; try rewrite Hamount; try discriminate;
    split; reflexivity.
Qed.

(** The end of the [finally] block never fails; it detaches the request
    context if there is one and calls [end()] on the server span exactly
    when the span still records, which ends it. *)
Lemma release_spec (rq : request) (st : state) :
  let sp := rq_span rq in
  let run := release rq st in
  run.2 = Ok tt
  /\ recording_at sp run.1 = false
  /\ exists new,
       log run.1 = (new ++ log st)%list
       /\ misses is_metric new
       /\ misses is_any_start new
       /\ misses (is_idle_end sp) new
       /\ count (is_effective_end sp) new = Nat.b2n (recording_at sp st)
       /\ count is_carrier_detach new
          = match rq_token rq with Some (TokCarrier _) => 1%nat | _ => 0%nat end.
Proof.
  intros sp run. subst run. unfold release, bind, read, when, ret.
  assert (Hend : forall l, recording_at sp
            (span_end sp {| log := l; spans := spans st;
                            content_length_header := content_length_header st;
                            expecting_trailers := expecting_trailers st;
                            duration_attrs := duration_attrs st |}).1 = false)
    by (intros l; apply recording_at_span_end).
  destruct (rq_token rq) as [[carrier|child]|]; simpl;
    fold sp;
    change (recording_at sp {| log := _; spans := spans st;
              content_length_header := _; expecting_trailers := _;
              duration_attrs := _ |}) with (recording_at sp st);
    destruct (recording_at sp st) eqn:Hrec; simpl.
  all: split; [reflexivity|].
  all: split; [first [apply Hend | exact Hrec]|].
  all: try (change (recording_at sp {| log := _; spans := spans st;
              content_length_header := _; expecting_trailers := _;
              duration_attrs := _ |}) with (recording_at sp st); rewrite Hrec).
  all: new_events; rewrite ?count_cons; simpl; rewrite ?Nat.eqb_refl;
    repeat split; repeat constructor; simpl; rewrite ?Nat.eqb_refl; reflexivity.
Qed.

Lemma misses_app (q : event -> bool) (l1 l2 : list event) :
  misses q l1 -> misses q l2 -> misses q (l1 ++ l2)%list.
Proof. intros H1 H2. now apply Forall_app. Qed.

Lemma misses_filter (q : event -> bool) (l : list event) :
  misses q l -> List.filter q l = [].
Proof.
  induction 1 as [|e l He _ IH]; [reflexivity|]. simpl. now rewrite He.
Qed.

Lemma misses_weaken (q q' : event -> bool) (l : list event) :
  (forall e, q e = true -> q' e = true) -> misses q' l -> misses q l.
Proof.
  intros Hq Hl. unfold misses in *. eapply Forall_impl; [exact Hl|].
  intros e He. simpl in He. destruct (q e) eqn:Hqe; [|reflexivity].
  rewrite (Hq e Hqe) in He. discriminate.
Qed.

(** The [finally] block.  It fails only for an [http] scope whose
    content-length lookup fails, after the metrics were recorded and before
    the context is detached and the span ended. *)
Lemma cleanup_spec (E : env) (rq : request) (sc : scope) (st : state) :
  let sp := rq_span rq in
  let run := cleanup E rq sc st in
  let lookup := if is_http sc
                then ASGIGetter.get (sc_headers sc) "content-length"
                else Ok None in
  exists new,
    log run.1 = (new ++ log st)%list
    /\ misses is_increment new
    /\ misses is_any_start new
    /\ misses (is_idle_end sp) new
    /\ count is_decrement new = Nat.b2n (is_http sc)
    /\ (exists attrs,
          List.filter is_duration_record new
          = if is_http sc
            then [EvRecord duration_histogram
                    (duration_ms (rq_start rq) (timer E (length (log st)))) attrs]
            else [])
    /\ match lookup with
       | Ok _ =>
         run.2 = Ok tt
         /\ recording_at sp run.1 = false
         /\ count (is_effective_end sp) new = Nat.b2n (recording_at sp st)
         /\ count is_carrier_detach new
            = match rq_token rq with Some (TokCarrier _) => 1%nat | _ => 0%nat end
       | Raise e =>
         run.2 = Raise e
         /\ recording_at sp run.1 = recording_at sp st
         /\ misses (is_effective_end sp) new
         /\ misses is_carrier_detach new
       end.
Proof.
  intros sp run lookup. subst run lookup. unfold cleanup, bind, when.
  destruct (is_http sc).
  - destruct (record_metrics_spec E rq sc st)
      as (Hspans & Hres & new_m & Hlog & Hmet & (attrs & Hdur) & Hdec & Hinc).
    destruct (record_metrics E rq sc st) as [st_m r_m]. simpl in Hspans, Hres, Hlog.
    subst r_m.
    assert (Hsame : recording_at sp st_m = recording_at sp st)
      by (unfold recording_at; now rewrite Hspans).
    destruct (ASGIGetter.get (sc_headers sc) "content-length") as [v|e]; simpl.
    + destruct (release_spec rq st_m)
        as (Hok & Hrec & new_r & Hlog_r & Hm & Hs & Hi & He & Hd).
      fold sp in Hrec, Hs, Hi, He.
      destruct (release rq st_m) as [st_r r_r]. simpl in Hok, Hrec, Hlog_r |- *.
      exists (new_r ++ new_m)%list.
      split; [rewrite Hlog_r, Hlog; now rewrite app_assoc|].
      split; [apply misses_app; [|exact Hinc];
              apply (misses_weaken _ is_metric); [by_event|exact Hm]|].
      split; [apply misses_app; [exact Hs|];
              (eapply metrics_miss; [by_event | exact Hmet])|].
      split; [apply misses_app; [exact Hi|];
              (eapply metrics_miss; [by_event | exact Hmet])|].
      split.
      { rewrite count_app, Hdec.
        rewrite (misses_count is_decrement new_r); [reflexivity|].
        apply (misses_weaken _ is_metric); [by_event|exact Hm]. }
      split.
      { exists attrs. rewrite List.filter_app, Hdur.
        rewrite (misses_filter is_duration_record new_r); [reflexivity|].
        apply (misses_weaken _ is_metric); [by_event|exact Hm]. }
      split; [exact Hok|]. split; [exact Hrec|]. split.
      { rewrite count_app, He, Hsame.
        rewrite (misses_count (is_effective_end sp) new_m); [lia|].
        (eapply metrics_miss; [by_event | exact Hmet]). }
      rewrite count_app, Hd.
      rewrite (misses_count is_carrier_detach new_m); [lia|].
      (eapply metrics_miss; [by_event | exact Hmet]).
    + exists new_m.
      split; [exact Hlog|]. split; [exact Hinc|].
      split; [(eapply metrics_miss; [by_event | exact Hmet])|].
      split; [(eapply metrics_miss; [by_event | exact Hmet])|].
      split; [exact Hdec|]. split; [now exists attrs|].
      split; [reflexivity|]. split; [exact Hsame|].
      split; (eapply metrics_miss; [by_event | exact Hmet]).
  - simpl.
    destruct (release_spec rq st)
      as (Hok & Hrec & new_r & Hlog_r & Hm & Hs & Hi & He & Hd).
    fold sp in Hrec, Hs, Hi, He.
    destruct (release rq st) as [st_r r_r]. simpl in Hok, Hrec, Hlog_r |- *.
    exists new_r.
    split; [exact Hlog_r|].
    split; [apply (misses_weaken _ is_metric); [by_event|exact Hm]|].
    split; [exact Hs|]. split; [exact Hi|].
    split.
    { apply misses_count. apply (misses_weaken _ is_metric); [by_event|exact Hm]. }
    split.
    { exists []. apply misses_filter.
      apply (misses_weaken _ is_metric); [by_event|exact Hm]. }
    repeat split; assumption.
Qed.

(** The record of the duration in the [finally] block: the value comes from
    the reading taken when the block starts, and the attributes are those of
    the duration metric at that moment, with the target. *)
Lemma cleanup_duration (E : env) (rq : request) (sc : scope) (st : state) :
  exists new,
    log (cleanup E rq sc st).1 = (new ++ log st)%list
    /\ List.filter is_duration_record new
       = if is_http sc
         then [EvRecord duration_histogram
                 (duration_ms (rq_start rq) (timer E (length (log st))))
                 (metric_attrs sc st)]
         else [].
Proof.
  unfold cleanup, bind, when. destruct (is_http sc).
  - destruct (record_metrics_records E rq sc st) as (new & Hlog & Hd & _).
    destruct (record_metrics E rq sc st) as [st1 [[]|e]]; cbn [fst snd] in *.
    + destruct (release_spec rq st1) as (_ & _ & after & Hlog_r & Hm & _).
      exists (after ++ new)%list. split; [now rewrite Hlog_r, Hlog, <- app_assoc|].
      rewrite List.filter_app, Hd.
      rewrite (misses_filter is_duration_record after); [reflexivity|].
      apply (misses_weaken _ is_metric); [by_event | exact Hm].
    + exists new. now split.
  - simpl. destruct (release_spec rq st) as (_ & _ & after & Hlog_r & Hm & _).
    exists after. split; [exact Hlog_r|].
    apply misses_filter. apply (misses_weaken _ is_metric); [by_event | exact Hm].
Qed.

(** ** A whole request *)

(** While the application runs on the wrappers: what [served] says, for the
    server span of the request. *)
Lemma serve_spec (U : util) (self : config) (E : env) (rq : request) (sc : scope)
    (a : app) (st : state) :
  (rq_span rq < length (spans st))%nat ->
  served (rq_span rq) st (serve U self E rq sc a st).1.
Proof.
  intros Hsp.
  apply (rely_serve U self E _ _ (served_rely E (rq_span rq)) rq sc a
           (served_span_end (rq_span rq) (rq_span rq)) st Hsp).
Qed.

Lemma outer_misses (sp : nat) (q : event -> bool) (l : list event) :
  (forall e, q e = true -> is_outer e = true) ->
  Forall (fun e => is_outer e = false /\ is_start sp e = false) l ->
  misses q l.
Proof.
  intros Hq Hl. unfold misses. eapply Forall_impl; [exact Hl|].
  intros e [Ho _]. simpl. destruct (q e) eqn:Hqe; [|reflexivity].
  rewrite (Hq e Hqe) in Ho. discriminate.
Qed.

Lemma start_misses (sp : nat) (l : list event) :
  Forall (fun e => is_outer e = false /\ is_start sp e = false) l ->
  misses (is_start sp) l.
Proof. intros Hl. eapply Forall_impl; [exact Hl|]. now intros e [_ Hs]. Qed.

Lemma set_each_returns (sp : nat) (attributes : dict pyval) (st : state) :
  (set_each sp attributes st).2 = Ok tt.
Proof.
  revert st. induction attributes as [|[key value] rest IH]; intros st; simpl.
  - reflexivity.
  - unfold bind. simpl. apply IH.
Qed.

(** [use_span] lets the outcome of its body through: what it does on an
    exception, and on exit, does not raise. *)
Lemma use_span_outcome {A} (sp : nat) (body : M A) (st : state) :
  (use_span sp false body st).2 = (body (emit (EvAttach (TokSpan sp)) st).1).2.
Proof.
  unfold use_span, try_finally, on_exception, bind, when, read, ret. simpl.
  destruct (body _) as [st1 [x|e]]; simpl; [reflexivity|].
  destruct (recording_at sp _); reflexivity.
Qed.

(** With no request hook and no request headers to capture, nothing in the
    [try] body fails before the application runs: the body's outcome is the
    application's, so that an exception of the application is the exception
    of the body. *)
Lemma serve_outcome (U : util) (self : config) (E : env) (rq : request)
    (sc : scope) (a : app) (st : state) :
  server_request_hook self = None ->
  http_capture_headers_server_request self = [] ->
  exists st_app,
    (serve U self E rq sc a st).2
    = (run_app a (otel_receive U self E (rq_span_name rq) sc (receive E))
         (otel_send U self E (rq_span rq) (rq_span_name rq) sc (send E))
         st_app).2.
Proof.
  intros Hhook Hcapture. unfold serve. rewrite use_span_outcome.
  rewrite Hhook, Hcapture. unfold capture, call_hook, _get_otel_send,
    _get_otel_receive.
  set (st0 := (emit _ st).1).
  unfold bind at 1. unfold read at 1. cbv beta iota.
  unfold bind at 1.
  destruct (recording_at (rq_span rq) st0).
  - unfold when. unfold bind at 1.
    pose proof (set_each_returns (rq_span rq) (rq_attributes rq) st0) as Hset.
    destruct (set_each (rq_span rq) (rq_attributes rq) st0) as [st1 r1].
    simpl in Hset. subst r1.
    unfold bind at 1. unfold read at 1. cbv beta iota.
    destruct (kind_at (rq_span rq) st1); unfold bind, ret; simpl; eexists; reflexivity.
  - unfold when, bind, ret. simpl. eexists; reflexivity.
Qed.

Lemma start_is_any_start (sp : nat) (e : event) :
  is_start sp e = true -> is_any_start e = true.
Proof. destruct e; simpl; intros H; first [discriminate H | reflexivity]. Qed.

(** C2, as the code has it.  Take a request of a supported type that is not
    excluded and for which [enter] returned.  Exactly one span is started
    under the server span's id, which is new; it is the only span that the
    set-up starts, and the [finally] block starts none, so that every other
    span of the request is started by a wrapper that the application calls.
    The server span goes from recording to ended at most once; when the
    [finally] block completes, it does so exactly once if the span was
    sampled and never if it was not, and the span no longer records
    afterwards.  The [finally] block never calls [end()] on a span that is
    not recording. *)
Theorem server_span_created_and_ended_once (U : util) (self : config) (E : env)
    (sc : scope) (a : app) (st st1 : state) (rq : request) :
  supported sc = true -> url_disabled self sc = false ->
  enter U self E (timer E (length (log st))) sc st = (st1, Ok rq) ->
  let sp := rq_span rq in
  let run := __call__ U self E sc a st in
  let lookup := if is_http sc
                then ASGIGetter.get (sc_headers sc) "content-length"
                else Ok None in
  sp = length (spans st)
  /\ count (is_start sp) (log run.1) = S (count (is_start sp) (log st))
  /\ count is_any_start (log st1) = S (count is_any_start (log st))
  /\ (count (is_effective_end sp) (log run.1)
      <= S (count (is_effective_end sp) (log st)))%nat
  /\ (forall v, lookup = Ok v ->
        count (is_effective_end sp) (log run.1)
        = (count (is_effective_end sp) (log st) + Nat.b2n (sampled E sp))%nat
        /\ recording_at sp run.1 = false)
  /\ (forall st2,
        count (is_idle_end sp) (log (cleanup E rq sc st2).1)
        = count (is_idle_end sp) (log st2)
        /\ count is_any_start (log (cleanup E rq sc st2).1)
           = count is_any_start (log st2)).
Proof.
  intros Hsup Hexcl Henter sp run lookup. subst sp.
  destruct (enter_spec U self E _ sc st st1 rq Henter)
    as (Hsp & _ & Hlt & Hrec & _ & before & Hlog1 & Hs1 & _ & _ & _ & He1 & _ & Ha1).
  set (sp := rq_span rq) in *.
  rewrite <- Hsp in Hlt, Hrec, Hs1, He1.
  split; [exact Hsp|].
  assert (Hguard : forall st2,
            count (is_idle_end sp) (log (cleanup E rq sc st2).1)
            = count (is_idle_end sp) (log st2)
            /\ count is_any_start (log (cleanup E rq sc st2).1)
               = count is_any_start (log st2)).
  { intros st2.
    destruct (cleanup_spec E rq sc st2) as (after & Hlog & _ & Ha & Hi & _).
    fold sp in Hi. rewrite Hlog, !count_app.
    now rewrite (misses_count _ _ Hi), (misses_count _ _ Ha). }
  subst run. rewrite (call_phases U self E sc a st st1 rq Hsup Hexcl Henter).
  unfold try_finally.
  destruct (serve_spec U self E rq sc a st1 Hlt) as (during & Hlog2 & Hfor & He2).
  fold sp in He2.
  destruct (serve U self E rq sc a st1) as [st2 r2]. simpl in Hlog2, He2.
  destruct (cleanup_spec E rq sc st2)
    as (after & Hlog3 & _ & Hs3 & _ & _ & _ & Hcase).
  fold sp in Hcase. fold lookup in Hcase.
  assert (Hstate : (let (st3, r3) := cleanup E rq sc st2 in
                    match r3 with
                    | Ok _ => (st3, r2)
                    | Raise e => (st3, Raise e)
                    end).1 = (cleanup E rq sc st2).1).
  { destruct (cleanup E rq sc st2) as [st3 [[]|e]]; reflexivity. }
  rewrite Hstate. clear Hstate.
  destruct (cleanup E rq sc st2) as [st3 r3]. simpl in Hlog3, Hcase |- *.
  rewrite Hlog3, Hlog2, Hlog1, !count_app.
  rewrite Hs1, (misses_count _ _ (start_misses sp during Hfor)).
  rewrite (misses_count _ _ (misses_weaken _ _ _ (start_is_any_start sp) Hs3)).
  rewrite (misses_count _ _ He1).
  rewrite Hrec in He2.
  split; [lia|]. split; [lia|].
  destruct lookup as [v|e].
  - destruct Hcase as (_ & Hrec3 & He3 & _). rewrite He3.
    split; [destruct (recording_at sp st2), (sampled E sp); simpl in *; lia|].
    split; [|exact Hguard].
    intros v' _. split; [|exact Hrec3].
    destruct (recording_at sp st2), (sampled E sp); simpl in *; lia.
  - destruct Hcase as (_ & _ & He3 & _). rewrite (misses_count _ _ He3).
    split; [destruct (recording_at sp st2), (sampled E sp); simpl in *; lia|].
    split; [intros v' [=] | exact Hguard].
Qed.

(** A request for an excluded URL, of type [http]: no span is started. *)
Lemma excluded_request_has_no_server_span :
  let sc := Sample.http_scope "/health" [] in
  let run := __call__ Sample.U Sample.self_excluding Sample.E sc
               (Sample.plain_app []) Sample.initial in
  sc_type sc = "http"
  /\ count is_any_start (log run.1) = 0%nat
  /\ spans run.1 = [].
Proof. vm_compute. repeat split. Qed.

(** A sampled request answered with one body chunk: the server span, of id
    0, is ended once. *)
Lemma server_span_created_and_ended_once_witness :
  let run := __call__ Sample.U Sample.self Sample.E (Sample.http_scope "/a" [])
               (Sample.plain_app []) Sample.initial in
  count (is_start 0) (log run.1) = 1%nat
  /\ count (is_effective_end 0) (log run.1) = 1%nat.
Proof.
  intros run.
  pose (en := enter Sample.U Sample.self Sample.E
                (timer Sample.E (length (log Sample.initial)))
                (Sample.http_scope "/a" []) Sample.initial).
  assert (Henter : en = (en.1, Ok (entered en.2))) by (vm_compute; reflexivity).
  destruct (server_span_created_and_ended_once Sample.U Sample.self Sample.E
              (Sample.http_scope "/a" []) (Sample.plain_app []) Sample.initial
              en.1 (entered en.2) eq_refl eq_refl Henter)
    as (_ & Hstart & _ & _ & Hend & _).
  split; [exact Hstart|].
  exact (proj1 (Hend None eq_refl)).
Defined.

(** The termination branch of the send wrapper has no guard: a second last
    body chunk makes it call [end()] on the server span again, on a span
    that no longer records. *)
Example second_final_chunk_ends_again :
  let run := __call__ Sample.U Sample.self Sample.E (Sample.http_scope "/a" [])
               Sample.repeating_app Sample.initial in
  count (is_end 0) (log run.1) = 2%nat
  /\ count (is_effective_end 0) (log run.1) = 1%nat
  /\ count (is_idle_end 0) (log run.1) = 1%nat.
Proof. vm_compute. repeat split. Qed.

(** A body of [try] that raises, wherever in the body the exception comes
    from: the cleanup runs before the exception leaves [__call__]. *)
Lemma raising_body_cleanup (U : util) (self : config) (E : env)
    (sc : scope) (a : app) (st st1 st2 : state) (rq : request) (e : exn) :
  is_http sc = true -> url_disabled self sc = false ->
  enter U self E (timer E (length (log st))) sc st = (st1, Ok rq) ->
  serve U self E rq sc a st1 = (st2, Raise e) ->
  let run := __call__ U self E sc a st in
  count is_duration_record (log run.1) = S (count is_duration_record (log st))
  /\ count is_decrement (log run.1) = S (count is_decrement (log st))
  /\ (forall v, ASGIGetter.get (sc_headers sc) "content-length" = Ok v ->
        run.2 = Raise e
        /\ count is_carrier_detach (log run.1)
           = (count is_carrier_detach (log st)
              + if ambient_span E then 0 else 1)%nat).
Proof.
  intros Hhttp Hexcl Henter Hserve run.
  assert (Hsup : supported sc = true).
  { unfold supported. unfold is_http in Hhttp. now rewrite Hhttp. }
  destruct (enter_spec U self E _ sc st st1 rq Henter)
    as (Hsp & _ & Hlt & _ & Htok & before & Hlog1 & _ & _ & Hd1 & Hr1 & _ & Hc1 & _).
  rewrite <- Hsp in Hlt.
  subst run. rewrite (call_phases U self E sc a st st1 rq Hsup Hexcl Henter).
  unfold try_finally.
  destruct (serve_spec U self E rq sc a st1 Hlt) as (during & Hlog2 & Hfor & _).
  rewrite Hserve in Hlog2 |- *. simpl in Hlog2.
  destruct (cleanup_spec E rq sc st2)
    as (after & Hlog3 & _ & _ & _ & Hd3 & (attrs & Hr3) & Hcase).
  rewrite Hhttp in Hd3, Hr3, Hcase.
  assert (Hdur : count is_duration_record after = 1%nat)
    by (unfold count; now rewrite Hr3).
  assert (Hm : forall q, (forall x, q x = true -> is_outer x = true) ->
                         misses q during)
    by (intros q Hq; exact (outer_misses _ q during Hq Hfor)).
  destruct (cleanup E rq sc st2) as [st3 r3]. simpl in Hlog3, Hcase.
  assert (Hlog : log (match r3 with
                      | Ok _ => (st3, @Raise unit e)
                      | Raise e' => (st3, Raise e')
                      end).1 = (after ++ during ++ before ++ log st)%list).
  { destruct r3 as [[]|e']; simpl; now rewrite Hlog3, Hlog2, Hlog1. }
  rewrite Hlog, !count_app.
  rewrite Hdur, Hd3, (misses_count _ _ Hd1), (misses_count _ _ Hr1).
  rewrite (misses_count _ _ (Hm is_duration_record ltac:(by_event))).
  rewrite (misses_count _ _ (Hm is_decrement ltac:(by_event))).
  split; [simpl; lia|]. split; [simpl; lia|].
  intros v Hv. rewrite Hv in Hcase. destruct Hcase as (Hok & _ & _ & Hc3).
  subst r3. split; [reflexivity|].
  rewrite Hc3, (misses_count _ _ Hc1).
  rewrite (misses_count _ _ (Hm is_carrier_detach ltac:(by_event))).
  rewrite Htok. destruct (ambient_span E); simpl; lia.
Qed.

(** The body of [try] is [prepare], then the application on the two
    wrappers, with the server span current. *)
Lemma serve_phases (U : util) (self : config) (E : env) (rq : request) (sc : scope)
    (a : app) (st : state) :
  serve U self E rq sc a st
  = use_span (rq_span rq) false
      (let! _ := prepare U self rq sc in
       run_app a (otel_receive U self E (rq_span_name rq) sc (receive E))
         (otel_send U self E (rq_span rq) (rq_span_name rq) sc (send E))) st.
Proof.
  unfold serve. apply use_span_ext. intros s. unfold prepare.
  rewrite bind_assoc. apply bind_ext. intros recording s1.
  rewrite bind_assoc. apply bind_ext. intros [] s2.
  rewrite bind_assoc. apply bind_ext. intros [] s3.
  unfold _get_otel_send, _get_otel_receive.
  rewrite bind_assoc. apply bind_ext. intros [] s4. reflexivity.
Qed.

(** C3, as the code has it.  Take an [http] request that is not excluded
    and for which [enter] returned.  The body of [try] is [prepare], then
    the application on the two wrappers.  When [prepare] returns, so that
    the application is called, and the application raises [e], the duration
    histogram gets exactly one record and the active-request counter is
    decremented exactly once before the exception leaves [__call__].  When
    the lookup of the request's content length in the [finally] block
    succeeds, the request context is detached exactly once if it was
    attached (no span was active on entry), and [__call__] raises [e]
    itself. *)
Theorem exception_leaves_after_cleanup (U : util) (self : config) (E : env)
    (sc : scope) (a : app) (st st1 : state) (rq : request) (e : exn) :
  is_http sc = true -> url_disabled self sc = false ->
  enter U self E (timer E (length (log st))) sc st = (st1, Ok rq) ->
  let wrapped_receive := otel_receive U self E (rq_span_name rq) sc (receive E) in
  let wrapped_send :=
    otel_send U self E (rq_span rq) (rq_span_name rq) sc (send E) in
  let ready := prepare U self rq sc (emit (EvAttach (TokSpan (rq_span rq))) st1).1 in
  ready.2 = Ok tt ->
  (run_app a wrapped_receive wrapped_send ready.1).2 = Raise e ->
  let run := __call__ U self E sc a st in
  serve U self E rq sc a st1
  = use_span (rq_span rq) false
      (let! _ := prepare U self rq sc in run_app a wrapped_receive wrapped_send) st1
  /\ count is_duration_record (log run.1) = S (count is_duration_record (log st))
  /\ count is_decrement (log run.1) = S (count is_decrement (log st))
  /\ (forall v, ASGIGetter.get (sc_headers sc) "content-length" = Ok v ->
        run.2 = Raise e
        /\ count is_carrier_detach (log run.1)
           = (count is_carrier_detach (log st)
              + if ambient_span E then 0 else 1)%nat).
Proof.
  intros Hhttp Hexcl Henter wrapped_receive wrapped_send ready Hready Happ run.
  split; [apply serve_phases|].
  assert (Hbody : (serve U self E rq sc a st1).2 = Raise e).
  { rewrite serve_phases, use_span_outcome. unfold bind. fold ready.
    destruct ready as [s [[]|e0]]; [exact Happ | discriminate]. }
  destruct (serve U self E rq sc a st1) as [st2 r2] eqn:Hserve.
  simpl in Hbody. subst r2.
  exact (raising_body_cleanup U self E sc a st st1 st2 rq e Hhttp Hexcl Henter Hserve).
Qed.

Lemma exception_leaves_after_cleanup_witness :
  let run := __call__ Sample.U Sample.self Sample.E (Sample.http_scope "/a" [])
               failing_app Sample.initial in
  run.2 = Raise (Failure 7)
  /\ count is_duration_record (log run.1) = 1%nat
  /\ count is_decrement (log run.1) = 1%nat
  /\ count is_carrier_detach (log run.1) = 1%nat.
Proof.
  intros run.
  pose (en := enter Sample.U Sample.self Sample.E
                (timer Sample.E (length (log Sample.initial)))
                (Sample.http_scope "/a" []) Sample.initial).
  assert (Henter : en = (en.1, Ok (entered en.2))) by (vm_compute; reflexivity).
  destruct (exception_leaves_after_cleanup Sample.U Sample.self Sample.E
              (Sample.http_scope "/a" []) failing_app Sample.initial
              en.1 (entered en.2) (Failure 7) eq_refl eq_refl Henter
              ltac:(vm_compute; reflexivity) ltac:(vm_compute; reflexivity))
    as (_ & Hdur & Hdec & Hrest).
  destruct (Hrest None eq_refl) as (Hraise & Hdetach).
  split; [exact Hraise|]. split; [exact Hdur|]. split; [exact Hdec | exact Hdetach].
Defined.

(** The claim C3 fails for an excluded URL: the application's exception
    leaves [__call__] with no duration recorded and no decrement. *)
Lemma excluded_request_skips_cleanup :
  let sc := Sample.http_scope "/health" [] in
  let run := __call__ Sample.U Sample.self_excluding Sample.E sc
               (AppRaise (Failure 7)) Sample.initial in
  sc_type sc = "http"
  /\ run.2 = Raise (Failure 7)
  /\ count is_duration_record (log run.1) = 0%nat
  /\ count is_decrement (log run.1) = 0%nat.
Proof. vm_compute. repeat split. Qed.

(** When the request carries a content length that is not UTF-8, the
    lookup in the [finally] block fails: the decoding error replaces the
    application's exception, the request context stays attached and the
    server span is left recording. *)
Example undecodable_content_length_stops_cleanup :
  let sc := Sample.http_scope "/a" [("content-length", not_utf8)] in
  let run := __call__ Sample.U Sample.self Sample.E sc (AppRaise (Failure 7))
               Sample.initial in
  run.2 = Raise UnicodeDecodeError
  /\ count is_duration_record (log run.1) = 1%nat
  /\ count is_decrement (log run.1) = 1%nat
  /\ count is_carrier_detach (log run.1) = 0%nat
  /\ recording_at 0 run.1 = true.
Proof. vm_compute. repeat split. Qed.

(** C7, as the code has it.  Take a request of a supported type that is not
    excluded and for which [enter] returned, and split its run into the
    set-up ([enter]), the body of [try] ([serve], where the application
    runs) and the [finally] block ([cleanup]).  For an [http] scope the
    active-request counter is incremented once, in the set-up; no metric
    instrument is called while the body runs; the counter is decremented
    once and the duration histogram gets exactly one record in the
    [finally] block, that is, once the body has ended, however it ended.
    The recorded duration is computed from the reading of the timer taken
    first in [__call__] and the reading taken in the [finally] block: the
    float difference of the two times 1000, in floats, rounded to the
    nearest integer with a tie going to the even one, and replaced by zero
    when negative; the computation never raises.  It is recorded with the
    attributes of the duration metric as they are when the body has ended,
    with the target.  For a [websocket] scope there is no duration record
    and the counter is not touched. *)
Theorem duration_and_active_requests (U : util) (self : config) (E : env)
    (sc : scope) (a : app) (st st1 : state) (rq : request) :
  supported sc = true -> url_disabled self sc = false ->
  enter U self E (timer E (length (log st))) sc st = (st1, Ok rq) ->
  let body := serve U self E rq sc a st1 in
  let run := __call__ U self E sc a st in
  let start := timer E (length (log st)) in
  let stop := timer E (length (log body.1)) in
  let once := Nat.b2n (is_http sc) in
  let elapsed := fmul (fsub (seconds stop) (seconds start)) thousand in
  let rounded := nearest_even (float_value elapsed) in
  run.1 = (cleanup E rq sc body.1).1
  /\ (exists before during after,
        log st1 = (before ++ log st)%list
        /\ log body.1 = (during ++ log st1)%list
        /\ log run.1 = (after ++ log body.1)%list
        /\ count is_increment before = once
        /\ misses is_decrement before /\ misses is_duration_record before
        /\ Forall (fun e => is_metric e = false) during
        /\ misses is_increment after
        /\ count is_decrement after = once
        /\ List.filter is_duration_record after
           = if is_http sc
             then [EvRecord duration_histogram (duration_ms start stop)
                     (metric_attrs sc body.1)]
             else [])
  /\ count is_duration_record (log run.1)
     = (count is_duration_record (log st) + once)%nat
  /\ count is_increment (log run.1) = (count is_increment (log st) + once)%nat
  /\ count is_decrement (log run.1) = (count is_decrement (log st) + once)%nat
  /\ duration start stop = Ok (duration_ms start stop)
  /\ round elapsed = Ok rounded
  /\ duration_ms start stop = Z.max rounded 0
  /\ 0 <= duration_ms start stop
  /\ (Qabs (inject_Z rounded - float_value elapsed) <= 1 # 2)%Q
  /\ ((Qabs (inject_Z rounded - float_value elapsed) == 1 # 2)%Q ->
      Z.even rounded = true).
Proof.
  intros Hsup Hexcl Henter body run start stop once elapsed rounded.
  destruct (enter_spec U self E _ sc st st1 rq Henter)
    as (Hsp & Hstart & Hlt & _ & _ & before & Hlog1 & _ & Hi1 & Hd1 & Hr1 & _ & _).
  rewrite <- Hsp in Hlt. fold start in Hstart.
  assert (Hrun : run.1 = (cleanup E rq sc body.1).1).
  { subst run body. rewrite (call_phases U self E sc a st st1 rq Hsup Hexcl Henter).
    unfold try_finally. destruct (serve U self E rq sc a st1) as [st2 r2].
    cbn [fst snd]. now destruct (cleanup E rq sc st2) as [st3 [[]|e3]]. }
  destruct (serve_spec U self E rq sc a st1 Hlt) as (during & Hlog2 & Hfor & _).
  fold body in Hlog2.
  destruct (cleanup_spec E rq sc body.1)
    as (after & Hlog3 & Hi3 & _ & _ & Hd3 & _ & _).
  destruct (cleanup_duration E rq sc body.1) as (after' & Hlog3' & Hr3).
  rewrite Hlog3 in Hlog3'. apply app_inv_tail in Hlog3'. subst after'.
  rewrite Hstart in Hr3. fold stop in Hr3.
  rewrite <- Hrun in Hlog3.
  assert (Hm : forall q, (forall x, q x = true -> is_outer x = true) ->
                         misses q during)
    by (intros q Hq; exact (outer_misses _ q during Hq Hfor)).
  assert (Hdur : count is_duration_record after = once).
  { unfold count. rewrite Hr3. subst once. now destruct (is_http sc). }
  split; [exact Hrun|]. split.
  { exists before, during, after.
    split; [exact Hlog1|]. split; [exact Hlog2|]. split; [exact Hlog3|].
    split; [exact Hi1|]. split; [exact Hd1|]. split; [exact Hr1|]. split.
    { apply (Hm is_metric). by_event. }
    split; [exact Hi3|]. split; [exact Hd3 | exact Hr3]. }
  rewrite Hlog3, Hlog2, Hlog1, !count_app.
  rewrite Hdur, Hd3, Hi1, (misses_count _ _ Hd1), (misses_count _ _ Hr1),
    (misses_count _ _ Hi3).
  rewrite (misses_count _ _ (Hm is_duration_record ltac:(by_event))).
  rewrite (misses_count _ _ (Hm is_decrement ltac:(by_event))).
  rewrite (misses_count _ _ (Hm is_increment ltac:(by_event))).
  split; [simpl; lia|]. split; [simpl; lia|]. split; [simpl; lia|].
  destruct (duration_ms_spec start stop) as (H1 & H2 & H3 & H4 & H5 & H6).
  repeat split; assumption.
Qed.

Lemma duration_and_active_requests_witness :
  let run := __call__ Sample.U Sample.self Sample.E (Sample.http_scope "/a" [])
               (Sample.plain_app []) Sample.initial in
  count is_duration_record (log run.1) = 1%nat
  /\ count is_increment (log run.1) = 1%nat
  /\ count is_decrement (log run.1) = 1%nat.
Proof.
  intros run.
  pose (en := enter Sample.U Sample.self Sample.E
                (timer Sample.E (length (log Sample.initial)))
                (Sample.http_scope "/a" []) Sample.initial).
  assert (Henter : en = (en.1, Ok (entered en.2))) by (vm_compute; reflexivity).
  destruct (duration_and_active_requests Sample.U Sample.self Sample.E
              (Sample.http_scope "/a" []) (Sample.plain_app []) Sample.initial
              en.1 (entered en.2) eq_refl eq_refl Henter)
    as (_ & _ & Hdur & Hinc & Hdec & _).
  split; [exact Hdur|]. split; [exact Hinc | exact Hdec].
Defined.

(** The claim C7 fails for a [websocket] scope that is not excluded: a
    server span is started and ended, and no duration is recorded. *)
Lemma websocket_records_no_duration :
  let sc := Sample.websocket_scope "/ws" in
  let run := __call__ Sample.U Sample.self Sample.E sc AppReturn Sample.initial in
  supported sc = true
  /\ url_disabled Sample.self sc = false
  /\ run.2 = Ok tt
  /\ count (is_start 0) (log run.1) = 1%nat
  /\ count (is_effective_end 0) (log run.1) = 1%nat
  /\ count is_duration_record (log run.1) = 0%nat.
Proof. vm_compute. repeat split. Qed.

(** * Further properties *)

(** ** Texts *)

Lemma utf8_ascii (s : string) : ascii_text s = true -> utf8 false s = Some s.
Proof.
  induction s as [|c r IH]; [reflexivity|].
  simpl. intros [Hc Hr]%andb_true_iff. rewrite Hc, (IH Hr). reflexivity.
Qed.

Lemma decode_ascii (s : string) : ascii_text s = true -> decode s = Ok s.
Proof. intros H. unfold decode. now rewrite utf8_ascii. Qed.

Lemma lower_ascii_small (c : ascii) :
  (byte c <? 128)%N = true -> (byte (lower_ascii c) <? 128)%N = true.
Proof. destruct c as [[] [] [] [] [] [] [] []]; vm_compute; congruence. Qed.

Lemma lower_ascii_idem (c : ascii) : lower_ascii (lower_ascii c) = lower_ascii c.
Proof. destruct c as [[] [] [] [] [] [] [] []]; reflexivity. Qed.

Lemma ascii_text_lower (s : string) : ascii_text s = true -> ascii_text (lower s) = true.
Proof.
  induction s as [|c r IH]; [reflexivity|].
  simpl. intros [Hc Hr]%andb_true_iff.
  now rewrite (lower_ascii_small c Hc), (IH Hr).
Qed.

Lemma lower_idem (s : string) : lower (lower s) = lower s.
Proof.
  induction s as [|c r IH]; [reflexivity|].
  simpl. now rewrite lower_ascii_idem, IH.
Qed.

(** The strict decoder returns its argument: a text is held by its UTF-8
    encoding. *)
Lemma utf8_strict_id (n : nat) :
  forall s t, (String.length s <= n)%nat -> utf8 false s = Some t -> t = s.
Proof.
  induction n as [|n IH]; intros s t Hlen.
  - destruct s; [now intros [= <-] | simpl in Hlen; lia].
  - destruct s as [|c0 r0]; [now intros [= <-]|].
    simpl in Hlen.
    assert (Hrec : forall r u, (String.length r <= n)%nat ->
                               utf8 false r = Some u -> u = r)
      by (intros; now apply IH).
    simpl.
    destruct (byte c0 <? 128)%N.
    { destruct (utf8 false r0) as [u|] eqn:Hu; [|discriminate].
      intros [= <-]. f_equal. apply Hrec; [lia | exact Hu]. }
    destruct (lead c0) as [[[k lo] hi]|]; [|destruct (utf8 false r0); discriminate].
    destruct r0 as [|c1 r1]; [discriminate|]. simpl in Hlen.
    destruct (between lo hi c1); simpl;
      [|destruct (utf8 false (String c1 r1)); discriminate].
    destruct k as [|[|k]].
    + destruct r1 as [|c2 r2]; [discriminate|]. simpl in Hlen.
      destruct (is_cont c2); simpl;
        [|destruct (utf8 false (String c2 r2)); discriminate].
      destruct r2 as [|c3 r3]; [discriminate|]. simpl in Hlen.
      destruct (is_cont c3); simpl;
        [|destruct (utf8 false (String c3 r3)); discriminate].
      destruct (utf8 false r3) as [u|] eqn:Hu; [|discriminate].
      intros [= <-]. do 4 f_equal. apply Hrec; [lia | exact Hu].
    + destruct (utf8 false r1) as [u|] eqn:Hu; [|discriminate].
      intros [= <-]. do 2 f_equal. apply Hrec; [lia | exact Hu].
    + destruct r1 as [|c2 r2]; [discriminate|]. simpl in Hlen.
      destruct (is_cont c2); simpl;
        [|destruct (utf8 false (String c2 r2)); discriminate].
      destruct k as [|k].
      * destruct (utf8 false r2) as [u|] eqn:Hu; [|discriminate].
        intros [= <-]. do 3 f_equal. apply Hrec; [lia | exact Hu].
      * destruct r2 as [|c3 r3]; [discriminate|]. simpl in Hlen.
        destruct (is_cont c3); simpl;
          [|destruct (utf8 false (String c3 r3)); discriminate].
        destruct (utf8 false r3) as [u|] eqn:Hu; [|discriminate].
        intros [= <-]. do 4 f_equal. apply Hrec; [lia | exact Hu].
Qed.

Lemma decode_valid (s : string) : valid_text s = true -> decode s = Ok s.
Proof.
  unfold valid_text, decode. destruct (utf8 false s) as [t|] eqn:Ht; [|discriminate].
  intros _. f_equal. apply (utf8_strict_id (String.length s)); [lia | exact Ht].
Qed.

Lemma decode_invalid (s : string) :
  valid_text s = false -> decode s = Raise UnicodeDecodeError.
Proof. unfold valid_text, decode. now destruct (utf8 false s). Qed.

Lemma decode_raises (s : string) (e : exn) : decode s = Raise e -> e = UnicodeDecodeError.
Proof. unfold decode. destruct (utf8 false s); [discriminate | now intros [= <-]]. Qed.

(** ** Header accessor *)

Lemma decoded_well_formed (key : string) (hs : headers) :
  well_formed hs -> ASGIGetter.decoded (lower key) hs = Ok (values_of key hs).
Proof.
  induction 1 as [|[name value] hs [Hname Hvalue] _ IH]; [reflexivity|].
  simpl in Hname, Hvalue. unfold values_of in *. simpl.
  rewrite (decode_ascii name Hname). simpl. unfold named at 1. simpl.
  destruct (String.eqb (lower name) (lower key)); [|exact IH].
  rewrite (decode_valid value Hvalue). simpl. now rewrite IH.
Qed.

Lemma decoded_raises (key : string) (hs : headers) (e : exn) :
  ASGIGetter.decoded key hs = Raise e -> e = UnicodeDecodeError.
Proof.
  induction hs as [|[name value] hs IH]; [discriminate|]. simpl.
  destruct (decode name) as [n|e1] eqn:Hn; simpl;
    [|intros [= <-]; now apply decode_raises in Hn].
  destruct (String.eqb (lower n) key); [|exact IH].
  destruct (decode value) as [v|e2] eqn:Hv; simpl;
    [|intros [= <-]; now apply decode_raises in Hv].
  destruct (ASGIGetter.decoded key hs) as [more|e3]; simpl; [discriminate|].
  intros [= <-]. now apply IH.
Qed.

Lemma decoded_bad_name (key : string) (hs : headers) :
  Exists (fun kv => valid_text kv.1 = false) hs ->
  ASGIGetter.decoded key hs = Raise UnicodeDecodeError.
Proof.
  intros Hbad.
  assert (Hraise : exists e, ASGIGetter.decoded key hs = Raise e).
  { induction Hbad as [[name value] hs Hname | [name value] hs _ [e IH]]; simpl.
    - simpl in Hname. rewrite (decode_invalid name Hname). eexists; reflexivity.
    - destruct (decode name) as [n|e1]; simpl; [|eexists; reflexivity].
      destruct (String.eqb (lower n) key); [|eexists; exact IH].
      destruct (decode value) as [v|e2]; simpl; [|eexists; reflexivity].
      rewrite IH. eexists; reflexivity. }
  destruct Hraise as [e He]. rewrite He. f_equal. now apply decoded_raises in He.
Qed.

Lemma get_some (hs : headers) (key : string) :
  ASGIGetter.get (Some hs) key
  = (let? values := ASGIGetter.decoded (lower key) hs in
     Ok (match values with [] => None | _ => Some values end)).
Proof. destruct hs; reflexivity. Qed.

Lemma get_well_formed (carrier : option headers) (key : string) :
  well_formed (default [] carrier) ->
  ASGIGetter.get carrier key
  = Ok (match values_of key (default [] carrier) with
        | [] => None
        | values => Some values
        end).
Proof.
  intros Hwf. destruct carrier as [hs|]; [|reflexivity].
  rewrite get_some. simpl in Hwf. simpl.
  rewrite (decoded_well_formed key hs Hwf). simpl.
  now destruct (values_of key hs).
Qed.

(** X1.  [get] on a well-formed header list, asked for an ASCII name: the values
    of the headers of that name, ASCII case apart, in the order of the
    carrier; [None], never an empty list, when there is none, and when the
    carrier has no headers. *)
Theorem getter_values (carrier : option headers) (key : string) :
  well_formed (default [] carrier) -> ascii_text key = true ->
  ASGIGetter.get carrier key
  = Ok (match values_of key (default [] carrier) with
        | [] => None
        | values => Some values
        end).
Proof. intros Hwf _. now apply get_well_formed. Qed.

Lemma getter_values_witness :
  ASGIGetter.get (Some [("Accept", "a"); ("host", "h"); ("ACCEPT", "b")]) "accept"
  = Ok (Some ["a"; "b"]).
Proof.
  apply (getter_values (Some [("Accept", "a"); ("host", "h"); ("ACCEPT", "b")]) "accept").
  - repeat constructor.
  - reflexivity.
Defined.

(** X2.  One header whose name is not UTF-8 makes [get] fail for every key, with
    the decoding error; and no other exception ever leaves [get]. *)
Theorem getter_fails_on_bad_name (hs : headers) (key : string) :
  (Exists (fun kv => valid_text kv.1 = false) hs ->
   ASGIGetter.get (Some hs) key = Raise UnicodeDecodeError)
  /\ (forall carrier e, ASGIGetter.get carrier key = Raise e -> e = UnicodeDecodeError).
Proof.
  split.
  - intros Hbad. rewrite get_some. now rewrite (decoded_bad_name _ hs Hbad).
  - intros [hs'|] e; [|discriminate]. rewrite get_some.
    destruct (ASGIGetter.decoded (lower key) hs') as [values|e'] eqn:Hd; [discriminate|].
    simpl. intros [= <-]. now apply decoded_raises in Hd.
Qed.

Lemma decode_all_names (hs : headers) :
  Forall (fun kv => valid_text kv.1 = true) hs ->
  ASGIGetter.decode_all hs = Ok (map fst hs).
Proof.
  induction 1 as [|[name value] hs Hname _ IH]; [reflexivity|].
  simpl in *. now rewrite (decode_valid name Hname), IH.
Qed.

Lemma decode_all_bad_name (hs : headers) :
  Exists (fun kv => valid_text kv.1 = false) hs ->
  ASGIGetter.decode_all hs = Raise UnicodeDecodeError.
Proof.
  induction 1 as [[name value] hs Hname | [name value] hs _ IH]; simpl.
  - simpl in Hname. now rewrite (decode_invalid name Hname).
  - destruct (decode name) as [n|e] eqn:Hn; simpl.
    + now rewrite IH.
    + f_equal. now apply decode_raises in Hn.
Qed.

Lemma values_of_nil (key : string) (hs : headers) :
  values_of key hs = [] <-> ~ In (lower key) (map lower (map fst hs)).
Proof.
  unfold values_of. induction hs as [|[name value] hs IH]; simpl; [tauto|].
  unfold named at 1. simpl.
  destruct (String.eqb_spec (lower name) (lower key)) as [Heq|Hne]; simpl.
  - split; [discriminate|]. intros Hn. exfalso. apply Hn. now left.
  - rewrite IH. split.
    + intros Hn [Heq|Hin]; [congruence | contradiction].
    + intros Hn Hin. apply Hn. now right.
Qed.

(** X3.  [keys] lists the header names as they are in the carrier, one per
    header, repeated names included, and fails with the decoding error when
    a name is not UTF-8.  On a well-formed carrier [get] finds nothing for
    an ASCII key exactly when no name that [keys] lists is the key, ASCII
    case apart. *)
Theorem keys_names (carrier : option headers) :
  let hs := default [] carrier in
  (Forall (fun kv => valid_text kv.1 = true) hs ->
   ASGIGetter.keys carrier = Ok (map fst hs))
  /\ (Exists (fun kv => valid_text kv.1 = false) hs ->
      ASGIGetter.keys carrier = Raise UnicodeDecodeError)
  /\ (well_formed hs -> forall key, ascii_text key = true ->
      (ASGIGetter.get carrier key = Ok None
       <-> ~ In (lower key) (map lower (map fst hs)))).
Proof.
  intros hs. unfold ASGIGetter.keys. fold hs. split; [|split].
  - apply decode_all_names.
  - apply decode_all_bad_name.
  - intros Hwf key Hkey. rewrite (get_well_formed carrier key Hwf).
    rewrite <- values_of_nil. fold hs.
    destruct (values_of key hs); split; try discriminate; reflexivity.
Qed.

(** ** Captured headers, by name *)

(** The values of the headers whose lower-cased name is [key], for headers
    that decode and whose names are ASCII. *)
Lemma decoded_selected (key : string) (raw : headers) (acc hs : dict string) :
  Forall (fun kv => ascii_text kv.1 = true) raw ->
  decode_and_join raw acc = Ok hs ->
  ASGIGetter.decoded key raw
  = Ok (map snd (List.filter (fun kv => String.eqb (lower kv.1) key) raw)).
Proof.
  intros Hnames. revert acc.
  induction Hnames as [|[name value] raw Hname _ IH]; intros acc Hrun; [reflexivity|].
  simpl in Hname, Hrun |- *.
  rewrite (decode_ascii name Hname) in Hrun |- *. simpl in Hrun |- *.
  destruct (decode value) as [v|] eqn:Hv; [|discriminate]. simpl in Hrun.
  assert (Hvalue : v = value).
  { unfold decode in Hv. destruct (utf8 false value) as [t|] eqn:Ht; [|discriminate].
    injection Hv as <-. apply (utf8_strict_id (String.length value)); [lia | exact Ht]. }
  subst v. rewrite (IH _ Hrun).
  now destruct (String.eqb (lower name) key).
Qed.

Lemma decode_and_join_values (raw : headers) (hs : dict string) :
  Forall (fun kv => ascii_text kv.1 = true) raw ->
  decode_and_join raw [] = Ok hs ->
  forall key,
    ASGIGetter.decoded key raw
    = Ok (map snd (List.filter (fun kv => String.eqb (lower kv.1) key) raw))
    /\ dict_get key hs
       = joined (map snd (List.filter (fun kv => String.eqb (lower kv.1) key) raw)).
Proof.
  intros Hnames Hrun key.
  pose proof (decoded_selected key raw [] hs Hnames Hrun) as Hdec.
  split; [exact Hdec|].
  destruct (decode_and_join_entries raw [] hs Hrun key) as (values & Hdec' & Hget).
  rewrite Hdec in Hdec'. injection Hdec' as <-.
  rewrite Hget. apply fold_value_joined.
Qed.

(** C9, as the code has it.  The places that capture headers skip
    [collect_custom_headers_attributes] when the list of patterns is empty,
    so nothing is decoded there and the result is the empty map.  The
    function itself always makes its decode-and-join pass first: with no
    pattern it returns the empty map when every header decodes and fails
    with the decoding error otherwise.  When the pass succeeds on headers
    whose names are ASCII, what goes to the sanitizer has, for each
    lower-cased name, the decoded values of the headers of that name joined
    with a comma, in their order, and has no entry for any other key. *)
Theorem captured_headers (U : util) (self : config) (raw_headers : option headers)
    (sanitize : list string) (normalize_names : string -> string) :
  (forall st, capture U self raw_headers [] normalize_names st = (st, Ok []))
  /\ collect_custom_headers_attributes U raw_headers sanitize [] normalize_names
     = (let? _ := decode_and_join (default [] raw_headers) [] in Ok [])
  /\ (forall header_regexes,
        collect_custom_headers_attributes U raw_headers sanitize header_regexes
          normalize_names
        = (let? hs := decode_and_join (default [] raw_headers) [] in
           Ok (sanitize_header_values U sanitize hs header_regexes normalize_names)))
  /\ (forall hs,
        Forall (fun kv => ascii_text kv.1 = true) (default [] raw_headers) ->
        decode_and_join (default [] raw_headers) [] = Ok hs ->
        forall key,
          ASGIGetter.decoded key (default [] raw_headers)
          = Ok (map snd (List.filter (fun kv => String.eqb (lower kv.1) key)
                           (default [] raw_headers)))
          /\ dict_get key hs
             = joined (map snd (List.filter (fun kv => String.eqb (lower kv.1) key)
                                  (default [] raw_headers)))).
Proof.
  assert (Hcollect : forall header_regexes,
    collect_custom_headers_attributes U raw_headers sanitize header_regexes
      normalize_names
    = (let? hs := decode_and_join (default [] raw_headers) [] in
       Ok (sanitize_header_values U sanitize hs header_regexes normalize_names))).
  { intros rs. unfold collect_custom_headers_attributes.
    destruct raw_headers as [[|h raw]|]; reflexivity. }
  split; [reflexivity|]. split; [|split; [exact Hcollect|]].
  - rewrite Hcollect. now destruct (decode_and_join _ _).
  - intros hs Hnames Hrun key. now apply decode_and_join_values.
Qed.

(** The header example of the specification, with the second [x-foo] in
    another case: the two values are joined under the lower-cased name. *)
Lemma captured_headers_witness :
  let raw := [("content-type", "text/plain"); ("x-foo", "a"); ("X-Foo", "b")] in
  let hs := [("content-type", "text/plain"); ("x-foo", "a,b")] in
  decode_and_join raw [] = Ok hs
  /\ dict_get "x-foo" hs = joined ["a"; "b"]
  /\ dict_get "X-Foo" hs = joined [].
Proof.
  intros raw hs.
  assert (Hnames : Forall (fun kv : string * string => ascii_text kv.1 = true) raw)
    by (repeat constructor).
  destruct (captured_headers Sample.U Sample.self (Some raw) []
              normalise_request_header_name) as (_ & _ & _ & Hjoin).
  split; [reflexivity|]. split.
  - exact (proj2 (Hjoin hs Hnames eq_refl "x-foo")).
  - exact (proj2 (Hjoin hs Hnames eq_refl "X-Foo")).
Defined.

(** ** Header setter and response propagator *)

Lemma decoded_app (key : string) (hs more : headers) :
  ASGIGetter.decoded key (hs ++ more)%list
  = (let? a := ASGIGetter.decoded key hs in
     let? b := ASGIGetter.decoded key more in
     Ok (a ++ b)%list).
Proof.
  induction hs as [|[name value] hs IH]; simpl.
  - now destruct (ASGIGetter.decoded key more).
  - destruct (decode name) as [n|e]; simpl; [|reflexivity].
    destruct (String.eqb (lower n) key); [|exact IH].
    destruct (decode value) as [v|e]; simpl; [|reflexivity].
    rewrite IH. destruct (ASGIGetter.decoded key hs) as [a|e]; simpl; [|reflexivity].
    now destruct (ASGIGetter.decoded key more).
Qed.

Lemma get_default (carrier : option headers) (key : string) :
  ASGIGetter.get carrier key
  = (let? values := ASGIGetter.decoded (lower key) (default [] carrier) in
     Ok (match values with [] => None | _ => Some values end)).
Proof. destruct carrier as [[|h hs]|]; reflexivity. Qed.

Lemma get_after_set (carrier : message) (key value k : string) :
  ascii_text key = true -> valid_text value = true ->
  ASGIGetter.get (msg_headers (ASGISetter.set carrier key value)) k
  = (let? values := ASGIGetter.decoded (lower k) (default [] (msg_headers carrier)) in
     let values := (values ++ if String.eqb (lower key) (lower k)
                              then [value] else [])%list in
     Ok (match values with [] => None | _ => Some values end)).
Proof.
  intros Hkey Hvalue. rewrite get_default. simpl. rewrite decoded_app.
  destruct (ASGIGetter.decoded (lower k) (default [] (msg_headers carrier)))
    as [a|e]; simpl; [|reflexivity].
  rewrite (decode_ascii (lower key) (ascii_text_lower key Hkey)). simpl.
  rewrite lower_idem.
  destruct (String.eqb (lower key) (lower k)); [|reflexivity].
  now rewrite (decode_valid value Hvalue).
Qed.

(** X4.  A header set with [ASGISetter.set] is read back by [ASGIGetter.get]:
    under its name the new value comes last, after the values the carrier
    already had, and what [get] gives for any other name is as before. *)
Theorem setter_then_getter (carrier : message) (key value : string) :
  ascii_text key = true -> valid_text value = true ->
  let carrier' := ASGISetter.set carrier key value in
  (forall old, ASGIGetter.get (msg_headers carrier) key = Ok old ->
     ASGIGetter.get (msg_headers carrier') key = Ok (Some (default [] old ++ [value])%list))
  /\ (forall k, ascii_text k = true -> lower k <> lower key ->
        ASGIGetter.get (msg_headers carrier') k = ASGIGetter.get (msg_headers carrier) k).
Proof.
  intros Hkey Hvalue carrier'. subst carrier'. split.
  - intros old. rewrite (get_after_set carrier key value key Hkey Hvalue).
    rewrite get_default.
    destruct (ASGIGetter.decoded (lower key) (default [] (msg_headers carrier)))
      as [a|e]; simpl; [|discriminate].
    rewrite String.eqb_refl. intros [= <-]. f_equal.
    destruct a as [|first rest]; reflexivity.
  - intros k _ Hne. rewrite (get_after_set carrier key value k Hkey Hvalue).
    rewrite get_default.
    destruct (String.eqb_spec (lower key) (lower k)) as [Heq|_]; [congruence|].
    destruct (ASGIGetter.decoded (lower k) (default [] (msg_headers carrier)))
      as [a|e]; simpl; [|reflexivity].
    now rewrite app_nil_r.
Qed.

Lemma setter_then_getter_witness :
  ASGIGetter.get
    (msg_headers (ASGISetter.set (Sample.start_event (VInt 200) [("server-timing", "a")] None)
                    "Server-Timing" "b"))
    "server-timing"
  = Ok (Some ["a"; "b"]).
Proof.
  destruct (setter_then_getter (Sample.start_event (VInt 200) [("server-timing", "a")] None)
              "Server-Timing" "b" eq_refl eq_refl) as [Hback _].
  exact (Hback (Some ["a"]) eq_refl).
Defined.

Lemma inject_headers (fields : list (string * string)) (m : message) :
  msg_headers (inject fields m)
  = match fields with
    | [] => msg_headers m
    | _ => Some (default [] (msg_headers m)
                 ++ map (fun kv => (lower kv.1, kv.2)) fields)%list
    end
  /\ msg_status (inject fields m) = msg_status m
  /\ msg_trailers (inject fields m) = msg_trailers m.
Proof.
  revert m. induction fields as [|[k v] fields IH]; intros m; [now repeat split|].
  unfold inject in *. simpl.
  destruct (IH (ASGISetter.set m k v)) as (Hh & Hs & Ht).
  rewrite Hh, Hs, Ht. split; [|now split].
  destruct fields as [|kv fields]; [reflexivity|].
  simpl. now rewrite <- app_assoc.
Qed.

(** X5.  What the response propagator does to an outgoing message, for fields
    with ASCII names and UTF-8 values: it appends one header per field it
    injects, the name lower-cased, after the headers the message has; the
    type, the status and the flags of the message are as they were, and
    without a propagator, or with nothing to inject, the message is the one
    the application sent. *)
Theorem propagated_appends (E : env) (sp : nat) (m : message) :
  let fields := match response_propagator E with
                | Some f => f sp
                | None => []
                end in
  let m' := propagated E sp m in
  well_formed fields ->
  (fields = [] -> m' = m)
  /\ (fields <> [] ->
      msg_headers m' = Some (default [] (msg_headers m)
                             ++ map (fun kv => (lower kv.1, kv.2)) fields)%list)
  /\ msg_type m' = msg_type m /\ msg_status m' = msg_status m
  /\ msg_trailers m' = msg_trailers m /\ msg_more_body m' = msg_more_body m
  /\ msg_more_trailers m' = msg_more_trailers m.
Proof.
  intros fields m' _. subst fields m'. unfold propagated.
  destruct (response_propagator E) as [f|]; [|now repeat split].
  destruct (inject_headers (f sp) m) as (Hh & Hs & Ht).
  destruct (inject_keeps (f sp) m) as (Hty & Hb & Hmt).
  split; [now intros ->|]. split; [|now repeat split].
  intros Hne. rewrite Hh. now destruct (f sp).
Qed.

(** A propagator that injects [Server-Timing]: the header is appended under
    the lower-cased name. *)
Lemma propagated_appends_witness :
  msg_headers (propagated E_propagating 0
                 (Sample.start_event (VInt 200) [("content-length", "2")] None))
  = Some [("content-length", "2"); ("server-timing", "trace")].
Proof.
  assert (Hwf : well_formed [("Server-Timing", "trace")]) by (repeat constructor).
  destruct (propagated_appends E_propagating 0
              (Sample.start_event (VInt 200) [("content-length", "2")] None) Hwf)
    as (_ & Happ & _).
  exact (Happ ltac:(discriminate)).
Defined.

(** ** Request attributes *)

Lemma dict_set_keys {V} (k : string) (v : V) (d : dict V) :
  map fst (dict_set k v d)
  = if existsb (String.eqb k) (map fst d) then map fst d else (map fst d ++ [k])%list.
Proof.
  induction d as [|[k' v'] d IH]; [reflexivity|]. simpl.
  rewrite (String.eqb_sym k k').
  destruct (String.eqb_spec k' k) as [->|Hne]; simpl; [reflexivity|].
  rewrite IH. now destruct (existsb (String.eqb k) (map fst d)).
Qed.

Lemma existsb_eqb_In (k : string) (l : list string) :
  existsb (String.eqb k) l = true <-> In k l.
Proof.
  rewrite existsb_exists. split.
  - intros (x & Hin & Heq). apply String.eqb_eq in Heq. now subst.
  - intros Hin. exists k. split; [exact Hin | apply String.eqb_refl].
Qed.

Lemma dict_set_NoDup {V} (k : string) (v : V) (d : dict V) :
  NoDup (map fst d) -> NoDup (map fst (dict_set k v d)).
Proof.
  intros Hd. rewrite dict_set_keys.
  destruct (existsb (String.eqb k) (map fst d)) eqn:Hk; [exact Hd|].
  apply NoDup_app. split; [exact Hd|]. split; [|apply NoDup_singleton].
  intros x Hx [->|[]]%list_elem_of_In. apply list_elem_of_In in Hx.
  apply existsb_eqb_In in Hx. congruence.
Qed.

Lemma dict_set_names {V} (names : list string) (k : string) (v : V) (d : dict V) :
  In k names -> Forall (fun kv => In kv.1 names) d ->
  Forall (fun kv => In kv.1 names) (dict_set k v d).
Proof.
  intros Hk. induction 1 as [|[k' v'] d Hk' Hd IH]; simpl.
  - now repeat constructor.
  - destruct (String.eqb k' k); constructor; assumption.
Qed.

Lemma remove_none_keys (d : dict pyval) :
  NoDup (map fst d) -> NoDup (map fst (remove_none d)).
Proof.
  unfold remove_none. induction d as [|[k v] d IH]; [trivial|]. simpl.
  intros [Hk Hd]%NoDup_cons.
  assert (Hsub : forall x, In x (map fst (List.filter
            (fun kv : string * pyval => match kv.2 with VNone => false | _ => true end) d))
            -> In x (map fst d)).
  { intros x [[k' v'] [<- Hin]]%in_map_iff. apply List.filter_In in Hin as [Hin _].
    apply in_map_iff. now exists (k', v'). }
  destruct v; simpl; try (apply NoDup_cons; split; [|now apply IH];
    rewrite list_elem_of_In; intros Hin; apply Hk, list_elem_of_In, Hsub, Hin).
  now apply IH.
Qed.

Lemma remove_none_values (d : dict pyval) :
  Forall (fun kv => kv.2 <> VNone) (remove_none d).
Proof.
  unfold remove_none. apply List.Forall_forall. intros [k v] Hin.
  apply List.filter_In in Hin as [_ Hv]. simpl in *. now destruct v.
Qed.

Lemma remove_none_names (names : list string) (d : dict pyval) :
  Forall (fun kv => In kv.1 names) d ->
  Forall (fun kv => In kv.1 names) (remove_none d).
Proof.
  unfold remove_none. rewrite !List.Forall_forall. intros Hd kv Hin.
  apply List.filter_In in Hin as [Hin _]. now apply Hd.
Qed.

Lemma dict_get_None {V} (k : string) (d : dict V) :
  ~ In k (map fst d) -> dict_get k d = None.
Proof.
  induction d as [|[k' v'] d IH]; [reflexivity|]. simpl. intros Hn.
  destruct (String.eqb_spec k' k) as [->|Hne]; [exfalso; apply Hn; now left|].
  apply IH. intros Hin. apply Hn. now right.
Qed.

(** Looking up in a dictionary whose [None] values were removed. *)
Lemma dict_get_remove_none (k : string) (d : dict pyval) :
  NoDup (map fst d) ->
  dict_get k (remove_none d)
  = match dict_get k d with
    | Some VNone => None
    | found => found
    end.
Proof.
  unfold remove_none. induction d as [|[k' v'] d IH]; [reflexivity|]. simpl.
  intros [Hk Hd]%NoDup_cons. rewrite list_elem_of_In in Hk.
  destruct (String.eqb_spec k' k) as [->|Hne].
  - destruct v'; simpl; rewrite ?String.eqb_refl; try reflexivity.
    apply dict_get_None. intros [[k' v'] [<- Hin]]%in_map_iff.
    apply List.filter_In in Hin as [Hin _]. apply Hk, in_map_iff. now exists (k', v').
  - destruct v'; simpl; try (apply String.eqb_neq in Hne; rewrite Hne); now apply IH.
Qed.

(** The four optional steps of [collect_request_attributes], from the six
    entries it starts with. *)
Lemma collect_request_attributes_steps (U : util) (sc : scope) (d : dict pyval) :
  collect_request_attributes U sc = Ok d ->
  exists url host agent,
    request_url sc = Ok url
    /\ ASGIGetter.get (sc_headers sc) "host" = Ok host
    /\ ASGIGetter.get (sc_headers sc) "user-agent" = Ok agent
    /\ let base :=
         [ ("http.scheme", of_text (sc_scheme sc));
           ("http.host", VStr (get_host_port_url_tuple sc).1.1);
           ("net.host.port", of_port (get_host_port_url_tuple sc).1.2);
           ("http.flavor", of_text (sc_http_version sc));
           ("http.target", of_text (sc_path sc));
           ("http.url", VStr (remove_url_credentials U url)) ] in
       let with_method :=
         match sc_method sc with
         | Some http_method =>
           if nonempty http_method then dict_set "http.method" (VStr http_method) base
           else base
         | None => base
         end in
       let with_name :=
         match host with
         | Some l => dict_set "http.server_name" (VStr (join "," l)) with_method
         | None => with_method
         end in
       let with_agent :=
         match agent with
         | Some (first :: _) => dict_set "http.user_agent" (VStr first) with_name
         | _ => with_name
         end in
       let with_peer :=
         match sc_client sc with
         | Some (ip, peer_port) =>
           dict_set "net.peer.port" (VInt peer_port)
             (dict_set "net.peer.ip" (VStr ip) with_agent)
         | None => with_agent
         end in
       d = remove_none with_peer.
Proof.
  unfold collect_request_attributes.
  destruct (get_host_port_url_tuple sc) as [[server_host port] url0]. simpl.
  destruct (request_url sc) as [url|e]; [|discriminate]. simpl.
  destruct (ASGIGetter.get (sc_headers sc) "host") as [host|e]; [|discriminate]. simpl.
  destruct (ASGIGetter.get (sc_headers sc) "user-agent") as [agent|e]; [|discriminate].
  simpl. intros [= <-]. exists url, host, agent. now repeat split.
Qed.

(** A lookup under entries set for other names. *)
Ltac through_sets :=
  repeat first
    [ rewrite dict_get_set_ne by discriminate
    | match goal with
      | |- context [dict_get _ (match ?x with _ => _ end)] => destruct x
      | |- context [dict_get _ (if ?x then _ else _)] => destruct x
      end ].


(** X6.  What [collect_request_attributes] returns has no [None] value and no
    name twice, every name is one of the eleven attribute names, and the
    host and the URL are always there; the scheme, the flavor, the target
    and the port are there exactly when the scope has them. *)
Theorem request_attributes_always (U : util) (sc : scope) (d : dict pyval) :
  collect_request_attributes U sc = Ok d ->
  NoDup (map fst d)
  /\ Forall (fun kv => kv.2 <> VNone /\ In kv.1 request_attribute_names) d
  /\ dict_get "http.host" d = Some (VStr (get_host_port_url_tuple sc).1.1)
  /\ (exists url, request_url sc = Ok url
        /\ dict_get "http.url" d = Some (VStr (remove_url_credentials U url)))
  /\ dict_get "http.scheme" d = option_map VStr (sc_scheme sc)
  /\ dict_get "http.flavor" d = option_map VStr (sc_http_version sc)
  /\ dict_get "http.target" d = option_map VStr (sc_path sc)
  /\ dict_get "net.host.port" d = option_map VInt (get_host_port_url_tuple sc).1.2.
Proof.
  intros Hrun.
  destruct (collect_request_attributes_steps U sc d Hrun)
    as (url & host & agent & Hurl & _ & _ & Hd).
  cbv zeta in Hd.
  set (base := [ _; _; _; _; _; _ ]) in Hd.
  assert (Hbase : NoDup (map fst base))
    by (repeat (apply NoDup_cons_2;
                  [rewrite list_elem_of_In; simpl; intuition discriminate|]);
        apply NoDup_nil_2).
  match type of Hd with d = remove_none ?w => set (with_peer := w) in * end.
  assert (Hnd : NoDup (map fst with_peer)).
  { subst with_peer. keeps_sets ltac:(apply (@dict_set_NoDup pyval)); exact Hbase. }
  assert (Hnames : Forall (fun kv => In kv.1 request_attribute_names) with_peer).
  { subst with_peer.
    keeps_sets ltac:(apply (@dict_set_names pyval); [simpl; tauto|]).
    all: subst base; repeat (constructor; [simpl; tauto|]); constructor. }
  subst d. split; [now apply remove_none_keys|]. split.
  { apply Forall_and. split; [apply remove_none_values | now apply remove_none_names]. }
  rewrite !(dict_get_remove_none _ _ Hnd).
  subst with_peer.
  split; [through_sets; reflexivity|].
  split; [exists url; split; [exact Hurl | through_sets; reflexivity]|].
  split; [through_sets; simpl; now destruct (sc_scheme sc)|].
  split; [through_sets; simpl; now destruct (sc_http_version sc)|].
  split; [through_sets; simpl; now destruct (sc_path sc)|].
  through_sets; subst base; cbn -[get_host_port_url_tuple];
    now destruct ((get_host_port_url_tuple sc).1.2).
Qed.

Lemma request_attributes_always_witness :
  exists d, collect_request_attributes Sample.U agent_scope = Ok d
            /\ NoDup (map fst d)
            /\ dict_get "http.url" d = Some (VStr "http://example.com/a").
Proof.
  eexists. split; [vm_compute; reflexivity|].
  destruct (request_attributes_always Sample.U agent_scope _ eq_refl)
    as (Hnd & _ & _ & (url & Hurl & Hget) & _).
  split; [exact Hnd|]. injection Hurl as <-. exact Hget.
Defined.

(** A lookup under the entries set so far. *)
Ltac looked_up :=
  repeat first
    [ rewrite dict_get_set_eq
    | rewrite dict_get_set_ne by discriminate
    | match goal with
      | |- context [dict_get _ (match ?x with _ => _ end)] => destruct x
      | |- context [dict_get _ (if ?x then _ else _)] => destruct x eqn:?
      end ];
  try reflexivity.

(** X7.  The attributes [collect_request_attributes] adds when the scope has
    what they are read from: the method when it is not empty, the server
    name made of every [Host] header joined with a comma, the first
    [User-Agent] header, and the peer's address and port when the scope has
    a client. *)
Theorem request_attributes_optional (U : util) (sc : scope) (d : dict pyval) :
  collect_request_attributes U sc = Ok d ->
  dict_get "http.method" d
  = match sc_method sc with
    | Some http_method => if nonempty http_method then Some (VStr http_method) else None
    | None => None
    end
  /\ (exists host, ASGIGetter.get (sc_headers sc) "host" = Ok host
        /\ dict_get "http.server_name" d = option_map (fun l => VStr (join "," l)) host)
  /\ (exists agent, ASGIGetter.get (sc_headers sc) "user-agent" = Ok agent
        /\ dict_get "http.user_agent" d
           = match agent with
             | Some (first :: _) => Some (VStr first)
             | _ => None
             end)
  /\ dict_get "net.peer.ip" d = option_map (fun c => VStr c.1) (sc_client sc)
  /\ dict_get "net.peer.port" d = option_map (fun c => VInt c.2) (sc_client sc).
Proof.
  intros Hrun.
  destruct (collect_request_attributes_steps U sc d Hrun)
    as (url & host & agent & _ & Hhost & Hagent & Hd).
  cbv zeta in Hd.
  set (base := [ _; _; _; _; _; _ ]) in Hd.
  assert (Hbase : NoDup (map fst base))
    by (repeat (apply NoDup_cons_2;
                  [rewrite list_elem_of_In; simpl; intuition discriminate|]);
        apply NoDup_nil_2).
  match type of Hd with d = remove_none ?w => set (with_peer := w) in * end.
  assert (Hnd : NoDup (map fst with_peer)).
  { subst with_peer. keeps_sets ltac:(apply (@dict_set_NoDup pyval)); exact Hbase. }
  subst d. rewrite !(dict_get_remove_none _ _ Hnd).
  subst with_peer. clear Hnd Hbase Hrun.
  split; [clear Hhost Hagent; looked_up|].
  split; [exists host; split; [exact Hhost | clear Hhost Hagent; looked_up]|].
  split; [exists agent; split; [exact Hagent | clear Hhost Hagent; looked_up]|].
  split; clear Hhost Hagent; looked_up.
Qed.

Lemma request_attributes_optional_witness :
  exists d, collect_request_attributes Sample.U agent_scope = Ok d
            /\ dict_get "http.server_name" d = Some (VStr "example.com,alias")
            /\ dict_get "http.user_agent" d = Some (VStr "curl")
            /\ dict_get "net.peer.ip" d = None.
Proof.
  eexists. split; [vm_compute; reflexivity|].
  destruct (request_attributes_optional Sample.U agent_scope _ eq_refl)
    as (_ & (host & Hhost & Hname) & (agent & Hagent & Huser) & Hip & _).
  injection Hhost as <-. injection Hagent as <-.
  split; [exact Hname|]. split; [exact Huser | exact Hip].
Defined.

Lemma collect_request_attributes_bad_name (U : util) (sc : scope) (hs : headers) :
  sc_headers sc = Some hs -> Exists (fun kv => valid_text kv.1 = false) hs ->
  collect_request_attributes U sc
  = Raise (match request_url sc with
           | Ok _ => UnicodeDecodeError
           | Raise e => e
           end).
Proof.
  intros Hhs Hbad. unfold collect_request_attributes.
  destruct (get_host_port_url_tuple sc) as [[server_host port] url0].
  destruct (request_url sc) as [url|e]; [|reflexivity]. simpl.
  rewrite Hhs, get_some, (decoded_bad_name _ hs Hbad). reflexivity.
Qed.

(** X8.  A request with a header whose name is not UTF-8, of a supported type
    and not excluded, makes [__call__] raise before anything is done: no
    span is started, no metric instrument is touched, nothing is attached
    and the application is not called.  The exception is the decoding
    error, unless the derivation of the URL already fails. *)
Theorem undecodable_header_name_fails_request (U : util) (self : config) (E : env)
    (sc : scope) (a : app) (st : state) (hs : headers) :
  supported sc = true -> url_disabled self sc = false ->
  sc_headers sc = Some hs -> Exists (fun kv => valid_text kv.1 = false) hs ->
  __call__ U self E sc a st
  = (st, Raise (match request_url sc with
                | Ok _ => UnicodeDecodeError
                | Raise e => e
                end)).
Proof.
  intros Hsup Hexcl Hhs Hbad. unfold __call__. unfold bind at 1. unfold read.
  cbv beta iota. rewrite Hsup, Hexcl. cbv beta iota delta [negb].
  unfold enter. destruct (default_span_details self sc) as [span_name additional].
  unfold bind at 1. unfold bind at 1. unfold lift.
  now rewrite (collect_request_attributes_bad_name U sc hs Hhs Hbad).
Qed.

Lemma undecodable_header_name_fails_request_witness :
  __call__ Sample.U Sample.self Sample.E bad_name_scope (Sample.plain_app [])
    Sample.initial
  = (Sample.initial, Raise UnicodeDecodeError).
Proof.
  apply (undecodable_header_name_fails_request Sample.U Sample.self Sample.E
           bad_name_scope (Sample.plain_app []) Sample.initial
           [("host", "example.com"); (not_utf8, "x")] eq_refl eq_refl eq_refl).
  apply Exists_cons_tl, Exists_cons_hd. reflexivity.
Defined.

(** ** Span details *)

Lemma lstrip_no_leading_space (s : string) : no_leading_space (lstrip s) = true.
Proof.
  induction s as [|c r IH]; [reflexivity|]. simpl.
  destruct (is_space c) eqn:Hc; [exact IH|]. simpl. now rewrite Hc.
Qed.

Lemma lstrip_id (s : string) : no_leading_space s = true -> lstrip s = s.
Proof.
  destruct s as [|c r]; [reflexivity|]. simpl.
  now intros ->%negb_true_iff.
Qed.

Lemma rstrip_no_leading_space (s : string) :
  no_leading_space s = true -> no_leading_space (rstrip s) = true.
Proof.
  destruct s as [|c r]; [reflexivity|]. simpl.
  intros Hc. apply negb_true_iff in Hc. rewrite Hc. simpl. now rewrite Hc.
Qed.

Lemma rstrip_idem (s : string) : rstrip (rstrip s) = rstrip s.
Proof.
  induction s as [|c r IH]; [reflexivity|]. simpl.
  destruct (is_space c && negb (nonempty (rstrip r))) eqn:Hc; [reflexivity|].
  simpl. now rewrite IH, Hc.
Qed.

Lemma strip_idem (s : string) : strip (strip s) = strip s.
Proof.
  unfold strip.
  rewrite (lstrip_id (rstrip (lstrip s)))
    by apply rstrip_no_leading_space, lstrip_no_leading_space.
  apply rstrip_idem.
Qed.

Lemma strip_no_leading_space (s : string) : no_leading_space (strip s) = true.
Proof. apply rstrip_no_leading_space, lstrip_no_leading_space. Qed.

Lemma rstrip_strip (s : string) : rstrip (strip s) = strip s.
Proof. apply rstrip_idem. Qed.

Lemma nonempty_append (a b : string) : nonempty b = true -> nonempty (a ++ b) = true.
Proof. now destruct a. Qed.

Lemma rstrip_append (a b : string) :
  nonempty b = true -> rstrip b = b -> rstrip (a ++ b) = a ++ b.
Proof.
  intros Hb Hr. induction a as [|c a IH]; [exact Hr|].
  change (rstrip (String c (a ++ b)) = String c (a ++ b)). simpl.
  rewrite IH, (nonempty_append a b Hb). simpl. now rewrite andb_false_r.
Qed.

Lemma no_leading_space_append (a b : string) :
  nonempty a = true -> no_leading_space a = true -> no_leading_space (a ++ b) = true.
Proof. now destruct a. Qed.

Lemma strip_joined (a b : string) :
  nonempty a = true -> nonempty b = true -> strip a = a -> strip b = b ->
  strip (a ++ " " ++ b) = a ++ " " ++ b.
Proof.
  intros Ha Hb Hsa Hsb. unfold strip.
  assert (Hla : no_leading_space a = true)
    by (rewrite <- Hsa; apply strip_no_leading_space).
  rewrite (lstrip_id _ (no_leading_space_append a _ Ha Hla)).
  rewrite <- append_assoc. apply rstrip_append; [exact Hb|].
  rewrite <- Hsb. apply rstrip_strip.
Qed.

Lemma nonempty_false (s : string) : nonempty s = false <-> s = "".
Proof. destruct s; split; try discriminate; reflexivity. Qed.

(** X9.  The default span name for ASCII method and path, both read as empty
    when the scope has none: no attribute comes with it; the name is the
    method and the path, each without the white space around it, with one
    space between them, or the one of the two that is not blank; it has no
    white space around it, and it is empty exactly when both are blank. *)
Theorem default_span_name (sc : scope) :
  ascii_text (default "" (sc_method sc)) = true ->
  ascii_text (default "" (sc_path sc)) = true ->
  let method := strip (default "" (sc_method sc)) in
  let path := strip (default "" (sc_path sc)) in
  let name := (get_default_span_details sc).1 in
  (get_default_span_details sc).2 = []
  /\ name = (if nonempty method && nonempty path then method ++ " " ++ path
             else if nonempty path then path else method)
  /\ strip name = name
  /\ (name = "" <-> method = "" /\ path = "").
Proof.
  intros _ _ method path name. subst name. unfold get_default_span_details.
  fold method. fold path.
  destruct (nonempty method) eqn:Hm; destruct (nonempty path) eqn:Hp; simpl.
  - split; [reflexivity|]. split; [reflexivity|]. split.
    + apply strip_joined; try assumption; apply strip_idem.
    + destruct method; [discriminate|]. split; [discriminate | now intros []].
  - split; [reflexivity|]. split; [reflexivity|]. split; [apply strip_idem|].
    apply nonempty_false in Hp. rewrite Hp. tauto.
  - split; [reflexivity|]. split; [reflexivity|]. split; [apply strip_idem|].
    apply nonempty_false in Hm. rewrite Hm. tauto.
  - split; [reflexivity|]. split; [reflexivity|]. split; [apply strip_idem|].
    apply nonempty_false in Hp. rewrite Hp. tauto.
Qed.

Lemma default_span_name_witness :
  (get_default_span_details (Sample.http_scope " /a " [])).1 = "GET /a".
Proof.
  destruct (default_span_name (Sample.http_scope " /a " []) eq_refl eq_refl)
    as (_ & Hname & _).
  exact Hname.
Defined.

Lemma dict_update_cons {V} (d : dict V) (k : string) (v : V) (other : dict V) :
  dict_update d ((k, v) :: other) = dict_update (dict_set k v d) other.
Proof. reflexivity. Qed.

(** [d.update(other)]: the entries of [other] win. *)
Lemma dict_get_update {V} (other d : dict V) (k : string) :
  NoDup (map fst other) ->
  dict_get k (dict_update d other)
  = match dict_get k other with
    | Some v => Some v
    | None => dict_get k d
    end.
Proof.
  revert d. induction other as [|[k0 v0] other IH]; intros d; [reflexivity|].
  intros [Hk Hother]%NoDup_cons. rewrite dict_update_cons, (IH _ Hother). simpl.
  destruct (String.eqb_spec k0 k) as [->|Hne].
  - rewrite dict_get_set_eq.
    assert (Hnone : dict_get k other = None); [|now rewrite Hnone].
    clear -Hk. rewrite list_elem_of_In in Hk.
    induction other as [|[k' v'] other IH]; [reflexivity|]. simpl in *.
    destruct (String.eqb_spec k' k) as [->|_]; [exfalso; apply Hk; now left|].
    apply IH. intros Hin. apply Hk. now right.
  - now rewrite dict_get_set_ne.
Qed.

(** X10.  The server span is started under the name that [default_span_details]
    gives, with the collected request attributes updated by the additional
    ones, which win on a name both have; the attributes of the duration
    metric and of the active-request counter are parsed from these same
    attributes, and the counter is incremented with them for [http]. *)
Theorem server_span_attributes (U : util) (self : config) (E : env) (start : reading)
    (sc : scope) (st st1 : state) (rq : request) :
  enter U self E start sc st = (st1, Ok rq) ->
  NoDup (map fst (default_span_details self sc).2) ->
  exists collected kind,
    collect_request_attributes U sc = Ok collected
    /\ (forall k, dict_get k (rq_attributes rq)
                  = match dict_get k (default_span_details self sc).2 with
                    | Some v => Some v
                    | None => dict_get k collected
                    end)
    /\ In (EvStartSpan (rq_span rq) (default_span_details self sc).1 kind
             (rq_attributes rq) (sampled E (rq_span rq))) (log st1)
    /\ duration_attrs st1 = _parse_duration_attrs U (rq_attributes rq)
    /\ rq_active_requests_count_attrs rq
       = _parse_active_request_count_attrs U (rq_attributes rq)
    /\ (is_http sc = true ->
        In (EvCounterAdd 1 (rq_active_requests_count_attrs rq)) (log st1)).
Proof.
  unfold enter. destruct (default_span_details self sc) as [span_name additional].
  unfold bind at 1. unfold lift.
  destruct (collect_request_attributes U sc) as [attributes|e]; [|discriminate].
  unfold _start_internal_or_server_span, bind, read, lift, when, ret. simpl.
  intros Hrun Hnd. exists attributes.
  destruct (ambient_span E); simpl in Hrun.
  - exists INTERNAL.
    destruct (is_http sc); simpl in Hrun; injection Hrun as <- <-; simpl;
      (split; [reflexivity|]); (split; [intros k; now apply dict_get_update|]);
      repeat split; try tauto; try discriminate.
  - exists SERVER.
    destruct (extract (extract_fields E) (sc_headers sc)) as [[]|e]; [|discriminate].
    simpl in Hrun.
    destruct (is_http sc); simpl in Hrun; injection Hrun as <- <-; simpl;
      (split; [reflexivity|]); (split; [intros k; now apply dict_get_update|]);
      repeat split; try tauto; try discriminate.
Qed.

Lemma server_span_attributes_witness :
  let run := enter Sample.U self_renaming Sample.E epoch (Sample.http_scope "/a" [])
               Sample.initial in
  dict_get "http.host" (rq_attributes (entered run.2)) = Some (VStr "internal")
  /\ dict_get "http.target" (rq_attributes (entered run.2)) = Some (VStr "/a").
Proof.
  intros run.
  assert (Hrun : run = (run.1, Ok (entered run.2))) by (vm_compute; reflexivity).
  assert (Hnd : NoDup (map fst (default_span_details self_renaming
                                  (Sample.http_scope "/a" [])).2))
    by (apply NoDup_singleton).
  destruct (server_span_attributes Sample.U self_renaming Sample.E epoch
              (Sample.http_scope "/a" []) Sample.initial run.1 (entered run.2)
              Hrun Hnd) as (collected & kind & Hc & Hget & _).
  injection Hc as <-.
  split; [exact (Hget "http.host") | exact (Hget "http.target")].
Defined.

(** ** Blocks under a child span *)

Lemma start_as_current_span_run {A} (E : env) (name : string) (body : nat -> M A)
    (st : state) :
  let c := length (spans st) in
  start_as_current_span E name body st
  = (leave_span c (body c (enter_span E name st)).1 (body c (enter_span E name st)).2,
     (body c (enter_span E name st)).2).
Proof.
  intros c. unfold start_as_current_span, use_span, try_finally, on_exception.
  unfold bind at 1.
  change (start_child E name st) with ((start_child E name st).1, @Ok nat c).
  cbv beta iota. unfold bind at 1.
  change (emit (EvAttach (TokSpan c)) (start_child E name st).1)
    with (enter_span E name st, @Ok unit tt).
  cbv beta iota.
  destruct (body c (enter_span E name st)) as [st1 [a|e]]; unfold leave_span; simpl.
  - reflexivity.
  - unfold bind, read, when. simpl.
    match goal with |- context [if ?b then _ else _] => destruct b end; reflexivity.
Qed.

(** ** The receive wrapper *)

Lemma otel_receive_block (U : util) (self : config) (E : env) (name : string)
    (sc : scope) (rcv : M message) :
  otel_receive U self E name sc rcv
  = start_as_current_span E (join " " [name; sc_type sc; "receive"])
      (receive_block U self sc rcv).
Proof. reflexivity. Qed.

(** [set_status_code] with an integer never raises. *)
Lemma set_status_code_int (U : util) (sp : nat) (code : Z) (st : state) :
  (set_status_code U sp (VInt code) st).2 = Ok tt.
Proof.
  unfold set_status_code, bind, read. simpl. now destruct (recording_at sp st).
Qed.

Lemma otel_receive_body_result (U : util) (self : config) (sc : scope)
    (rcv : M message) (c : nat) (st : state) :
  let body := receive_block U self sc rcv c in
  let hooked := call_hook ClientRequest (client_request_hook self) sc st in
  (body st).2 = match hooked.2 with
                | Ok _ => (rcv hooked.1).2
                | Raise e => Raise e
                end
  /\ (forall e, hooked.2 = Raise e -> body st = (hooked.1, Raise e)).
Proof.
  intros body hooked. subst body hooked. unfold receive_block.
  destruct (call_hook ClientRequest (client_request_hook self) sc st)
    as [st1 [[]|e]] eqn:Hhook; simpl.
  2: { unfold bind. rewrite Hhook. split; [reflexivity | now intros e' [= <-]]. }
  split; [|discriminate].
  unfold bind at 1. rewrite Hhook.
  unfold bind at 1. destruct (rcv st1) as [st2 [message|e]]; simpl; [|reflexivity].
  unfold bind, read, when, ret. simpl.
  destruct (recording_at c st2); simpl; [|reflexivity].
  destruct (String.eqb (msg_type message) "websocket.receive"); simpl; [|reflexivity].
  pose proof (set_status_code_int U c 200 st2) as Hok.
  destruct (set_status_code U c (VInt 200) st2) as [st3 r]. simpl in Hok. now subst r.
Qed.

(** X11.  The receive wrapper is transparent: it returns the message that the
    real [receive] returns and raises the exception that it raises.  The
    real [receive] is called once the client request hook has returned;
    when the hook raises, its exception leaves the wrapper, whose run then
    does not depend on the real [receive]. *)
Theorem otel_receive_transparent (U : util) (self : config) (E : env) (name : string)
    (sc : scope) (rcv : M message) (st : state) :
  let hooked :=
    call_hook ClientRequest (client_request_hook self) sc
      (enter_span E (join " " [name; sc_type sc; "receive"]) st) in
  (otel_receive U self E name sc rcv st).2
  = match hooked.2 with
    | Ok _ => (rcv hooked.1).2
    | Raise e => Raise e
    end
  /\ (forall e, hooked.2 = Raise e ->
      (otel_receive U self E name sc rcv st).2 = Raise e
      /\ forall rcv', otel_receive U self E name sc rcv' st
                      = otel_receive U self E name sc rcv st).
Proof.
  intros hooked. subst hooked.
  set (nm := join " " [name; sc_type sc; "receive"]).
  split.
  - rewrite otel_receive_block. fold nm. rewrite start_as_current_span_run. simpl.
    apply (otel_receive_body_result U self sc rcv (length (spans st)) (enter_span E nm st)).
  - intros e He.
    assert (Hrun : forall r,
              otel_receive U self E name sc r st
              = (leave_span (length (spans st))
                   (call_hook ClientRequest (client_request_hook self) sc
                      (enter_span E nm st)).1 (@Raise message e),
                 Raise e)).
    { intros r. rewrite otel_receive_block. fold nm. rewrite start_as_current_span_run.
      destruct (otel_receive_body_result U self sc r (length (spans st))
                  (enter_span E nm st)) as [_ Hraise].
      cbv zeta in Hraise. rewrite (Hraise e He). reflexivity. }
    split; [now rewrite (Hrun rcv) | intros rcv'; now rewrite !Hrun].
Qed.

(** ** The two parts of the send block *)

Lemma otel_send_block_split (U : util) (self : config) (E : env) (sp : nat)
    (snd : message -> M unit) (m : message) (c : nat) (st : state) :
  otel_send_block U self E sp snd m c st
  = bind (inspected U self sp m c) (fun _ => forwarded E sp snd m) st.
Proof.
  unfold otel_send_block, inspected, forwarded. unfold bind at 1 7 8.
  destruct (call_hook ClientResponse (client_response_hook self) m st)
    as [st1 [[]|e]]; [|reflexivity].
  unfold bind at 1 6 7. unfold read. cbv beta iota.
  unfold bind at 1 6.
  destruct (when (recording_at c st1) (inspect U self sp c m) st1) as [st2 [[]|e]];
    reflexivity.
Qed.

Section Annotating.
Context (U : util) (self : config).
Context (G : state -> Prop) (R : state -> state -> Prop).
Hypothesis R_refl : forall st, R st st.
Hypothesis R_trans : forall a b c, R a b -> R b c -> R a c.
Hypothesis H_note : forall e, is_annotation e = true -> respects G R (emit e).

Lemma noting_call_hook {X} (name : hook_name) (hook : option (X -> option exn)) (x : X) :
  respects G R (call_hook name hook x).
Proof.
  unfold call_hook. destruct hook as [f|]; [|now apply respects_ret].
  apply respects_bind; [exact R_trans | now apply H_note |]. intros _.
  destruct (f x); [now apply respects_raise | now apply respects_ret].
Qed.

Lemma noting_set_status_code (sp : nat) (status_code : pyval) :
  respects G R (set_status_code U sp status_code).
Proof.
  unfold set_status_code.
  apply respects_bind; [exact R_trans | now apply respects_read |].
  intros recording. destruct (negb recording); [now apply respects_ret|].
  destruct (int status_code) as [code|e].
  - apply respects_bind; [exact R_trans | now apply H_note |]. intros _.
    now apply H_note.
  - destruct (is_ValueError e); [now apply H_note | now apply respects_raise].
Qed.

(** What [inspect] does once the status code is in the metric attributes. *)
Lemma noting_inspect_rest (sp child : nat) (m : message) :
  respects G R (emit (EvSetAttribute child "asgi.event.type" (VStr (msg_type m)))) ->
  respects G R
    (let! _ := emit (EvSetAttribute child "asgi.event.type" (VStr (msg_type m))) in
     let! server_recording := read (recording_at sp) in
     let! server_kind := read (kind_at sp) in
     match server_recording, server_kind, msg_headers m with
     | true, SERVER, Some _ =>
       let! custom_response_attributes :=
         capture U self (msg_headers m) (http_capture_headers_server_response self)
           normalise_response_header_name in
       match custom_response_attributes with
       | [] => ret tt
       | _ => emit (EvSetAttributes sp custom_response_attributes)
       end
     | _, _, _ => ret tt
     end).
Proof.
  intros Hemit.
  apply respects_bind; [exact R_trans | exact Hemit |]. intros _.
  apply respects_bind; [exact R_trans | now apply respects_read |]. intros server_recording.
  apply respects_bind; [exact R_trans | now apply respects_read |]. intros server_kind.
  destruct server_recording, server_kind, (msg_headers m); try now apply respects_ret.
  apply respects_bind; [exact R_trans | now apply respects_capture |]. intros attrs.
  destruct attrs; [now apply respects_ret | now apply H_note].
Qed.

Hypothesis H_attrs : forall d, respects G R (set_duration_attrs d).
Hypothesis H_flag : forall v, respects G R (set_expecting_trailers v).

Lemma noting_inspect (sp child : nat) (m : message) :
  respects G R (inspect U self sp child m).
Proof.
  unfold inspect.
  apply respects_bind; [exact R_trans | |].
  - destruct (String.eqb (msg_type m) "http.response.start").
    + apply respects_bind; [exact R_trans | |].
      { destruct (msg_status m); [now apply respects_ret | now apply respects_raise]. }
      intros status_code.
      apply respects_bind; [exact R_trans | now apply respects_read |]. intros attrs.
      apply respects_bind; [exact R_trans | apply H_attrs |]. intros _.
      apply respects_bind; [exact R_trans | apply noting_set_status_code |]. intros _.
      apply respects_bind; [exact R_trans | apply noting_set_status_code |]. intros _.
      apply H_flag.
    + destruct (String.eqb (msg_type m) "websocket.send"); [|now apply respects_ret].
      apply respects_bind; [exact R_trans | apply noting_set_status_code |]. intros _.
      apply noting_set_status_code.
  - intros _.
    apply (noting_inspect_rest sp child m). now apply H_note.
Qed.

Lemma noting_inspected (sp : nat) (m : message) (c : nat) :
  respects G R (inspected U self sp m c).
Proof.
  unfold inspected.
  apply respects_bind; [exact R_trans | apply noting_call_hook |]. intros _.
  apply respects_bind; [exact R_trans | now apply respects_read |]. intros recording.
  apply respects_when; [exact R_refl | apply noting_inspect].
Qed.

End Annotating.

Lemma annotated_refl (st : state) : annotated st st.
Proof. repeat split. exists []. split; [reflexivity | constructor]. Qed.

Lemma annotated_trans (a b c : state) : annotated a b -> annotated b c -> annotated a c.
Proof.
  intros ((n1 & L1 & F1) & S1 & C1) ((n2 & L2 & F2) & S2 & C2).
  repeat split; try congruence.
  exists (n2 ++ n1)%list. split.
  - rewrite L2, L1. now rewrite app_assoc.
  - now apply Forall_app.
Qed.

Lemma annotated_silent (st st' : state) :
  log st' = log st -> spans st' = spans st ->
  content_length_header st' = content_length_header st -> annotated st st'.
Proof.
  intros Hl Hs Hc. repeat split; try assumption.
  exists []. split; [exact Hl | constructor].
Qed.

Lemma inspected_annotated (U : util) (self : config) (sp : nat) (m : message) (c : nat)
    (st : state) :
  annotated st (inspected U self sp m c st).1.
Proof.
  apply (noting_inspected U self always annotated annotated_refl annotated_trans).
  - intros e He st0 _. split; [exact I|]. repeat split.
    exists [e]. split; [reflexivity | now repeat constructor].
  - intros d st0 _. split; [exact I | now apply annotated_silent].
  - intros v st0 _. split; [exact I | now apply annotated_silent].
  - exact I.
Qed.

(** ** The send wrapper *)

Lemma forwarded_run (E : env) (sp : nat) (m : message) (st : state) :
  let pm := propagated E sp m in
  forwarded E sp (send E) m st
  = match ASGIGetter.get (msg_headers pm) "content-length" with
    | Raise e => (st, Raise e)
    | Ok values =>
      let st1 := match content_length_of values with
                 | Some n => (set_content_length_header (Some n) st).1
                 | None => st
                 end in
      ((emit (EvSend pm) st1).1,
       match transport_send E (length (log st1)) pm with
       | None => Ok pm
       | Some e => Raise e
       end)
    end.
Proof.
  intros pm. unfold forwarded. fold pm. unfold bind at 1. unfold lift.
  destruct (ASGIGetter.get (msg_headers pm) "content-length") as [values|e];
    [|reflexivity].
  unfold bind at 1. rewrite with_content_length_run.
  destruct (content_length_of values) as [n|]; simpl;
    unfold send; unfold bind, read, ret, raise; simpl;
    match goal with |- context [transport_send E ?n pm] =>
      destruct (transport_send E n pm) end; reflexivity.
Qed.

Lemma otel_send_run (U : util) (self : config) (E : env) (sp : nat) (name : string)
    (sc : scope) (m : message) (st : state) :
  let c := length (spans st) in
  let st0 := enter_span E (join " " [name; sc_type sc; "send"]) st in
  let pm := propagated E sp m in
  let block := bind (inspected U self sp m c) (fun _ => forwarded E sp (send E) m) st0 in
  let st3 := leave_span c block.1 block.2 in
  otel_send U self E sp name sc (send E) m st
  = match block.2 with
    | Ok _ => (if is_final (expecting_trailers st3) pm
               then (span_end sp st3).1 else st3, Ok tt)
    | Raise e => (st3, Raise e)
    end.
Proof.
  intros c st0 pm block st3. unfold otel_send. unfold bind at 1.
  rewrite start_as_current_span_run. fold c. fold st0.
  rewrite otel_send_block_split. fold block. fold st3.
  pose proof (otel_send_block_yields U self E sp (send E) m c st0) as Hy.
  rewrite otel_send_block_split in Hy. fold block in Hy.
  destruct block as [st1 [m'|e]] eqn:Hblock; simpl in *; [|reflexivity].
  rewrite (Hy st1 m' eq_refl). fold pm.
  unfold bind, read, when. simpl.
  match goal with |- context [if ?b then _ else _] => destruct b end; reflexivity.
Qed.

Lemma class_misses (p q : event -> bool) (l : list event) :
  (forall e, p e = true -> q e = false) ->
  Forall (fun e => p e = true) l -> misses q l.
Proof. intros Hq Hl. unfold misses. eapply Forall_impl; [exact Hl | exact Hq]. Qed.

Lemma enter_span_log (E : env) (name : string) (st : state) :
  let c := length (spans st) in
  log (enter_span E name st)
  = EvAttach (TokSpan c) :: EvStartSpan c name INTERNAL [] (sampled E c) :: log st.
Proof. reflexivity. Qed.

Lemma leave_span_log {A} (c : nat) (st : state) (r : outcome A) :
  exists new, log (leave_span c st r) = (new ++ log st)%list
              /\ Forall (fun e => is_exit e = true) new.
Proof.
  unfold leave_span. destruct r as [a|e]; simpl.
  - eexists [_; _]. split; [reflexivity | now repeat constructor].
  - match goal with |- context [if ?b then _ else _] => destruct b end; simpl.
    + eexists [_; _; _; _]. split; [reflexivity | now repeat constructor].
    + eexists [_; _]. split; [reflexivity | now repeat constructor].
Qed.

Lemma log_span_end (sid : nat) (st : state) :
  log (span_end sid st).1 = EvEndSpan sid (recording_at sid st) :: log st.
Proof. reflexivity. Qed.

Lemma filter_app_misses (q : event -> bool) (l1 l2 : list event) :
  misses q l1 -> List.filter q (l1 ++ l2)%list = List.filter q l2.
Proof. intros H. now rewrite List.filter_app, (misses_filter q l1 H). Qed.


(** What a call of the send wrapper adds to the log, by how its two parts
    end.  [sent] tells whether the message reached the real [send]. *)
Lemma otel_send_log (U : util) (self : config) (E : env) (sp : nat) (name : string)
    (sc : scope) (m : message) (st : state) :
  let c := length (spans st) in
  let st0 := enter_span E (join " " [name; sc_type sc; "send"]) st in
  let pm := propagated E sp m in
  let run := otel_send U self E sp name sc (send E) m st in
  let first := inspected U self sp m c st0 in
  let sent := match first.2, ASGIGetter.get (msg_headers pm) "content-length" with
              | Ok _, Ok _ => true
              | _, _ => false
              end in
  exists before after,
    log run.1 = (after ++ (if sent then [EvSend pm] else []) ++ before ++ log st)%list
    /\ misses is_transport before /\ misses is_transport after
    /\ (sent = false -> exists e, run.2 = Raise e).
Proof.
  intros c st0 pm run first sent. subst run. rewrite otel_send_run.
  fold c. fold st0. fold pm. cbv zeta.
  set (block := bind (inspected U self sp m c) (fun _ => forwarded E sp (send E) m) st0).
  assert (Hblock : block = match first with
                           | (st1, Ok _) => forwarded E sp (send E) m st1
                           | (st1, Raise e) => (st1, Raise e)
                           end) by reflexivity.
  clearbody block.
  destruct (inspected_annotated U self sp m c st0) as ((new1 & Hlog1 & Hnew1) & _ & _).
  fold first in Hlog1.
  set (started := [EvAttach (TokSpan c);
                   EvStartSpan c (join " " [name; sc_type sc; "send"]) INTERNAL []
                     (sampled E c)]).
  assert (Hstart : log st0 = (started ++ log st)%list) by reflexivity.
  assert (Hbefore : misses is_transport (new1 ++ started)%list).
  { apply misses_app; [|now repeat constructor].
    apply (class_misses is_annotation); [|exact Hnew1].
    intros e He. unfold is_annotation in He.
    apply andb_true_iff in He as [_ He]. now apply negb_true_iff in He. }
  assert (Hexit : forall new,
            Forall (fun e => is_exit e = true) new -> misses is_transport new).
  { intros new Hnew. apply (class_misses is_exit); [no_events | exact Hnew]. }
  subst sent.
  destruct first as [st1 [[]|e1]]; cbn [fst snd] in *.
  - rewrite forwarded_run in Hblock. fold pm in Hblock.
    destruct (ASGIGetter.get (msg_headers pm) "content-length") as [values|e2].
    + cbv zeta in Hblock.
      set (st2 := match content_length_of values with
                  | Some n => (set_content_length_header (Some n) st1).1
                  | None => st1
                  end) in Hblock.
      assert (Hlog2 : log st2 = log st1) by (subst st2; now destruct (content_length_of _)).
      assert (Hlog4 : log (emit (EvSend pm) st2).1 = EvSend pm :: log st2) by reflexivity.
      set (st4 := (emit (EvSend pm) st2).1) in *.
      set (r4 := match transport_send E (length (log st2)) pm with
                 | Some e => Raise e
                 | None => Ok pm
                 end) in Hblock.
      subst block. cbn [fst snd].
      destruct (leave_span_log c st4 r4) as (new3 & Hlog3 & Hnew3).
      assert (Hall : forall l, (l ++ log st4 = l ++ [EvSend pm] ++ (new1 ++ started) ++ log st)%list).
      { intros l. rewrite Hlog4, Hlog2, Hlog1, Hstart. now rewrite <- !app_assoc. }
      destruct r4 as [m4|e4]; cbn [fst snd].
      * destruct (is_final _ pm).
        -- exists (new1 ++ started)%list,
             (EvEndSpan sp (recording_at sp (leave_span c st4 (Ok m4))) :: new3).
           split; [|split; [exact Hbefore | split; [|discriminate]]].
           ++ rewrite log_span_end, Hlog3. simpl. f_equal. apply Hall.
           ++ constructor; [reflexivity | now apply Hexit].
        -- exists (new1 ++ started)%list, new3.
           split; [|split; [exact Hbefore | split; [now apply Hexit | discriminate]]].
           rewrite Hlog3. apply Hall.
      * exists (new1 ++ started)%list, new3.
        split; [|split; [exact Hbefore | split; [now apply Hexit | discriminate]]].
        rewrite Hlog3. apply Hall.
    + subst block. cbn [fst snd].
      destruct (leave_span_log c st1 (@Raise message e2)) as (new3 & Hlog3 & Hnew3).
      exists (new1 ++ started)%list, new3.
      split; [|split; [exact Hbefore | split]].
      * rewrite Hlog3, Hlog1, Hstart. simpl. now rewrite <- !app_assoc.
      * now apply Hexit.
      * intros _. now exists e2.
  - subst block. cbn [fst snd].
    destruct (leave_span_log c st1 (@Raise message e1)) as (new3 & Hlog3 & Hnew3).
    exists (new1 ++ started)%list, new3.
    split; [|split; [exact Hbefore | split]].
    + rewrite Hlog3, Hlog1, Hstart. simpl. now rewrite <- !app_assoc.
    + now apply Hexit.
    + intros _. now exists e1.
Qed.

(** How a call of the send wrapper ends: as its first part when that
    raises, else as the lookup of the content length when that raises, else
    as the real [send]. *)
Lemma otel_send_outcome (U : util) (self : config) (E : env) (sp : nat) (name : string)
    (sc : scope) (m : message) (st : state) :
  let c := length (spans st) in
  let st0 := enter_span E (join " " [name; sc_type sc; "send"]) st in
  let pm := propagated E sp m in
  let first := inspected U self sp m c st0 in
  (otel_send U self E sp name sc (send E) m st).2
  = match first.2 with
    | Raise e => Raise e
    | Ok _ =>
      match ASGIGetter.get (msg_headers pm) "content-length" with
      | Raise e => Raise e
      | Ok _ =>
        match transport_send E (length (log first.1)) pm with
        | Some e => Raise e
        | None => Ok tt
        end
      end
    end.
Proof.
  intros c st0 pm first. rewrite otel_send_run.
  fold c. fold st0. fold pm. cbv zeta.
  set (block := bind (inspected U self sp m c) (fun _ => forwarded E sp (send E) m) st0).
  assert (Hblock : block = match first with
                           | (st1, Ok _) => forwarded E sp (send E) m st1
                           | (st1, Raise e) => (st1, Raise e)
                           end) by reflexivity.
  clearbody block.
  destruct first as [st1 [[]|e1]]; cbn [fst snd] in *; [|now subst block].
  rewrite forwarded_run in Hblock. fold pm in Hblock.
  destruct (ASGIGetter.get (msg_headers pm) "content-length") as [values|e2];
    [|now subst block].
  cbv zeta in Hblock.
  assert (Hlog2 : log (match content_length_of values with
                       | Some n => (set_content_length_header (Some n) st1).1
                       | None => st1
                       end) = log st1) by now destruct (content_length_of _).
  rewrite Hlog2 in Hblock. subst block. cbn [fst snd].
  now destruct (transport_send E (length (log st1)) pm).
Qed.

(** X12.  The send wrapper calls the real [send] at most once and never calls
    the real [receive].  What it passes on is the message the application
    sent, as the response propagator left it.  A call that returns has
    passed the message on; when the client response hook raises, the
    message is not passed on and the hook's exception leaves the wrapper. *)
Theorem message_forwarded_once (U : util) (self : config) (E : env) (sp : nat)
    (name : string) (sc : scope) (m : message) (st : state) :
  let run := otel_send U self E sp name sc (send E) m st in
  let pm := propagated E sp m in
  exists new,
    log run.1 = (new ++ log st)%list
    /\ misses is_receive new
    /\ (List.filter is_send new = [EvSend pm] \/ List.filter is_send new = [])
    /\ (run.2 = Ok tt -> List.filter is_send new = [EvSend pm])
    /\ (forall f e, client_response_hook self = Some f -> f m = Some e ->
        List.filter is_send new = [] /\ run.2 = Raise e).
Proof.
  intros run pm.
  destruct (otel_send_log U self E sp name sc m st)
    as (before & after & Hlog & Hbefore & Hafter & Hsent).
  pose proof (otel_send_outcome U self E sp name sc m st) as Hout.
  cbv zeta in Hlog, Hsent, Hout. fold run in Hlog, Hsent, Hout. fold pm in Hlog, Hout.
  set (first := inspected U self sp m (length (spans st)) _) in *.
  set (sent := match first.2 with
               | Ok _ => match ASGIGetter.get (msg_headers pm) "content-length" with
                         | Ok _ => true
                         | Raise _ => false
                         end
               | Raise _ => false
               end) in *.
  assert (Hsends : forall l, misses is_transport l -> misses is_send l)
    by (intros l; apply misses_weaken; no_events).
  assert (Hreceives : forall l, misses is_transport l -> misses is_receive l)
    by (intros l; apply misses_weaken; no_events).
  assert (Hfilter : List.filter is_send (after ++ (if sent then [EvSend pm] else [])
                                         ++ before)%list
                    = if sent then [EvSend pm] else []).
  { rewrite (filter_app_misses _ _ _ (Hsends _ Hafter)), List.filter_app.
    rewrite (misses_filter _ _ (Hsends _ Hbefore)), app_nil_r.
    now destruct sent. }
  exists (after ++ (if sent then [EvSend pm] else []) ++ before)%list.
  split; [now rewrite Hlog, <- !app_assoc|].
  split.
  { apply misses_app; [now apply Hreceives|].
    apply misses_app; [|now apply Hreceives]. destruct sent; now repeat constructor. }
  rewrite Hfilter. split; [destruct sent; tauto|]. split.
  - intros Hok. destruct sent eqn:Hs; [reflexivity|].
    destruct (Hsent Hs) as [e He]. congruence.
  - intros f e Hf Hfm.
    assert (Hfirst : first.2 = Raise e).
    { subst first. unfold inspected, call_hook. rewrite Hf. unfold bind. simpl.
      now rewrite Hfm. }
    subst sent. rewrite Hout, Hfirst. split; reflexivity.
Qed.

Lemma recording_enter_span (E : env) (name : string) (st : state) :
  recording_at (length (spans st)) (enter_span E name st) = sampled E (length (spans st)).
Proof.
  unfold recording_at, enter_span. simpl.
  rewrite list_lookup_middle by reflexivity. unfold is_recording. simpl.
  apply andb_true_r.
Qed.

Lemma recording_at_logged (sp : nat) (new : list event) (st : state) :
  recording_at sp (logged new st) = recording_at sp st.
Proof. reflexivity. Qed.

(** A hook that returns leaves at most its own event. *)
Lemma call_hook_returns (self : config) (m : message) (st : state) :
  hook_returns self m = true ->
  exists new, call_hook ClientResponse (client_response_hook self) m st
              = (logged new st, Ok tt)
              /\ (length new <= 1)%nat.
Proof.
  unfold hook_returns, call_hook. destruct (client_response_hook self) as [f|].
  - destruct (f m); [discriminate|]. intros _. exists [EvHook ClientResponse].
    split; [reflexivity | simpl; lia].
  - intros _. exists []. split; [now destruct st | simpl; lia].
Qed.

Lemma inspected_run (U : util) (self : config) (sp : nat) (m : message) (c : nat)
    (st : state) :
  hook_returns self m = true ->
  exists new,
    (length new <= 1)%nat
    /\ inspected U self sp m c st
       = if recording_at c st then inspect U self sp c m (logged new st)
         else (logged new st, Ok tt).
Proof.
  intros Hhook. destruct (call_hook_returns self m st Hhook) as (new & Hrun & Hlen).
  exists new. split; [exact Hlen|].
  unfold inspected. unfold bind at 1. rewrite Hrun.
  unfold bind, read, when. simpl. rewrite recording_at_logged.
  destruct (recording_at c st); [|reflexivity].
  now destruct (inspect U self sp c m (logged new st)) as [st1 [[]|e]].
Qed.

Lemma inspect_missing_status (U : util) (self : config) (sp c : nat) (m : message)
    (st : state) :
  msg_type m = "http.response.start" -> msg_status m = None ->
  inspect U self sp c m st = (st, Raise (KeyError "status")).
Proof.
  intros Htype Hstatus. unfold inspect. rewrite Htype, Hstatus. reflexivity.
Qed.

Lemma headers_propagated (E : env) (sp : nat) (m : message) (hs : headers) :
  msg_headers m = Some hs ->
  exists more, msg_headers (propagated E sp m) = Some (hs ++ more)%list.
Proof.
  intros Hhs. unfold propagated. destruct (response_propagator E) as [f|].
  - destruct (inject_headers (f sp) m) as (Hh & _). rewrite Hh, Hhs.
    destruct (f sp) as [|kv fields]; [exists []; now rewrite app_nil_r|].
    eexists. reflexivity.
  - exists []. now rewrite app_nil_r.
Qed.

(** X13.  An [http.response.start] without a status, passed to the send wrapper
    with a hook that returns, if there is one.  Under a send span that
    records, the wrapper raises [KeyError] and the message is not passed
    on.  Under a send span that does not record the status is not read: the
    wrapper ends as the lookup of the content length and the real [send]
    do. *)
Theorem missing_status_raises (U : util) (self : config) (E : env) (sp : nat)
    (name : string) (sc : scope) (m : message) (st : state) :
  hook_returns self m = true ->
  msg_type m = "http.response.start" -> msg_status m = None ->
  let run := otel_send U self E sp name sc (send E) m st in
  let pm := propagated E sp m in
  (sampled E (length (spans st)) = true ->
   run.2 = Raise (KeyError "status")
   /\ exists new, log run.1 = (new ++ log st)%list /\ misses is_send new)
  /\ (sampled E (length (spans st)) = false ->
      exists n,
        run.2 = (let? _ := ASGIGetter.get (msg_headers pm) "content-length" in
                 match transport_send E n pm with
                 | Some e => Raise e
                 | None => Ok tt
                 end)).
Proof.
  intros Hhook Htype Hstatus run pm.
  pose proof (otel_send_outcome U self E sp name sc m st) as Hout.
  destruct (otel_send_log U self E sp name sc m st)
    as (before & after & Hlog & Hbefore & Hafter & _).
  cbv zeta in Hout, Hlog. fold run in Hout, Hlog. fold pm in Hout, Hlog.
  set (st0 := enter_span E (join " " [name; sc_type sc; "send"]) st) in *.
  destruct (inspected_run U self sp m (length (spans st)) st0 Hhook)
    as (new & _ & Hfirst).
  unfold st0 in Hfirst at 2. rewrite recording_enter_span in Hfirst. fold st0 in Hfirst.
  split; intros Hsampled; rewrite Hsampled in Hfirst.
  - rewrite (inspect_missing_status U self sp _ m _ Htype Hstatus) in Hfirst.
    rewrite Hfirst in Hout, Hlog. cbn [fst snd] in Hout, Hlog.
    split; [exact Hout|].
    exists (after ++ before)%list. split; [now rewrite Hlog, <- app_assoc|].
    apply misses_app; eapply misses_weaken; try eassumption; no_events.
  - rewrite Hfirst in Hout. cbn [fst snd] in Hout.
    exists (length (log (logged new st0))). rewrite Hout.
    now destruct (ASGIGetter.get (msg_headers pm) "content-length").
Qed.

Lemma missing_status_raises_witness :
  (otel_send Sample.U Sample.self Sample.E 0 "GET /a" (Sample.http_scope "/a" [])
     (send Sample.E) statusless_start one_recording_span).2
  = Raise (KeyError "status")
  /\ (otel_send Sample.U Sample.self (Sample.E_sampling (fun n => Nat.eqb n 0)) 0
        "GET /a" (Sample.http_scope "/a" [])
        (send (Sample.E_sampling (fun n => Nat.eqb n 0))) statusless_start
        one_recording_span).2
     = Ok tt.
Proof.
  split.
  - destruct (missing_status_raises Sample.U Sample.self Sample.E 0 "GET /a"
                (Sample.http_scope "/a" []) statusless_start one_recording_span
                eq_refl eq_refl eq_refl) as [Hrec _].
    exact (proj1 (Hrec eq_refl)).
  - destruct (missing_status_raises Sample.U Sample.self
                (Sample.E_sampling (fun n => Nat.eqb n 0)) 0 "GET /a"
                (Sample.http_scope "/a" []) statusless_start one_recording_span
                eq_refl eq_refl eq_refl) as [_ Hdrop].
    destruct (Hdrop eq_refl) as [n Hn]. exact Hn.
Defined.

(** X14.  A response header whose name is not UTF-8 stops the message: the send
    wrapper raises and the real [send] is not called.  Without a hook and
    under a send span that does not record, the exception is the decoding
    error. *)
Theorem undecodable_response_header_blocks_send (U : util) (self : config) (E : env)
    (sp : nat) (name : string) (sc : scope) (m : message) (st : state)
    (hs : headers) :
  msg_headers m = Some hs -> Exists (fun kv => valid_text kv.1 = false) hs ->
  let run := otel_send U self E sp name sc (send E) m st in
  (exists e, run.2 = Raise e)
  /\ (exists new, log run.1 = (new ++ log st)%list /\ misses is_send new)
  /\ (client_response_hook self = None -> sampled E (length (spans st)) = false ->
      run.2 = Raise UnicodeDecodeError).
Proof.
  intros Hhs Hbad run.
  pose proof (otel_send_outcome U self E sp name sc m st) as Hout.
  destruct (otel_send_log U self E sp name sc m st)
    as (before & after & Hlog & Hbefore & Hafter & _).
  cbv zeta in Hout, Hlog. fold run in Hout, Hlog.
  destruct (headers_propagated E sp m hs Hhs) as (more & Hpm).
  assert (Hget : ASGIGetter.get (msg_headers (propagated E sp m)) "content-length"
                 = Raise UnicodeDecodeError).
  { rewrite Hpm, get_some. rewrite decoded_bad_name; [reflexivity|].
    apply Exists_app. now left. }
  rewrite Hget in Hout, Hlog.
  set (first := inspected U self sp m (length (spans st)) _) in *.
  assert (Hnot : (match first.2 with Ok _ => false | Raise _ => false end) = false)
    by now destruct first.2.
  split; [|split].
  - rewrite Hout. destruct first.2; now eexists.
  - exists (after ++ before)%list. rewrite Hnot in Hlog.
    split; [now rewrite Hlog, <- app_assoc|].
    apply misses_app; eapply misses_weaken; try eassumption; no_events.
  - intros Hnone Hdrop. rewrite Hout.
    assert (Hhook : hook_returns self m = true) by (unfold hook_returns; now rewrite Hnone).
    destruct (inspected_run U self sp m (length (spans st))
                (enter_span E (join " " [name; sc_type sc; "send"]) st) Hhook)
      as (new & _ & Hfirst).
    rewrite recording_enter_span, Hdrop in Hfirst.
    subst first. now rewrite Hfirst.
Qed.

Lemma undecodable_response_header_blocks_send_witness :
  let run := otel_send Sample.U Sample.self (Sample.E_sampling (fun n => Nat.eqb n 0)) 0
               "GET /a" (Sample.http_scope "/a" [])
               (send (Sample.E_sampling (fun n => Nat.eqb n 0)))
               (Sample.start_event (VInt 200) [(not_utf8, "x")] None)
               one_recording_span in
  run.2 = Raise UnicodeDecodeError /\ count is_send (log run.1) = 0%nat.
Proof.
  intros run.
  assert (Hbad : Exists (fun kv : string * string => valid_text kv.1 = false)
                   [(not_utf8, "x")]) by (apply Exists_cons_hd; reflexivity).
  destruct (undecodable_response_header_blocks_send Sample.U Sample.self
              (Sample.E_sampling (fun n => Nat.eqb n 0)) 0 "GET /a"
              (Sample.http_scope "/a" [])
              (Sample.start_event (VInt 200) [(not_utf8, "x")] None)
              one_recording_span [(not_utf8, "x")] eq_refl Hbad)
    as (_ & (new & Hlog & Hnew) & Hraise).
  split; [exact (Hraise eq_refl eq_refl)|].
  fold run in Hlog. rewrite Hlog, app_nil_r. now apply misses_count.
Defined.

Lemma leave_span_cache {A} (c : nat) (st : state) (r : outcome A) :
  content_length_header (leave_span c st r) = content_length_header st
  /\ duration_attrs (leave_span c st r) = duration_attrs st
  /\ expecting_trailers (leave_span c st r) = expecting_trailers st.
Proof.
  unfold leave_span. destruct r as [a|e]; simpl; [now repeat split|].
  match goal with |- context [if ?b then _ else _] => destruct b end; now repeat split.
Qed.

(** The cached content length after a call of the send wrapper. *)
Lemma otel_send_cache (U : util) (self : config) (E : env) (sp : nat) (name : string)
    (sc : scope) (m : message) (st : state) :
  let c := length (spans st) in
  let st0 := enter_span E (join " " [name; sc_type sc; "send"]) st in
  let pm := propagated E sp m in
  let first := inspected U self sp m c st0 in
  content_length_header (otel_send U self E sp name sc (send E) m st).1
  = match first.2, ASGIGetter.get (msg_headers pm) "content-length" with
    | Ok _, Ok values =>
      match content_length_of values with
      | Some n => Some n
      | None => content_length_header st
      end
    | _, _ => content_length_header st
    end.
Proof.
  intros c st0 pm first. rewrite otel_send_run.
  fold c. fold st0. fold pm. cbv zeta.
  set (block := bind (inspected U self sp m c) (fun _ => forwarded E sp (send E) m) st0).
  assert (Hblock : block = match first with
                           | (st1, Ok _) => forwarded E sp (send E) m st1
                           | (st1, Raise e) => (st1, Raise e)
                           end) by reflexivity.
  clearbody block.
  destruct (inspected_annotated U self sp m c st0) as (_ & _ & Hcache).
  fold first in Hcache. change (content_length_header st0) with (content_length_header st) in Hcache.
  assert (Hleave : forall (r : outcome message) s,
            content_length_header (leave_span c s r) = content_length_header s)
    by (intros r s; apply leave_span_cache).
  assert (Hend : forall sid s,
            content_length_header (span_end sid s).1 = content_length_header s)
    by reflexivity.
  destruct first as [st1 [[]|e1]]; cbn [fst snd] in *.
  - rewrite forwarded_run in Hblock. fold pm in Hblock.
    destruct (ASGIGetter.get (msg_headers pm) "content-length") as [values|e2].
    + subst block. cbn [fst snd].
      destruct (transport_send E _ pm); cbn [fst snd];
        try destruct (is_final _ pm); rewrite ?Hend, Hleave;
        (destruct (content_length_of values); simpl; [reflexivity | exact Hcache]).
    + subst block. cbn [fst snd]. now rewrite Hleave.
  - subst block. cbn [fst snd]. now rewrite Hleave.
Qed.

(** X15.  The content length that the send wrapper caches on the middleware.
    After a call that returns, it is the first [content-length] header of
    the message passed on, when that is an integer literal, which is then
    an ASCII text; it is as before the call when the message has no such
    header, or when the first one is an ASCII text that [int] does not
    read, which raises nothing.  After any call for a message whose first
    [content-length] header, if there is one, is an ASCII text, it is as
    before or a value read that way. *)
Theorem content_length_cached (U : util) (self : config) (E : env) (sp : nat)
    (name : string) (sc : scope) (m : message) (st : state) :
  let run := otel_send U self E sp name sc (send E) m st in
  let lookup := ASGIGetter.get (msg_headers (propagated E sp m)) "content-length" in
  (run.2 = Ok tt ->
   exists values,
     lookup = Ok values
     /\ (forall n, content_length_of values = Some n ->
           content_length_header run.1 = Some n)
     /\ (values = None -> content_length_header run.1 = content_length_header st)
     /\ (forall first rest n, values = Some (first :: rest) ->
           content_length_of values = Some n -> ascii_text first = true)
     /\ (forall first rest, values = Some (first :: rest) -> ascii_text first = true ->
           int_of_text first = None ->
           content_length_header run.1 = content_length_header st))
  /\ ((forall first rest, lookup = Ok (Some (first :: rest)) -> ascii_text first = true) ->
      content_length_header run.1 = content_length_header st
      \/ exists values n, lookup = Ok values /\ content_length_of values = Some n
                          /\ content_length_header run.1 = Some n).
Proof.
  intros run lookup.
  pose proof (otel_send_outcome U self E sp name sc m st) as Hout.
  pose proof (otel_send_cache U self E sp name sc m st) as Hcache.
  cbv zeta in Hout, Hcache. fold run in Hout, Hcache. fold lookup in Hout, Hcache.
  set (first := inspected U self sp m (length (spans st)) _) in *.
  split.
  - intros Hok. rewrite Hok in Hout.
    destruct first.2 as [[]|e]; [|discriminate].
    destruct lookup as [values|e]; [|discriminate].
    exists values. split; [reflexivity|]. split; [|split; [|split]].
    + intros n Hn. now rewrite Hcache, Hn.
    + intros ->. exact Hcache.
    + intros v rest n -> Hn. exact (int_of_text_ascii v n Hn).
    + intros v rest -> _ Hnone. rewrite Hcache. simpl. now rewrite Hnone.
  - intros _. destruct first.2 as [[]|e]; [|now left].
    destruct lookup as [values|e]; [|now left].
    destruct (content_length_of values) as [n|] eqn:Hn; [|now left].
    right. exists values, n. now repeat split.
Qed.

(** An inspection that returns has set the flag from a start of response. *)
Lemma inspect_sets_flag (U : util) (self : config) (sp c : nat) (m : message)
    (st st' : state) :
  msg_type m = "http.response.start" ->
  inspect U self sp c m st = (st', Ok tt) ->
  expecting_trailers st' = get_flag (msg_trailers m).
Proof.
  intros Htype. unfold inspect. rewrite Htype. cbn [String.eqb Ascii.eqb Bool.eqb].
  unfold bind at 1.
  match goal with |- context [let (_, _) := ?first st in _] =>
    destruct (first st) as [st1 [[]|e]] eqn:Hfirst end; [|discriminate].
  assert (Hflag : expecting_trailers st1 = get_flag (msg_trailers m)).
  { revert Hfirst. destruct (msg_status m) as [v|]; [|discriminate].
    unfold bind, read, ret. simpl.
    match goal with |- context [set_status_code U sp v ?s] =>
      destruct (set_status_code U sp v s) as [s1 [[]|e1]] end; [|discriminate].
    destruct (set_status_code U c v s1) as [s2 [[]|e2]]; [|discriminate].
    now intros [= <-]. }
  intros Hrest.
  pose proof (noting_inspect_rest U self always
                (fun a b => expecting_trailers b = expecting_trailers a)
                ltac:(reflexivity) ltac:(intros x y z H1 H2; congruence)
                ltac:(intros e _ s _; now split) sp c m
                ltac:(intros s _; now split) st1 I) as [_ Hkeep].
  rewrite Htype in Hkeep. rewrite Hrest in Hkeep. simpl in Hkeep. congruence.
Qed.

Lemma inspected_sets_flag (U : util) (self : config) (sp c : nat) (m : message)
    (st st' : state) :
  msg_type m = "http.response.start" -> recording_at c st = true ->
  inspected U self sp m c st = (st', Ok tt) ->
  expecting_trailers st' = get_flag (msg_trailers m).
Proof.
  intros Htype Hrec Hrun.
  assert (Hhook : hook_returns self m = true).
  { unfold hook_returns. revert Hrun. unfold inspected, call_hook.
    destruct (client_response_hook self) as [f|]; [|reflexivity].
    unfold bind. simpl. now destruct (f m). }
  destruct (inspected_run U self sp m c st Hhook) as (new & _ & Heq).
  rewrite Hrec, Hrun in Heq. symmetry in Heq.
  exact (inspect_sets_flag U self sp c m _ _ Htype Heq).
Qed.

(** A call of the send wrapper that returns, for a start of response and
    under a send span that records, leaves the flag as the message gives
    it. *)
Lemma otel_send_sets_flag (U : util) (self : config) (E : env) (sp : nat)
    (name : string) (sc : scope) (m : message) (st : state) :
  let run := otel_send U self E sp name sc (send E) m st in
  run.2 = Ok tt -> sampled E (length (spans st)) = true ->
  msg_type m = "http.response.start" ->
  expecting_trailers run.1 = get_flag (msg_trailers m).
Proof.
  intros run Hok Hsampled Htype. subst run.
  rewrite otel_send_run in Hok |- *. cbv zeta in Hok |- *.
  set (c := length (spans st)) in *.
  set (st0 := enter_span E (join " " [name; sc_type sc; "send"]) st) in *.
  set (block := bind (inspected U self sp m c) (fun _ => forwarded E sp (send E) m) st0) in *.
  assert (Hblock : block = match inspected U self sp m c st0 with
                           | (st1, Ok _) => forwarded E sp (send E) m st1
                           | (st1, Raise e) => (st1, Raise e)
                           end) by reflexivity.
  clearbody block.
  destruct block as [st2 [pm|e]]; cbn [fst snd] in *; [|discriminate].
  assert (Hleave : expecting_trailers
                     (if is_final (expecting_trailers (leave_span c st2 (Ok pm)))
                           (propagated E sp m)
                      then (span_end sp (leave_span c st2 (Ok pm))).1
                      else leave_span c st2 (Ok pm))
                   = expecting_trailers st2).
  { destruct (is_final _ _); simpl; apply (leave_span_cache c st2 (Ok pm)). }
  rewrite Hleave.
  destruct (inspected U self sp m c st0) as [st1 [[]|e1]] eqn:Hins; [|discriminate].
  rewrite forwarded_run in Hblock. cbv zeta in Hblock.
  destruct (ASGIGetter.get _ "content-length") as [values|e2]; [|discriminate].
  injection Hblock as -> _.
  assert (Hrec : recording_at c st0 = true)
    by (subst c st0; now rewrite recording_enter_span).
  rewrite <- (inspected_sets_flag U self sp c m st0 st1 Htype Hrec Hins).
  now destruct (content_length_of values).
Qed.

(** C1, as the code has it.  Take a call of the send wrapper for a server
    span that exists.  When the call raises (the real send did not
    complete), the wrapper does not end the server span.  When it returns,
    the wrapper calls [end()] on the server span exactly once if either
    trailers are not expected and the message is an [http.response.body]
    whose [more_body] is absent or false, or trailers are expected and the
    message is an [http.response.trailers] whose [more_trailers] is absent or
    false; in every other case it does not call it.  In particular, with
    trailers expected the span is not ended after a body chunk.  Trailers
    become expected by a call that returns for an [http.response.start]
    carrying a true [trailers], when the send span of that call records; a
    message of another type, and any message under a send span that does
    not record, leaves the expectation as it is.  So for such a start of
    response followed by a body chunk and by the last trailers, the server
    span is not ended after the body chunk and is ended after the
    trailers. *)
Theorem server_span_ended_by_send (U : util) (self : config) (E : env) (sp : nat)
    (name : string) (sc : scope) (m : message) (st : state) :
  (sp < length (spans st))%nat ->
  let wrapped := otel_send U self E sp name sc (send E) in
  let run := wrapped m st in
  let expected := truthy (expecting_trailers st) in
  let final_body :=
    msg_type m = "http.response.body"
    /\ truthy (get_flag (msg_more_body m)) = false in
  let final_trailers :=
    msg_type m = "http.response.trailers"
    /\ truthy (get_flag (msg_more_trailers m)) = false in
  let ends := (count (is_end sp) (log run.1) - count (is_end sp) (log st))%nat in
  let send_span := length (spans st) in
  (count (is_end sp) (log st) <= count (is_end sp) (log run.1))%nat
  /\ (forall e, run.2 = Raise e -> ends = 0%nat)
  /\ (run.2 = Ok tt ->
      (ends = 1%nat <->
         (expected = false /\ final_body) \/ (expected = true /\ final_trailers))
      /\ (ends = 0%nat <->
            ~ ((expected = false /\ final_body) \/ (expected = true /\ final_trailers)))
      /\ (expected = true -> msg_type m = "http.response.body" -> ends = 0%nat))
  /\ (run.2 = Ok tt -> sampled E send_span = true ->
      msg_type m = "http.response.start" ->
      expecting_trailers run.1 = get_flag (msg_trailers m))
  /\ (msg_type m <> "http.response.start" \/ sampled E send_span = false ->
      expecting_trailers run.1 = expecting_trailers st)
  /\ (forall body last : message,
        run.2 = Ok tt -> sampled E send_span = true ->
        msg_type m = "http.response.start" ->
        truthy (get_flag (msg_trailers m)) = true ->
        msg_type body = "http.response.body" ->
        msg_type last = "http.response.trailers" ->
        truthy (get_flag (msg_more_trailers last)) = false ->
        let run2 := wrapped body run.1 in
        let run3 := wrapped last run2.1 in
        count (is_end sp) (log run2.1) = count (is_end sp) (log st)
        /\ (run3.2 = Ok tt ->
            count (is_end sp) (log run3.1) = S (count (is_end sp) (log st)))).
Proof.
  intros Hsp wrapped run expected final_body final_trailers ends send_span.
  subst send_span.
  destruct (otel_send_step U self E sp name sc m st Hsp) as (Hsp1 & Hcount & Hflag).
  fold wrapped in Hsp1, Hcount, Hflag. fold run in Hsp1, Hcount, Hflag.
  assert (Hset : run.2 = Ok tt -> sampled E (length (spans st)) = true ->
                 msg_type m = "http.response.start" ->
                 expecting_trailers run.1 = get_flag (msg_trailers m))
    by apply otel_send_sets_flag.
  subst ends. rewrite Hcount.
  split; [lia|]. split; [intros e ->; lia|]. split; [|split; [exact Hset|split]].
  - intros ->.
    assert (Hfinal : is_final (expecting_trailers st) m = true <->
              (expected = false /\ final_body) \/ (expected = true /\ final_trailers)).
    { subst expected final_body final_trailers. unfold is_final.
      rewrite orb_true_iff, !andb_true_iff, !negb_true_iff, !String.eqb_eq.
      tauto. }
    destruct (is_final (expecting_trailers st) m) eqn:Hf; simpl.
    + replace (count (is_end sp) (log st) + 1 - count (is_end sp) (log st))%nat
        with 1%nat by lia.
      split; [tauto|]. split.
      * split; [discriminate|]. intros Hn. exfalso. apply Hn. now apply Hfinal.
      * intros Hexp Hbody. exfalso.
        destruct (proj1 Hfinal eq_refl) as [[Hno _]|[_ [Htr _]]];
          [congruence | rewrite Hbody in Htr; discriminate].
    + replace (count (is_end sp) (log st) + 0 - count (is_end sp) (log st))%nat
        with 0%nat by lia.
      split; [|split; [|reflexivity]].
      * split; [discriminate|]. intros Hc. apply Hfinal in Hc. discriminate.
      * split; [|reflexivity]. intros _ Hc. apply Hfinal in Hc. discriminate.
  - intros Hne. destruct Hflag as [Hsame|(Hyes & Hstart & _)]; [exact Hsame|].
    destruct Hne as [Hne|Hno]; [contradiction | congruence].
  - intros body last Hok Hsampled Hstart Htrailers Hbody Hlast Hmore run2 run3.
    assert (Hexp1 : truthy (expecting_trailers run.1) = true)
      by now rewrite (Hset Hok Hsampled Hstart).
    assert (Hcount1 : count (is_end sp) (log run.1) = count (is_end sp) (log st)).
    { rewrite Hcount, Hok. rewrite (is_final_start _ m Hstart). simpl. lia. }
    destruct (otel_send_step U self E sp name sc body run.1 Hsp1)
      as (Hsp2 & Hcount2 & Hflag2).
    fold wrapped in Hsp2, Hcount2, Hflag2. fold run2 in Hsp2, Hcount2, Hflag2.
    assert (Hnot : is_final (expecting_trailers run.1) body = false).
    { unfold is_final. rewrite Hexp1, Hbody. reflexivity. }
    assert (Hcount2' : count (is_end sp) (log run2.1) = count (is_end sp) (log st)).
    { rewrite Hcount2, Hnot, Hcount1. destruct run2.2; simpl; lia. }
    split; [exact Hcount2'|].
    assert (Hexp2 : truthy (expecting_trailers run2.1) = true).
    { destruct Hflag2 as [->|(_ & Hstart2 & _)]; [exact Hexp1|].
      rewrite Hbody in Hstart2. discriminate. }
    destruct (otel_send_step U self E sp name sc last run2.1 Hsp2)
      as (_ & Hcount3 & _).
    fold wrapped in Hcount3. fold run3 in Hcount3.
    intros Hok3. rewrite Hcount3, Hok3, Hcount2'.
    unfold is_final. rewrite Hexp2, Hlast, Hmore. simpl. lia.
Qed.

(** The response with trailers of the specification, under send spans that
    record: the start of response makes trailers expected, the body chunk
    does not end the server span (id 0), and the trailers end it. *)
Lemma server_span_ended_by_send_witness :
  let wrapped := otel_send Sample.U Sample.self Sample.E 0 "GET /a"
                   (Sample.http_scope "/a" []) (send Sample.E) in
  let run := wrapped (Sample.start_event (VInt 200) [] (Some (VBool true)))
               one_recording_span in
  let run2 := wrapped Sample.body_event run.1 in
  let run3 := wrapped Sample.trailers_event run2.1 in
  expecting_trailers run.1 = VBool true
  /\ count (is_end 0) (log run2.1) = 0%nat
  /\ count (is_end 0) (log run3.1) = 1%nat.
Proof.
  intros wrapped run run2 run3.
  assert (Hsp : (0 < length (spans one_recording_span))%nat) by (simpl; lia).
  destruct (server_span_ended_by_send Sample.U Sample.self Sample.E 0 "GET /a"
              (Sample.http_scope "/a" [])
              (Sample.start_event (VInt 200) [] (Some (VBool true)))
              one_recording_span Hsp)
    as (_ & _ & _ & Hset & _ & Hseq).
  split; [exact (Hset eq_refl eq_refl eq_refl)|].
  destruct (Hseq Sample.body_event Sample.trailers_event
              eq_refl eq_refl eq_refl eq_refl eq_refl eq_refl eq_refl)
    as (Hbody & Hlast).
  split; [exact Hbody | exact (Hlast eq_refl)].
Defined.

(** ** The attributes of the duration metric *)

Lemma same_attrs_noting (U : util) (self : config) :
  (forall sp v, respects always same_attrs (set_status_code U sp v))
  /\ (forall sp child m,
        respects always same_attrs
          (let! _ := emit (EvSetAttribute child "asgi.event.type" (VStr (msg_type m))) in
           let! server_recording := read (recording_at sp) in
           let! server_kind := read (kind_at sp) in
           match server_recording, server_kind, msg_headers m with
           | true, SERVER, Some _ =>
             let! custom_response_attributes :=
               capture U self (msg_headers m) (http_capture_headers_server_response self)
                 normalise_response_header_name in
             match custom_response_attributes with
             | [] => ret tt
             | _ => emit (EvSetAttributes sp custom_response_attributes)
             end
           | _, _, _ => ret tt
           end)).
Proof.
  assert (Hrefl : forall st, same_attrs st st) by reflexivity.
  assert (Htrans : forall a b c, same_attrs a b -> same_attrs b c -> same_attrs a c)
    by (unfold same_attrs; congruence).
  assert (Hnote : forall e, is_annotation e = true -> respects always same_attrs (emit e))
    by (intros e _ st _; now split).
  split.
  - intros sp v. now apply noting_set_status_code.
  - intros sp child m. apply noting_inspect_rest; try assumption. now apply Hnote.
Qed.

(** What [inspect] leaves in the attributes of the duration metric: the
    status of an [http.response.start], as the message has it. *)
Lemma inspect_attrs (U : util) (self : config) (sp c : nat) (m : message) (st : state) :
  duration_attrs (inspect U self sp c m st).1
  = if String.eqb (msg_type m) "http.response.start"
    then match msg_status m with
         | Some v => dict_set "http.status_code" v (duration_attrs st)
         | None => duration_attrs st
         end
    else duration_attrs st.
Proof.
  destruct (same_attrs_noting U self) as [Hcode Hrest].
  assert (Hafter : forall (first : M unit) st1 r1,
            first st = (st1, r1) ->
            duration_attrs
              (bind first (fun _ =>
                 let! _ := emit (EvSetAttribute c "asgi.event.type" (VStr (msg_type m))) in
                 let! server_recording := read (recording_at sp) in
                 let! server_kind := read (kind_at sp) in
                 match server_recording, server_kind, msg_headers m with
                 | true, SERVER, Some _ =>
                   let! custom_response_attributes :=
                     capture U self (msg_headers m)
                       (http_capture_headers_server_response self)
                       normalise_response_header_name in
                   match custom_response_attributes with
                   | [] => ret tt
                   | _ => emit (EvSetAttributes sp custom_response_attributes)
                   end
                 | _, _, _ => ret tt
                 end) st).1
            = duration_attrs st1).
  { intros first st1 r1 Hfirst. unfold bind at 1. rewrite Hfirst.
    destruct r1 as [[]|e]; [|reflexivity].
    now destruct (Hrest sp c m st1 I) as [_ Hsame]. }
  unfold inspect.
  destruct (String.eqb (msg_type m) "http.response.start").
  - destruct (msg_status m) as [v|].
    + set (st1 := (set_duration_attrs (dict_set "http.status_code" v (duration_attrs st)) st).1).
      set (tail := let! _ := set_status_code U sp v in
                   let! _ := set_status_code U c v in
                   set_expecting_trailers (get_flag (msg_trailers m))).
      assert (Htail : duration_attrs (tail st1).1 = duration_attrs st1).
      { subst tail. unfold bind at 1.
        destruct (Hcode sp v st1 I) as [_ H1].
        destruct (set_status_code U sp v st1) as [st2 [[]|e]]; [|exact H1].
        unfold bind at 1. destruct (Hcode c v st2 I) as [_ H2].
        destruct (set_status_code U c v st2) as [st3 [[]|e]]; simpl in *;
          unfold same_attrs in *; rewrite H2, H1; reflexivity. }
      rewrite (Hafter _ (tail st1).1 (tail st1).2); [exact Htail|].
      unfold bind at 1. simpl. unfold bind at 1. unfold read. simpl.
      unfold bind at 1. simpl. fold tail.
      change (tail st1 = ((tail st1).1, (tail st1).2)). now destruct (tail st1).
    + now rewrite (Hafter _ st (Raise (KeyError "status"))).
  - destruct (String.eqb (msg_type m) "websocket.send").
    + set (tail := let! _ := set_status_code U sp (VInt 200) in
                   set_status_code U c (VInt 200)).
      assert (Htail : duration_attrs (tail st).1 = duration_attrs st).
      { subst tail. unfold bind at 1.
        destruct (Hcode sp (VInt 200) st I) as [_ H1].
        destruct (set_status_code U sp (VInt 200) st) as [st2 [[]|e]]; [|exact H1].
        destruct (Hcode c (VInt 200) st2 I) as [_ H2].
        unfold same_attrs in *. simpl in *. congruence. }
      rewrite (Hafter _ (tail st).1 (tail st).2); [exact Htail | now destruct (tail st)].
    + now rewrite (Hafter _ st (Ok tt)).
Qed.

Lemma otel_send_attrs (U : util) (self : config) (E : env) (sp : nat) (name : string)
    (sc : scope) (m : message) (st : state) :
  let c := length (spans st) in
  let st0 := enter_span E (join " " [name; sc_type sc; "send"]) st in
  duration_attrs (otel_send U self E sp name sc (send E) m st).1
  = duration_attrs (inspected U self sp m c st0).1.
Proof.
  intros c st0. rewrite otel_send_run. fold c. fold st0. cbv zeta.
  set (pm := propagated E sp m).
  set (first := inspected U self sp m c st0).
  set (block := bind (inspected U self sp m c) (fun _ => forwarded E sp (send E) m) st0).
  assert (Hblock : block = match first with
                           | (st1, Ok _) => forwarded E sp (send E) m st1
                           | (st1, Raise e) => (st1, Raise e)
                           end) by reflexivity.
  clearbody block.
  assert (Hleave : forall (r : outcome message) s,
            duration_attrs (leave_span c s r) = duration_attrs s)
    by (intros r s; apply leave_span_cache).
  assert (Hend : forall sid s, duration_attrs (span_end sid s).1 = duration_attrs s)
    by reflexivity.
  destruct first as [st1 [[]|e1]]; cbn [fst snd] in *.
  - rewrite forwarded_run in Hblock. fold pm in Hblock.
    destruct (ASGIGetter.get (msg_headers pm) "content-length") as [values|e2].
    + subst block. cbn [fst snd].
      destruct (transport_send E _ pm); cbn [fst snd];
        try destruct (is_final _ pm); rewrite ?Hend, Hleave;
        now destruct (content_length_of values).
    + subst block. cbn [fst snd]. now rewrite Hleave.
  - subst block. cbn [fst snd]. now rewrite Hleave.
Qed.

(** X16.  The status code in the attributes of the duration metric.  The send
    wrapper writes it from an [http.response.start], as the message has it
    and before it is converted, and only when the send span records and the
    hook has returned; in every other case, and for every other message,
    the attributes are as they were. *)
Theorem status_code_in_metric_attributes (U : util) (self : config) (E : env)
    (sp : nat) (name : string) (sc : scope) (m : message) (st : state) :
  let run := otel_send U self E sp name sc (send E) m st in
  duration_attrs run.1
  = if hook_returns self m && sampled E (length (spans st))
       && String.eqb (msg_type m) "http.response.start"
    then match msg_status m with
         | Some v => dict_set "http.status_code" v (duration_attrs st)
         | None => duration_attrs st
         end
    else duration_attrs st.
Proof.
  intros run. subst run. rewrite otel_send_attrs.
  set (st0 := enter_span E (join " " [name; sc_type sc; "send"]) st).
  destruct (hook_returns self m) eqn:Hhook; simpl.
  - destruct (inspected_run U self sp m (length (spans st)) st0 Hhook)
      as (new & _ & Hfirst).
    unfold st0 in Hfirst at 2. rewrite recording_enter_span in Hfirst. fold st0 in Hfirst.
    rewrite Hfirst.
    destruct (sampled E (length (spans st))); simpl; [|reflexivity].
    now rewrite inspect_attrs.
  - unfold hook_returns in Hhook. unfold inspected, call_hook.
    destruct (client_response_hook self) as [f|]; [|discriminate].
    destruct (f m) as [e|]; [|discriminate]. reflexivity.
Qed.

(** ** The child spans of the wrappers *)

Lemma inner_only_refl (st : state) : inner_only st st.
Proof. split; [|reflexivity]. exists []. split; [reflexivity | constructor]. Qed.

Lemma inner_only_trans (a b c : state) :
  inner_only a b -> inner_only b c -> inner_only a c.
Proof.
  intros ((n1 & L1 & F1) & S1) ((n2 & L2 & F2) & S2).
  split; [|congruence].
  exists (n2 ++ n1)%list. split.
  - rewrite L2, L1. now rewrite app_assoc.
  - now apply Forall_app.
Qed.

Lemma inner_only_emit (e : event) :
  is_inner e = true -> respects always inner_only (emit e).
Proof.
  intros He st _. split; [exact I|]. split; [|reflexivity].
  exists [e]. split; [reflexivity | now repeat constructor].
Qed.

Lemma inner_only_silent {A} (f : M A) :
  (forall st, log (f st).1 = log st /\ spans (f st).1 = spans st) ->
  respects always inner_only f.
Proof.
  intros Hf st _. destruct (Hf st) as [Hl Hs]. split; [exact I|].
  split; [|exact Hs]. exists []. split; [exact Hl | constructor].
Qed.

Lemma send_block_inner (U : util) (self : config) (E : env) (sp c : nat) (m : message) :
  respects always inner_only (otel_send_block U self E sp (send E) m c).
Proof.
  apply respects_otel_send_block.
  - apply inner_only_refl.
  - apply inner_only_trans.
  - apply inner_only_emit.
  - intros v. now apply inner_only_silent.
  - intros d. now apply inner_only_silent.
  - intros st0 _ _ _ . now apply inner_only_silent.
Qed.

Lemma receive_block_inner (U : util) (self : config) (E : env) (sc : scope) (c : nat) :
  respects always inner_only (receive_block U self sc (receive E) c).
Proof.
  unfold receive_block.
  apply respects_bind; [apply inner_only_trans | |].
  { apply respects_call_hook;
      [apply inner_only_refl | apply inner_only_trans | apply inner_only_emit]. }
  intros _. apply respects_bind; [apply inner_only_trans | |].
  { apply respects_receive;
      [apply inner_only_refl | apply inner_only_trans | apply inner_only_emit]. }
  intros m. apply respects_guarded; [apply inner_only_trans | |].
  - intros st HG _.
    apply (respects_bind always inner_only inner_only_trans
             (when (String.eqb (msg_type m) "websocket.receive")
                   (set_status_code U c (VInt 200)))); [| |exact HG].
    + apply respects_when; [apply inner_only_refl|].
      apply respects_set_status_code;
        [apply inner_only_refl | apply inner_only_trans | apply inner_only_emit].
    + intros _. now apply inner_only_emit.
  - apply respects_ret, inner_only_refl.
Qed.

(** A block under [start_as_current_span] that logs inner events only and
    leaves the spans as they are: one span is started, the child, and it
    is ended once. *)
Lemma child_span_run {A} (E : env) (name : string) (body : nat -> M A) (st : state) :
  (forall c, respects always inner_only (body c)) ->
  let c := length (spans st) in
  let run := start_as_current_span E name body st in
  exists new,
    log run.1 = (new ++ log st)%list
    /\ List.filter is_any_start new = [EvStartSpan c name INTERNAL [] (sampled E c)]
    /\ (forall sp, count (is_end sp) new = if Nat.eqb sp c then 1%nat else 0%nat)
    /\ recording_at c run.1 = false
    /\ length (spans run.1) = S c
    /\ (forall sp, sp <> c -> spans run.1 !! sp = spans (enter_span E name st) !! sp).
Proof.
  intros Hbody c run. subst run. rewrite start_as_current_span_run. fold c.
  cbn [fst snd].
  set (st0 := enter_span E name st).
  destruct (Hbody c st0 I) as [_ ((new1 & Hlog1 & Hnew1) & Hspans1)].
  destruct (body c st0) as [st1 r]. cbn [fst snd] in *.
  assert (Hstart : misses is_any_start new1)
    by (apply (class_misses is_inner); [no_events | exact Hnew1]).
  assert (Hend : forall sp, misses (is_end sp) new1)
    by (intros sp; apply (class_misses is_inner); [no_events | exact Hnew1]).
  assert (Hlen : length (spans st0) = S c)
    by (subst st0; unfold enter_span; simpl; rewrite length_app; simpl; lia).
  unfold leave_span.
  set (st2 := (emit (EvDetach (TokSpan c)) st1).1).
  set (st3 := match r with
              | Ok _ => st2
              | Raise e =>
                if recording_at c st2
                then (emit (EvSetStatus c ERROR (Some (exn_name e)))
                        (emit (EvRecordException c e) st2).1).1
                else st2
              end).
  assert (Hst3 : spans st3 = spans st0
                 /\ exists new3, log st3 = (new3 ++ log st1)%list
                                 /\ misses is_any_start new3
                                 /\ forall sp, misses (is_end sp) new3).
  { subst st3. destruct r as [a|e]; [|destruct (recording_at c st2)]; simpl;
      (split; [exact Hspans1|]).
    - exists [EvDetach (TokSpan c)]. now repeat constructor.
    - eexists [_; _; _]. split; [reflexivity|]. now repeat constructor.
    - exists [EvDetach (TokSpan c)]. now repeat constructor. }
  destruct Hst3 as (Hspans3 & new3 & Hlog3 & Hstart3 & Hend3).
  exists (EvEndSpan c (recording_at c st3) :: new3 ++ new1
          ++ [EvAttach (TokSpan c); EvStartSpan c name INTERNAL [] (sampled E c)])%list.
  split; [|split; [|split; [|split; [|split]]]].
  - rewrite log_span_end, Hlog3, Hlog1. subst st0. rewrite enter_span_log. fold c.
    simpl. now rewrite <- !app_assoc.
  - simpl. rewrite !List.filter_app, (misses_filter _ _ Hstart3), (misses_filter _ _ Hstart).
    reflexivity.
  - intros sp. rewrite count_cons, !count_app.
    rewrite (misses_count _ _ (Hend3 sp)), (misses_count _ _ (Hend sp)). simpl.
    rewrite (Nat.eqb_sym c sp). now destruct (Nat.eqb sp c).
  - apply recording_at_span_end.
  - rewrite length_span_end. now rewrite Hspans3.
  - intros sp Hne. rewrite lookup_span_end_ne by congruence. now rewrite Hspans3.
Qed.

(** X17.  Each call of a wrapper starts one span: an INTERNAL span without
    attributes, named after the server span, the type of the scope and the
    direction.  The wrapper ends that span exactly once before it returns
    or raises, whatever the hook, the inspection and the transport do, and
    the span no longer records afterwards. *)
Theorem child_span_lifecycle (U : util) (self : config) (E : env) (sp : nat)
    (name : string) (sc : scope) (m : message) (st : state) :
  (sp < length (spans st))%nat ->
  let c := length (spans st) in
  let child direction :=
    EvStartSpan c (join " " [name; sc_type sc; direction]) INTERNAL [] (sampled E c) in
  let lifecycle (direction : string) (run : state) :=
    exists new,
      log run = (new ++ log st)%list
      /\ List.filter is_any_start new = [child direction]
      /\ count (is_end c) new = 1%nat
      /\ recording_at c run = false
      /\ length (spans run) = S c in
  lifecycle "send" (otel_send U self E sp name sc (send E) m st).1
  /\ lifecycle "receive" (otel_receive U self E name sc (receive E) st).1.
Proof.
  intros Hsp c child lifecycle. subst lifecycle child. cbv beta. split.
  - assert (Hrun : otel_send U self E sp name sc (send E) m st
                   = match start_as_current_span E (join " " [name; sc_type sc; "send"])
                             (otel_send_block U self E sp (send E) m) st with
                     | (st1, Ok m') =>
                       (if is_final (expecting_trailers st1) m'
                        then (span_end sp st1).1 else st1, Ok tt)
                     | (st1, Raise e) => (st1, Raise e)
                     end).
    { unfold otel_send. unfold bind at 1.
      destruct (start_as_current_span E _ _ st) as [st1 [m'|e]]; [|reflexivity].
      unfold bind, read, when. simpl.
      now destruct (is_final (expecting_trailers st1) m'). }
    rewrite Hrun. clear Hrun.
    destruct (child_span_run E (join " " [name; sc_type sc; "send"])
                (otel_send_block U self E sp (send E) m) st
                (fun child => send_block_inner U self E sp child m))
      as (new & Hlog & Hstart & Hend & Hrec & Hlen & _).
    fold c in Hstart, Hend, Hrec, Hlen.
    destruct (start_as_current_span E _ _ st) as [st1 [m'|e]]; cbn [fst snd] in *.
    + destruct (is_final (expecting_trailers st1) m'); cbn [fst snd].
      * exists (EvEndSpan sp (recording_at sp st1) :: new).
        split; [now rewrite log_span_end, Hlog|].
        split; [exact Hstart|]. split; [|split].
        -- rewrite count_cons, Hend, Nat.eqb_refl. simpl.
           assert (Hne : Nat.eqb sp c = false) by (apply Nat.eqb_neq; lia).
           now rewrite Hne.
        -- rewrite (recording_at_lookup c st1); [exact Hrec|].
           apply lookup_span_end_ne. lia.
        -- now rewrite length_span_end.
      * exists new. rewrite Hend, Nat.eqb_refl. now repeat split.
    + exists new. rewrite Hend, Nat.eqb_refl. now repeat split.
  - rewrite otel_receive_block.
    destruct (child_span_run E (join " " [name; sc_type sc; "receive"])
                (receive_block U self sc (receive E)) st
                (receive_block_inner U self E sc))
      as (new & Hlog & Hstart & Hend & Hrec & Hlen & _).
    exists new. rewrite Hend, Nat.eqb_refl. now repeat split.
Qed.

Lemma child_span_lifecycle_witness :
  let run := otel_send Sample.U Sample.self Sample.E 0 "GET /a"
               (Sample.http_scope "/a" []) (send Sample.E)
               (Sample.start_event (VInt 200) [] None) one_recording_span in
  recording_at 1 run.1 = false /\ length (spans run.1) = 2%nat
  /\ count (is_end 1) (log run.1) = 1%nat.
Proof.
  intros run.
  assert (Hsp : (0 < length (spans one_recording_span))%nat) by (simpl; lia).
  destruct (child_span_lifecycle Sample.U Sample.self Sample.E 0 "GET /a"
              (Sample.http_scope "/a" []) (Sample.start_event (VInt 200) [] None)
              one_recording_span Hsp) as [(new & Hlog & _ & Hend & Hrec & Hlen) _].
  split; [exact Hrec|]. split; [exact Hlen|].
  change (count (is_end 1) new = 1%nat) in Hend.
  fold run in Hlog. rewrite Hlog, count_app, Hend. reflexivity.
Defined.

Lemma request_kept_refl (st : state) : request_kept st st.
Proof. now repeat split. Qed.

Lemma request_kept_trans (a b c : state) :
  request_kept a b -> request_kept b c -> request_kept a c.
Proof.
  unfold request_kept, same_request.
  intros ((C1 & T1 & D1) & O1) ((C2 & T2 & D2) & O2). repeat split; congruence.
Qed.

(** X18.  The receive wrapper leaves the request as it is: the cached content
    length, the trailers flag and the attributes of the duration metric do
    not change, no metric instrument is touched and the request context is
    neither attached nor detached; every span that existed, the server
    span among them, is as it was and [end()] is not called on it. *)
Theorem receive_wrapper_leaves_request (U : util) (self : config) (E : env)
    (name : string) (sc : scope) (st : state) :
  let run := otel_receive U self E name sc (receive E) st in
  content_length_header run.1 = content_length_header st
  /\ expecting_trailers run.1 = expecting_trailers st
  /\ duration_attrs run.1 = duration_attrs st
  /\ count is_outer (log run.1) = count is_outer (log st)
  /\ (forall sp, (sp < length (spans st))%nat ->
        spans run.1 !! sp = spans st !! sp
        /\ count (is_end sp) (log run.1) = count (is_end sp) (log st)).
Proof.
  intros run. subst run.
  assert (Hkept : request_kept st (otel_receive U self E name sc (receive E) st).1).
  { apply (respects_otel_receive U self E always request_kept
             request_kept_refl request_kept_trans); [| | |exact I].
    - intros e He s _. split; [exact I|]. split; [now repeat split|].
      simpl. rewrite count_cons.
      assert (Ho : is_outer e = false)
        by (destruct e as [| | | | | | [|] | [|] | | | | |]; simpl in *; congruence).
      now rewrite Ho.
    - intros nm s _. split; [exact I|]. split; [now repeat split|].
      simpl. now rewrite count_cons.
    - intros s0 _ sid _ s _. split; [exact I|]. split; [now repeat split|].
      simpl. now rewrite count_cons. }
  destruct Hkept as ((Hc & Ht & Hd) & Ho).
  repeat (split; [assumption|]).
  intros sp Hsp.
  destruct (rely_otel_receive U self E _ _ (left_alone_rely E sp) name sc st Hsp)
    as [_ [Hcount Hspan]].
  now split.
Qed.

(** ** The sizes in the finally block *)



(** ** The server request hook *)



Lemma bind_raises {A B} (m : M A) (k : A -> M B) (st : state) (e : exn) :
  (m st).2 = Raise e -> bind m k st = ((m st).1, Raise e).
Proof. unfold bind. destruct (m st) as [st1 [a|e']]; simpl; congruence. Qed.

Lemma request_hook_raises (self : config) (sc : scope) (f : scope -> option exn)
    (e : exn) (st : state) :
  server_request_hook self = Some f -> f sc = Some e ->
  (call_hook ServerRequest (server_request_hook self) sc st).2 = Raise e.
Proof. intros Hf Hfsc. unfold call_hook, bind. rewrite Hf. simpl. now rewrite Hfsc. Qed.

Lemma serve_hook_raises (U : util) (self : config) (E : env) (rq : request)
    (sc : scope) (a : app) (st : state) (f : scope -> option exn) (e : exn) :
  server_request_hook self = Some f -> f sc = Some e ->
  serve U self E rq sc a st = serve U self E rq sc AppReturn st
  /\ (exists e', (serve U self E rq sc a st).2 = Raise e')
  /\ (http_capture_headers_server_request self = [] ->
      (serve U self E rq sc a st).2 = Raise e).
Proof.
  intros Hf Hfsc. split.
  - unfold serve. apply use_span_ext. intros s.
    apply bind_ext. intros recording s1. apply bind_ext. intros [] s2.
    now rewrite !(bind_raises _ _ s2 e (request_hook_raises self sc f e s2 Hf Hfsc)).
  - set (s0 := (emit (EvAttach (TokSpan (rq_span rq))) st).1).
    set (noted :=
           when (recording_at (rq_span rq) s0)
             (let! _ := set_each (rq_span rq) (rq_attributes rq) in
              let! kind := read (kind_at (rq_span rq)) in
              match kind with
              | SERVER =>
                let! custom_attributes :=
                  capture U self (sc_headers sc) (http_capture_headers_server_request self)
                    normalise_request_header_name in
                match custom_attributes with
                | [] => ret tt
                | _ => emit (EvSetAttributes (rq_span rq) custom_attributes)
                end
              | INTERNAL => ret tt
              end) s0).
    assert (Hout : (serve U self E rq sc a st).2
                   = match noted.2 with
                     | Ok _ => Raise e
                     | Raise e1 => Raise e1
                     end).
    { unfold serve. rewrite use_span_outcome. fold s0.
      unfold bind at 1. unfold read at 1. cbv beta iota. unfold bind at 1. fold noted.
      destruct noted as [st1 [[]|e1]]; [|reflexivity].
      now rewrite (bind_raises _ _ st1 e (request_hook_raises self sc f e st1 Hf Hfsc)). }
    rewrite Hout. split; [destruct noted.2; now eexists|].
    intros Hnone.
    assert (Hnoted : noted.2 = Ok tt); [|now rewrite Hnoted].
    subst noted. unfold when. destruct (recording_at (rq_span rq) s0); [|reflexivity].
    unfold bind at 1.
    pose proof (set_each_returns (rq_span rq) (rq_attributes rq) s0) as Hset.
    destruct (set_each (rq_span rq) (rq_attributes rq) s0) as [st2 r2].
    simpl in Hset. subst r2.
    unfold bind, read, capture. rewrite Hnone. simpl.
    now destruct (kind_at (rq_span rq) st2).
Qed.

Lemma call_runs (U : util) (self : config) (E : env) (sc : scope) (a : app)
    (st : state) :
  supported sc = true -> url_disabled self sc = false ->
  __call__ U self E sc a st
  = match enter U self E (timer E (length (log st))) sc st with
    | (st1, Ok rq) => try_finally (serve U self E rq sc a) (cleanup E rq sc) st1
    | (st1, Raise e) => (st1, Raise e)
    end.
Proof.
  intros Hsup Hexcl. unfold __call__. unfold bind at 1. unfold read. cbv beta iota.
  rewrite Hsup, Hexcl. cbv beta iota delta [negb]. unfold bind.
  now destruct (enter U self E _ sc st) as [st1 [rq|e]].
Qed.

(** X20.  The server request hook is not guarded.  When it raises, for a request
    of a supported type that is not excluded, [__call__] raises and the
    application is never called: the run is the same whatever the
    application.  When the set-up has returned, no request header is to be
    captured and the request's content length can be looked up, the
    exception that leaves [__call__] is the hook's. *)
Theorem failing_request_hook (U : util) (self : config) (E : env) (sc : scope)
    (a : app) (st : state) (f : scope -> option exn) (e : exn) :
  supported sc = true -> url_disabled self sc = false ->
  server_request_hook self = Some f -> f sc = Some e ->
  let run := __call__ U self E sc a st in
  (forall a', __call__ U self E sc a' st = run)
  /\ (exists e', run.2 = Raise e')
  /\ (forall st1 rq,
        enter U self E (timer E (length (log st))) sc st = (st1, Ok rq) ->
        http_capture_headers_server_request self = [] ->
        (is_http sc = true ->
         exists v, ASGIGetter.get (sc_headers sc) "content-length" = Ok v) ->
        run.2 = Raise e).
Proof.
  intros Hsup Hexcl Hf Hfsc run. subst run.
  rewrite (call_runs U self E sc a st Hsup Hexcl).
  destruct (enter U self E (timer E (length (log st))) sc st) as [st1 [rq|e0]] eqn:Henter.
  - destruct (serve_hook_raises U self E rq sc a st1 f e Hf Hfsc)
      as (Hsame & (e' & Hraise) & Hhook).
    split; [|split].
    + intros a'. rewrite (call_runs U self E sc a' st Hsup Hexcl), Henter.
      destruct (serve_hook_raises U self E rq sc a' st1 f e Hf Hfsc) as (Hsame' & _).
      unfold try_finally. now rewrite Hsame, Hsame'.
    + unfold try_finally.
      destruct (serve U self E rq sc a st1) as [st2 r2]. simpl in Hraise. subst r2.
      destruct (cleanup E rq sc st2) as [st3 [[]|e3]]; now eexists.
    + intros st1' rq' [= <- <-] Hnone Hlookup.
      unfold try_finally. specialize (Hhook Hnone).
      destruct (serve U self E rq sc a st1) as [st2 r2]. simpl in Hhook. subst r2.
      destruct (cleanup_spec E rq sc st2) as (after & _ & _ & _ & _ & _ & _ & Hcase).
      destruct (is_http sc).
      * destruct (Hlookup eq_refl) as [v Hv]. rewrite Hv in Hcase.
        destruct Hcase as (Hok & _).
        destruct (cleanup E rq sc st2) as [st3 r3]. simpl in Hok. now subst r3.
      * destruct Hcase as (Hok & _).
        destruct (cleanup E rq sc st2) as [st3 r3]. simpl in Hok. now subst r3.
  - split; [|split].
    + intros a'. now rewrite (call_runs U self E sc a' st Hsup Hexcl), Henter.
    + now exists e0.
    + discriminate.
Qed.

Lemma failing_request_hook_witness :
  let run := __call__ Sample.U self_failing_hook Sample.E (Sample.http_scope "/a" [])
               (Sample.plain_app []) Sample.initial in
  run.2 = Raise (Failure 3)
  /\ __call__ Sample.U self_failing_hook Sample.E (Sample.http_scope "/a" [])
       failing_app Sample.initial = run.
Proof.
  intros run.
  destruct (failing_request_hook Sample.U self_failing_hook Sample.E
              (Sample.http_scope "/a" []) (Sample.plain_app []) Sample.initial
              (fun _ => Some (Failure 3)) (Failure 3) eq_refl eq_refl eq_refl eq_refl)
    as (Hsame & _ & Hraise).
  split; [|exact (Hsame failing_app)].
  pose (en := enter Sample.U self_failing_hook Sample.E
                (timer Sample.E (length (log Sample.initial)))
                (Sample.http_scope "/a" []) Sample.initial).
  assert (Henter : en = (en.1, Ok (entered en.2))) by (vm_compute; reflexivity).
  apply (Hraise en.1 (entered en.2) Henter eq_refl).
  intros _. now exists None.
Defined.

(** ** Websocket requests *)

Lemma enter_no_metric (U : util) (self : config) (E : env) (start : reading) (sc : scope)
    (st : state) :
  is_http sc = false ->
  exists new, log (enter U self E start sc st).1 = (new ++ log st)%list
              /\ misses is_metric new.
Proof.
  intros Hhttp. unfold enter.
  destruct (default_span_details self sc) as [span_name additional].
  unfold bind at 1. unfold lift.
  destruct (collect_request_attributes U sc) as [attributes|e];
    [|exists []; split; [reflexivity | constructor]].
  unfold _start_internal_or_server_span, bind, read, lift, when, ret. rewrite Hhttp.
  simpl. destruct (ambient_span E); simpl.
  - eexists [_]. split; [reflexivity | now repeat constructor].
  - destruct (extract (extract_fields E) (sc_headers sc)) as [[]|e]; simpl.
    + eexists [_; _]. split; [reflexivity | now repeat constructor].
    + exists []. split; [reflexivity | constructor].
Qed.

(** X21.  A websocket request touches no metric instrument: neither the
    active-request counter nor a histogram is called, whatever the
    application does and however the request ends. *)
Theorem websocket_touches_no_metric (U : util) (self : config) (E : env) (sc : scope)
    (a : app) (st : state) :
  sc_type sc = "websocket" ->
  exists new, log (__call__ U self E sc a st).1 = (new ++ log st)%list
              /\ misses is_metric new.
Proof.
  intros Htype.
  assert (Hsup : supported sc = true) by (unfold supported; now rewrite Htype).
  assert (Hhttp : is_http sc = false) by (unfold is_http; now rewrite Htype).
  destruct (url_disabled self sc) eqn:Hexcl.
  - unfold __call__. unfold bind at 1. unfold read. cbv beta iota.
    rewrite Hsup, Hexcl. cbv beta iota delta [negb].
    destruct (run_app_only_transport E a st I) as [_ ((new & Hlog & Hnew) & _)].
    exists new. split; [exact Hlog|].
    apply (class_misses is_transport); [no_events | exact Hnew].
  - rewrite (call_runs U self E sc a st Hsup Hexcl).
    destruct (enter_no_metric U self E (timer E (length (log st))) sc st Hhttp)
      as (before & Hlog1 & Hbefore).
    destruct (enter U self E (timer E (length (log st))) sc st) as [st1 [rq|e]] eqn:Henter;
      cbn [fst snd] in *; [|now exists before].
    destruct (enter_spec U self E _ sc st st1 rq Henter) as (Hsp & _ & Hlt & _).
    rewrite <- Hsp in Hlt.
    unfold try_finally.
    destruct (serve_spec U self E rq sc a st1 Hlt) as (during & Hlog2 & Hduring & _).
    destruct (serve U self E rq sc a st1) as [st2 r2]. cbn [fst snd] in *.
    assert (Hcleanup : cleanup E rq sc st2 = release rq st2)
      by (unfold cleanup, bind, when; now rewrite Hhttp).
    rewrite Hcleanup.
    destruct (release_spec rq st2) as (Hok & _ & after & Hlog3 & Hafter & _).
    destruct (release rq st2) as [st3 r3]. cbn [fst snd] in *. subst r3.
    cbv beta iota. cbn [fst snd].
    exists (after ++ during ++ before)%list. split.
    + rewrite Hlog3, Hlog2, Hlog1. now rewrite <- !app_assoc.
    + apply misses_app; [exact Hafter|]. apply misses_app; [|exact Hbefore].
      apply (outer_misses (rq_span rq)); [no_events | exact Hduring].
Qed.

Lemma websocket_touches_no_metric_witness :
  count is_metric
    (log (__call__ Sample.U Sample.self Sample.E (Sample.websocket_scope "/ws")
            (Sample.plain_app []) Sample.initial).1) = 0%nat.
Proof.
  destruct (websocket_touches_no_metric Sample.U Sample.self Sample.E
              (Sample.websocket_scope "/ws") (Sample.plain_app []) Sample.initial
              eq_refl) as (new & Hlog & Hnew).
  rewrite Hlog, app_nil_r. now apply misses_count.
Defined.

(** ** The content length of the request in the finally block *)

(** X22.  A request whose content length cannot be looked up, because a header
    of that name has a value that is not UTF-8: the [finally] block of
    [__call__] raises the error of the lookup in place of the outcome of
    the request, after the duration was recorded and the counter
    decremented, and stops there: the request context is not detached and
    [end()] is not called on the server span. *)
Theorem undecodable_content_length_aborts_cleanup (U : util) (self : config)
    (E : env) (sc : scope) (a : app) (st st1 : state) (rq : request) (e : exn) :
  is_http sc = true -> url_disabled self sc = false ->
  enter U self E (timer E (length (log st))) sc st = (st1, Ok rq) ->
  ASGIGetter.get (sc_headers sc) "content-length" = Raise e ->
  let run := __call__ U self E sc a st in
  let served := (serve U self E rq sc a st1).1 in
  run.2 = Raise e
  /\ exists after,
       log run.1 = (after ++ log served)%list
       /\ count is_duration_record after = 1%nat
       /\ count is_decrement after = 1%nat
       /\ misses is_carrier_detach after
       /\ misses (is_end (rq_span rq)) after
       /\ recording_at (rq_span rq) run.1 = recording_at (rq_span rq) served.
Proof.
  intros Hhttp Hexcl Henter Hget run served. subst run served.
  assert (Hsup : supported sc = true).
  { unfold supported. unfold is_http in Hhttp. now rewrite Hhttp. }
  rewrite (call_phases U self E sc a st st1 rq Hsup Hexcl Henter).
  unfold try_finally.
  destruct (serve U self E rq sc a st1) as [st2 r2]. cbn [fst snd].
  destruct (cleanup_spec E rq sc st2)
    as (after & Hlog & _ & _ & Hidle & Hdec & (attrs & Hdur) & Hcase).
  rewrite Hhttp in Hdec, Hdur, Hcase. rewrite Hget in Hcase.
  destruct Hcase as (Hraise & Hrec & Heff & Hdetach).
  destruct (cleanup E rq sc st2) as [st3 r3]. cbn [fst snd] in *. subst r3.
  cbv beta iota. cbn [fst snd]. split; [reflexivity|].
  exists after. split; [exact Hlog|].
  split; [unfold count; now rewrite Hdur|]. split; [exact Hdec|].
  split; [exact Hdetach|]. split; [|exact Hrec].
  unfold misses in *. rewrite Forall_forall in *. intros ev Hin.
  specialize (Hidle ev Hin). specialize (Heff ev Hin).
  destruct ev as [| sid [|] | | | | | | | | | | |]; simpl in *; congruence.
Qed.

Lemma undecodable_content_length_aborts_cleanup_witness :
  let sc := Sample.http_scope "/a" [("content-length", not_utf8)] in
  let run := __call__ Sample.U Sample.self Sample.E sc (Sample.plain_app [])
               Sample.initial in
  run.2 = Raise UnicodeDecodeError.
Proof.
  intros sc run.
  pose (en := enter Sample.U Sample.self Sample.E
                (timer Sample.E (length (log Sample.initial))) sc Sample.initial).
  assert (Henter : en = (en.1, Ok (entered en.2))) by (vm_compute; reflexivity).
  exact (proj1 (undecodable_content_length_aborts_cleanup Sample.U Sample.self
                  Sample.E sc (Sample.plain_app []) Sample.initial en.1
                  (entered en.2) UnicodeDecodeError eq_refl eq_refl Henter eq_refl)).
Defined.
